(** * Bloch-sphere to hydrogen-orbital engine: a shallow embedding

    The Python modules [quantum_constants], [hydrogen_wavefunctions],
    [orbital_coefficients] and [bloch_orbital_mapper] are embedded here as
    Rocq functions, and the properties stated for them are proved (or
    refuted at a concrete input).

    Numeric model.  A Python [float] is read as an exact real number of
    [R]; a Python or numpy [complex] is a pair of reals.  Rounding is thus
    abstracted away: every equation below is an equation of exact
    arithmetic.  Python [int]s are [Z], [str]s are [string]s, a [dict]
    literal is the association list of its items in insertion order, and
    an exception is the [Raise] constructor of [result], tagged with the
    raise site.  Where rounding decides what kind of result the code
    gives (an argument of [np.arccos] that ends above 1), the rounding
    error is a parameter of the embedding. *)

From Stdlib Require Import Reals Lra Lia ZArith Ascii String List Bool.
From Stdlib Require Import DecimalString.
Import ListNotations.

Open Scope R_scope.

(* ------------------------------------------------------------------ *)
(** ** Exceptions *)

(** One tag per [raise] site of the embedded modules, plus the exceptions
    that reach them from the builtins [float], [max] and [int * float]
    and from numpy's in-place addition.  All of them are [ValueError]s in
    Python but the last two. *)
Inductive Exception : Type :=
| BadPrincipal        (* validate_quantum_numbers: n < 1 *)
| BadAzimuthal        (* validate_quantum_numbers: not 0 <= l < n *)
| BadMagnetic         (* validate_quantum_numbers: |m| > l *)
| ExceedsMaxPrincipal (* validate_quantum_numbers: n > 7 *)
| UnknownBasis        (* bloch_to_orbital_coeffs *)
| UnknownGate         (* apply_gate_to_state *)
| UnknownState        (* set_pure_state *)
| BadFloatLiteral     (* float(str) on a malformed literal *)
| EmptyMax            (* max() of an empty sequence *)
| UnknownAxis         (* get_interference_pattern *)
| UnknownPlane        (* calculate_slice *)
| UnknownBellState    (* create_bell_state *)
| OverflowError       (* int * float: int too large to convert to float *)
| UFuncTypeError.     (* numpy: a complex128 term added in place to a
                         float64 array *)

Inductive result (A : Type) : Type :=
| Ok (a : A)
| Raise (e : Exception).

Arguments Ok {A} a.
Arguments Raise {A} e.

Definition bind {A B : Type} (r : result A) (k : A -> result B) : result B :=
  match r with
  | Ok a => k a
  | Raise e => Raise e
  end.

Notation "x <- r ;; k" := (bind r (fun x => k))
  (at level 61, r at next level, right associativity).
Notation "r ;;; k" := (bind r (fun _ => k))
  (at level 61, right associativity).

Definition raises {A : Type} (r : result A) : Prop :=
  exists e, r = Raise e.

Definition returns {A : Type} (r : result A) : Prop :=
  exists a, r = Ok a.

(* ------------------------------------------------------------------ *)
(** ** Complex numbers, as numpy computes with them *)

Definition C : Type := (R * R)%type.

Definition RtoC (x : R) : C := (x, 0).
Definition Ci : C := (0, 1).
Definition C0 : C := (0, 0).
Definition C1 : C := (1, 0).

Definition Cplus (a b : C) : C := (fst a + fst b, snd a + snd b).
Definition Cminus (a b : C) : C := (fst a - fst b, snd a - snd b).
Definition Copp (a : C) : C := (- fst a, - snd a).
Definition Cmult (a b : C) : C :=
  (fst a * fst b - snd a * snd b, fst a * snd b + snd a * fst b).
Definition Cconj (a : C) : C := (fst a, - snd a).
Definition Creal (a : C) : R := fst a.

(** [z * s] and [z / s] for a real [s]. *)
Definition Cscale (a : C) (s : R) : C := (fst a * s, snd a * s).
Definition Cdiv_real (a : C) (s : R) : C := (fst a / s, snd a / s).

(** [a / b] for complex [b]. *)
Definition Cdiv (a b : C) : C :=
  let d := fst b * fst b + snd b * snd b in
  ((fst a * fst b + snd a * snd b) / d, (snd a * fst b - fst a * snd b) / d).

(** [np.abs] on a complex value. *)
Definition Cabs (a : C) : R := sqrt (fst a * fst a + snd a * snd a).

(** [np.exp] on a complex value. *)
Definition Cexp (a : C) : C := (exp (fst a) * cos (snd a), exp (fst a) * sin (snd a)).

(** [np.arctan2 y x], with value in (-pi, pi] and [arctan2 0 0 = 0]. *)
Definition arctan2 (y x : R) : R :=
  if Rlt_dec 0 x then atan (y / x)
  else if Rlt_dec x 0 then
         if Rle_dec 0 y then atan (y / x) + PI else atan (y / x) - PI
  else if Rlt_dec 0 y then PI / 2
  else if Rlt_dec y 0 then - (PI / 2)
  else 0.

(** [np.angle z = arctan2(z.imag, z.real)]. *)
Definition angle (a : C) : R := arctan2 (snd a) (fst a).

(** Python's [x % y] on floats, for a positive modulus:
    [x - floor(x / y) * y]. *)
Definition Rmod (x y : R) : R := x - IZR (Int_part (x / y)) * y.

(** [np.clip v lo hi]. *)
Definition clip (v lo hi : R) : R := Rmin (Rmax v lo) hi.

(* ------------------------------------------------------------------ *)
(** ** quantum_constants.py *)

Definition MAX_PRINCIPAL_QUANTUM_NUMBER : Z := 7.

Definition QuantumNumbers : Type := (Z * Z * Z)%type.

Definition validate_quantum_numbers (n l m : Z) : result bool :=
  if (n <? 1)%Z then Raise BadPrincipal
  else if ((l <? 0) || (n <=? l))%Z%bool then Raise BadAzimuthal
  else if (l <? Z.abs m)%Z then Raise BadMagnetic
  else if (MAX_PRINCIPAL_QUANTUM_NUMBER <? n)%Z then Raise ExceedsMaxPrincipal
  else Ok true.

(** The validity predicate of the data model. *)
Definition valid_qn (n l m : Z) : Prop :=
  (1 <= n <= 7 /\ 0 <= l < n /\ Z.abs m <= l)%Z.

(** The table [RADIAL_NORMALIZATION], keyed by [(n, l)]. *)
Definition RADIAL_NORMALIZATION (n l : Z) : option R :=
  match n, l with
  | 1%Z, 0%Z => Some 2
  | 2%Z, 0%Z => Some (1 / (2 * sqrt 2))
  | 2%Z, 1%Z => Some (1 / (2 * sqrt 6))
  | 3%Z, 0%Z => Some (2 / (27 * sqrt 3))
  | 3%Z, 1%Z => Some (4 / (27 * sqrt 6))
  | 3%Z, 2%Z => Some (2 / (81 * sqrt 30))
  | _, _ => None
  end.

Definition DEFAULT_GRID_RESOLUTION : nat := 64.

(** The table [ORBITAL_EXTENT], keyed by [n]. *)
Definition ORBITAL_EXTENT (n : Z) : option R :=
  match n with
  | 1%Z => Some 10
  | 2%Z => Some 20
  | 3%Z => Some 30
  | 4%Z => Some 40
  | 5%Z => Some 50
  | 6%Z => Some 60
  | 7%Z => Some 70
  | _ => None
  end.

(** The least magnitude of an [int] that Python refuses to convert to a
    [float]: halfway between the largest double and [2 ^ 1024]. *)
Definition FLOAT_CONVERSION_BOUND : Z := (2 ^ 1024 - 2 ^ 970)%Z.

(** [ORBITAL_EXTENT.get(n, n * 10.0)].  The default [n * 10.0] is
    evaluated before the lookup, whether [n] is in the table or not, and
    converting [n] to a [float] raises [OverflowError] for an [int] of
    [FLOAT_CONVERSION_BOUND] or more in magnitude.  (Below that bound the
    product is read as a real number; in double precision it is exact up
    to rounding for [|n| <= 2 ^ 53] and reaches [inf] near the bound.) *)
Definition get_orbital_extent (n : Z) : result R :=
  if (FLOAT_CONVERSION_BOUND <=? Z.abs n)%Z then Raise OverflowError
  else
    Ok (match ORBITAL_EXTENT n with
        | Some e => e
        | None => IZR n * 10
        end).

(** 2x2 complex matrices, row major, and column 2-vectors. *)
Definition Matrix2 : Type := ((C * C) * (C * C))%type.
Definition Vector2 : Type := (C * C)%type.

(** [np.array(rows) / s] for a real [s]. *)
Definition Mdiv_real (g : Matrix2) (s : R) : Matrix2 :=
  let '((a, b), (c, d)) := g in
  ((Cdiv_real a s, Cdiv_real b s), (Cdiv_real c s, Cdiv_real d s)).

(** [g @ v]. *)
Definition matvec (g : Matrix2) (v : Vector2) : Vector2 :=
  let '((a, b), (c, d)) := g in
  let '(v0, v1) := v in
  (Cplus (Cmult a v0) (Cmult b v1), Cplus (Cmult c v0) (Cmult d v1)).

Definition PAULI_X : Matrix2 := ((C0, C1), (C1, C0)).
Definition PAULI_Y : Matrix2 := ((C0, Copp Ci), (Ci, C0)).
Definition PAULI_Z : Matrix2 := ((C1, C0), (C0, RtoC (-1))).
Definition IDENTITY : Matrix2 := ((C1, C0), (C0, C1)).
Definition HADAMARD : Matrix2 :=
  Mdiv_real ((C1, C1), (C1, RtoC (-1))) (sqrt 2).
Definition S_GATE : Matrix2 := ((C1, C0), (C0, Ci)).
Definition T_GATE : Matrix2 :=
  ((C1, C0), (C0, Cexp (Cdiv_real (Cscale Ci PI) 4))).

Definition rotation_x (theta : R) : Matrix2 :=
  ((RtoC (cos (theta / 2)), Cscale (Copp Ci) (sin (theta / 2))),
   (Cscale (Copp Ci) (sin (theta / 2)), RtoC (cos (theta / 2)))).

Definition rotation_y (theta : R) : Matrix2 :=
  ((RtoC (cos (theta / 2)), RtoC (- sin (theta / 2))),
   (RtoC (sin (theta / 2)), RtoC (cos (theta / 2)))).

Definition rotation_z (theta : R) : Matrix2 :=
  ((Cexp (Cdiv_real (Cscale (Copp Ci) theta) 2), C0),
   (C0, Cexp (Cdiv_real (Cscale Ci theta) 2))).

(** The table [QUANTUM_GATES]. *)
Definition QUANTUM_GATES (name : string) : option Matrix2 :=
  if String.eqb name "X" then Some PAULI_X
  else if String.eqb name "Y" then Some PAULI_Y
  else if String.eqb name "Z" then Some PAULI_Z
  else if String.eqb name "H" then Some HADAMARD
  else if String.eqb name "S" then Some S_GATE
  else if String.eqb name "T" then Some T_GATE
  else if String.eqb name "I" then Some IDENTITY
  else None.

(** The entries [theta], [phi] of the table [BLOCH_PURE_STATES]. *)
Definition BLOCH_PURE_STATES (name : string) : option (R * R) :=
  if String.eqb name "|0⟩" then Some (0, 0)
  else if String.eqb name "|1⟩" then Some (PI, 0)
  else if String.eqb name "|+⟩" then Some (PI / 2, 0)
  else if String.eqb name "|-⟩" then Some (PI / 2, PI)
  else if String.eqb name "|+i⟩" then Some (PI / 2, PI / 2)
  else if String.eqb name "|-i⟩" then Some (PI / 2, 3 * PI / 2)
  else None.

(* ------------------------------------------------------------------ *)
(** ** The scipy special functions used by hydrogen_wavefunctions.py

    [scipy.special] is an external library; its functions are given here
    by their defining recurrences. *)

(** [special.factorial k]: [k!], and 0 for a negative argument. *)
Definition factorial (k : Z) : R :=
  if (k <? 0)%Z then 0 else INR (fact (Z.to_nat k)).

(** [special.eval_genlaguerre k a x], the generalized Laguerre polynomial
    of degree [k], by the three-term recurrence. *)
Fixpoint eval_genlaguerre (k : nat) (a x : R) : R :=
  match k with
  | O => 1
  | S k1 =>
      match k1 with
      | O => 1 + a - x
      | S k2 =>
          ((2 * INR k1 + 1 + a - x) * eval_genlaguerre k1 a x
           - (INR k1 + a) * eval_genlaguerre k2 a x) / INR k
      end
  end.

(** Associated Legendre function [P_m^m(x)], Condon-Shortley phase
    included. *)
Fixpoint legendre_diag (m : nat) (x : R) : R :=
  match m with
  | O => 1
  | S m1 => - (2 * INR m1 + 1) * sqrt (1 - x * x) * legendre_diag m1 x
  end.

(** [P_(m+k)^m(x)], by upward recurrence on the degree. *)
Fixpoint legendre_up (m k : nat) (x : R) : R :=
  match k with
  | O => legendre_diag m x
  | S k1 =>
      match k1 with
      | O => x * (2 * INR m + 1) * legendre_diag m x
      | S k2 =>
          (x * (2 * INR (m + k) - 1) * legendre_up m k1 x
           - (INR (m + k) + INR m - 1) * legendre_up m k2 x) / INR k
      end
  end.

(** [Y_l^m] for [0 <= m <= l]:
    [sqrt((2l+1)/(4 pi) * (l-m)!/(l+m)!) * P_l^m(cos theta) * e^(i m phi)]. *)
Definition sph_harm_nonneg (m l : nat) (phi theta : R) : C :=
  Cscale (Cexp (0, INR m * phi))
         (sqrt ((2 * INR l + 1) / (4 * PI)
                * (INR (fact (l - m)) / INR (fact (l + m))))
          * legendre_up m (l - m) (cos theta)).

(** [special.sph_harm(m, l, phi, theta)] (order [m] first, azimuth [phi]
    before the polar angle [theta]).  For a negative order,
    [Y_l^(-m) = (-1)^m conj(Y_l^m)].  scipy answers [nan] outside
    [|m| <= l]; [hydrogen_orbital] validates before it gets here, and the
    embedding gives 0 there. *)
Definition sph_harm (m l : Z) (phi theta : R) : C :=
  if (l <? Z.abs m)%Z then C0
  else if (0 <=? m)%Z then sph_harm_nonneg (Z.to_nat m) (Z.to_nat l) phi theta
  else Cscale (Cconj (sph_harm_nonneg (Z.to_nat (- m)) (Z.to_nat l) phi theta))
              (powerRZ (-1) m).

(* ------------------------------------------------------------------ *)
(** ** hydrogen_wavefunctions.py *)

Definition generalized_laguerre (n : Z) (alpha : Z) (x : R) : R :=
  eval_genlaguerre (Z.to_nat n) (IZR alpha) x.

(** The normalization constant computed inside [radial_wavefunction]:
    [sqrt((2/n)^3 * (n-l-1)! / (2n * (n+l)!))]. *)
Definition norm_factor (n l : Z) : R :=
  sqrt ((2 / IZR n) ^ 3 * factorial (n - l - 1)
        / (2 * IZR n * factorial (n + l))).

(** [radial_wavefunction(n, l, r)].  [r] has gone through [np.asarray],
    so [np.isscalar(r)] is false and the [np.where] branch is the one that
    runs at the end. *)
Definition radial_wavefunction (n l : Z) (r : R) : result R :=
  validate_quantum_numbers n l 0 ;;;
  let r_safe := if Rlt_dec 0 r then r else 1 / 10 ^ 10 in
  let rho := 2 * r_safe / IZR n in
  let exp_term := exp (- rho / 2) in
  let power_term := powerRZ rho l in
  let laguerre_term := generalized_laguerre (n - l - 1) (2 * l + 1) rho in
  let R_nl := norm_factor n l * exp_term * power_term * laguerre_term in
  Ok (if Rlt_dec 0 r then R_nl
      else if (0 <? l)%Z then 0 else norm_factor n l).

(** [spherical_harmonic(l, m, theta, phi, real_form)]; a real result is
    returned as a complex number with zero imaginary part. *)
Definition spherical_harmonic (l m : Z) (theta phi : R) (real_form : bool) : C :=
  let Y_lm := sph_harm m l phi theta in
  if (real_form && negb (m =? 0)%Z)%bool then
    let Y_real :=
      if (0 <? m)%Z then
        let Y_lm_conj := sph_harm (- m) l phi theta in
        Cdiv_real (Cplus Y_lm (Cscale (Cconj Y_lm_conj) (powerRZ (-1) m)))
                  (sqrt 2)
      else
        let Y_lm_pos := sph_harm (- m) l phi theta in
        Cdiv (Cminus Y_lm (Cscale (Cconj Y_lm_pos) (powerRZ (-1) m)))
             (Cscale Ci (sqrt 2))
    in RtoC (Creal Y_real)
  else Y_lm.

Definition cartesian_to_spherical (x y z : R) : R * R * R :=
  let r := sqrt (x ^ 2 + y ^ 2 + z ^ 2) in
  let theta := acos (clip (z / Rmax r (1 / 10 ^ 10)) (-1) 1) in
  let phi := arctan2 y x in
  let phi := if Rlt_dec phi 0 then phi + 2 * PI else phi in
  (r, theta, phi).

Definition hydrogen_orbital (n l m : Z) (x y z : R) (real_form : bool)
  : result C :=
  validate_quantum_numbers n l m ;;;
  let '(r, theta, phi) := cartesian_to_spherical x y z in
  R_nl <- radial_wavefunction n l r ;;
  let Y_lm := spherical_harmonic l m theta phi real_form in
  Ok (Cscale Y_lm R_nl).

(** [probability_density(psi)]. *)
Definition probability_density (psi : C) : R := Cabs psi ^ 2.

(* ------------------------------------------------------------------ *)
(** ** The builtin [float(str)]

    Decimal literals: an optional sign, digits with an optional fraction,
    an optional exponent.  Python's [float] reads more: surrounding
    blanks, underscores between digits, [inf], [infinity] and [nan], and
    it rounds an exponent too large for a double to [inf].  Those
    literals are outside this embedding ([inf] and [nan] are no real
    numbers); the properties below that go through [float_of_string] use
    only the kind of exception it raises. *)

Definition digit_of (c : Ascii.ascii) : option nat :=
  let k := Ascii.nat_of_ascii c in
  if ((48 <=? k) && (k <=? 57))%nat%bool then Some (k - 48)%nat else None.

(** Leading digits of [s]: their value, their number, and the rest. *)
Fixpoint take_digits (s : string) (acc cnt : nat) : nat * nat * string :=
  match s with
  | EmptyString => (acc, cnt, s)
  | String c r =>
      match digit_of c with
      | Some d => take_digits r (10 * acc + d)%nat (S cnt)
      | None => (acc, cnt, s)
      end
  end.

Definition strip_sign (s : string) : bool * string :=
  match s with
  | String "-"%char r => (true, r)
  | String "+"%char r => (false, r)
  | _ => (false, s)
  end.

Definition signed (neg : bool) (x : R) : R := if neg then - x else x.

Definition float_of_string (s : string) : result R :=
  let '(neg, s1) := strip_sign s in
  let '(ip, ic, s2) := take_digits s1 0 0 in
  let '(fp, fc, s3) :=
    match s2 with
    | String "."%char r => take_digits r 0 0
    | _ => (O, O, s2)
    end in
  if (ic + fc =? 0)%nat then Raise BadFloatLiteral
  else
    let mant := signed neg (INR ip + INR fp / 10 ^ fc) in
    match s3 with
    | EmptyString => Ok mant
    | String c r =>
        if (Ascii.eqb c "e"%char || Ascii.eqb c "E"%char)%bool then
          let '(eneg, r1) := strip_sign r in
          let '(ev, ec, r2) := take_digits r1 0 0 in
          match ec, r2 with
          | S _, EmptyString =>
              Ok (mant * powerRZ 10 (if eneg then - Z.of_nat ev else Z.of_nat ev))
          | _, _ => Raise BadFloatLiteral
          end
        else Raise BadFloatLiteral
    end.

(* ------------------------------------------------------------------ *)
(** ** orbital_coefficients.py *)

Definition bloch_to_state_vector (theta phi : R) : Vector2 :=
  let alpha := cos (theta / 2) in
  let beta := Cscale (Cexp (Cscale Ci phi)) (sin (theta / 2)) in
  (RtoC alpha, beta).

(** [state_vector_to_bloch] in exact arithmetic; [np.arccos] is given
    the modulus of the normalised [alpha] as it is.  See
    [state_vector_to_bloch_fp] for what rounding does to that argument. *)
Definition state_vector_to_bloch (state_vector : Vector2) : R * R :=
  let '(alpha, beta) := state_vector in
  let norm := sqrt (Cabs alpha ^ 2 + Cabs beta ^ 2) in
  let alpha := Cdiv_real alpha norm in
  let beta := Cdiv_real beta norm in
  let theta := 2 * acos (Cabs alpha) in
  let phi := angle beta - angle alpha in
  let phi := Rmod phi (2 * PI) in
  (theta, phi).

(** [np.arccos] as numpy evaluates it: [nan], here [None], outside
    [[-1, 1]]. *)
Definition np_arccos (x : R) : option R :=
  if Rle_dec (-1) x then
    if Rle_dec x 1 then Some (acos x) else None
  else None.

(** [state_vector_to_bloch] with the rounding of the argument of
    [np.arccos] made explicit.  The code hands [np.abs(alpha)] to
    [np.arccos] as it is, with no clip (its sibling
    [cartesian_to_spherical] clips to [[-1, 1]] first); [err] is the
    rounding error that the double-precision evaluation of that modulus
    carries, a few units of [2 ^ -53] of either sign.  The polar angle is
    [None] when numpy answers [nan]. *)
Definition state_vector_to_bloch_fp (err : R) (state_vector : Vector2)
  : option R * R :=
  let '(alpha, beta) := state_vector in
  let norm := sqrt (Cabs alpha ^ 2 + Cabs beta ^ 2) in
  let alpha := Cdiv_real alpha norm in
  let beta := Cdiv_real beta norm in
  let theta :=
    match np_arccos (Cabs alpha + err) with
    | Some t => Some (2 * t)
    | None => None
    end in
  let phi := angle beta - angle alpha in
  let phi := Rmod phi (2 * PI) in
  (theta, phi).

(** An orbital mixture: the items of the Python dict, in insertion
    order. *)
Definition OrbitalCoeffs : Type := list (QuantumNumbers * C).

Definition bloch_to_orbital_coeffs (theta phi : R) (basis : string)
  : result OrbitalCoeffs :=
  let '(alpha, beta) := bloch_to_state_vector theta phi in
  if String.eqb basis "sp" then
    Ok [ ((1, 0, 0)%Z, alpha); ((2, 0, 0)%Z, beta) ]
  else if String.eqb basis "pp" then
    let cos_half := cos (theta / 2) in
    let sin_half := sin (theta / 2) in
    let c_px := sin_half * cos phi in
    let c_py := sin_half * sin phi in
    let c_pz := cos_half in
    Ok [ ((2, 1, 1)%Z, RtoC c_px);
         ((2, 1, -1)%Z, RtoC c_py);
         ((2, 1, 0)%Z, RtoC c_pz) ]
  else if String.eqb basis "sd" then
    Ok [ ((1, 0, 0)%Z, alpha); ((3, 2, 0)%Z, beta) ]
  else Raise UnknownBasis.

(** The [for] loop of [orbital_coeffs_to_density]: [psi_total] is the
    accumulator, an exception leaves the loop at once. *)
Fixpoint accumulate_psi (items : OrbitalCoeffs) (x y z : R) (psi_total : C)
  : result C :=
  match items with
  | [] => Ok psi_total
  | ((n, l, m), coeff) :: rest =>
      psi_i <- hydrogen_orbital n l m x y z true ;;
      accumulate_psi rest x y z (Cplus psi_total (Cmult coeff psi_i))
  end.

Definition orbital_coeffs_to_density (coeffs : OrbitalCoeffs) (x y z : R)
  : result R :=
  psi_total <- accumulate_psi coeffs x y z (RtoC 0) ;;
  let density := Cabs psi_total ^ 2 in
  Ok density.

(** A gate argument is either a name (a [str]) or a matrix. *)
Inductive GateArg : Type :=
| GateName (name : string)
| GateMatrix (g : Matrix2).

(** [gate[3:-1]]. *)
Definition slice_3_m1 (gate : string) : string :=
  String.substring 3 (String.length gate - 4) gate.

Definition apply_gate_to_state (state_vector : Vector2) (gate : GateArg)
  : result Vector2 :=
  gate_matrix <-
    match gate with
    | GateName gate =>
        if String.prefix "RX(" gate then
          angle <- float_of_string (slice_3_m1 gate) ;;
          Ok (rotation_x angle)
        else if String.prefix "RY(" gate then
          angle <- float_of_string (slice_3_m1 gate) ;;
          Ok (rotation_y angle)
        else if String.prefix "RZ(" gate then
          angle <- float_of_string (slice_3_m1 gate) ;;
          Ok (rotation_z angle)
        else
          match QUANTUM_GATES gate with
          | None => Raise UnknownGate
          | Some gate_matrix => Ok gate_matrix
          end
    | GateMatrix g => Ok g
    end ;;
  let new_state := matvec gate_matrix state_vector in
  Ok new_state.

Definition apply_gate_to_bloch (theta phi : R) (gate : GateArg)
  : result (R * R) :=
  let state := bloch_to_state_vector theta phi in
  new_state <- apply_gate_to_state state gate ;;
  Ok (state_vector_to_bloch new_state).

(* ------------------------------------------------------------------ *)
(** ** numpy arrays on the sampling lattice

    numpy evaluates arithmetic elementwise on whole arrays, while the
    Python control flow around it (validation, the loop over the items of
    a mixture) runs once per call.  A 3-dimensional array is a list of
    lists of lists. *)

Definition Array3 (A : Type) : Type := list (list (list A)).

(** [np.linspace(start, stop, num)]. *)
Definition linspace (start stop : R) (num : nat) : list R :=
  map (fun i => start + INR i * ((stop - start) / INR (num - 1))) (seq 0 num).

(** [np.meshgrid(x, y, z, indexing='ij')]. *)
Definition meshgrid_ij (x y z : list R) : Array3 R * Array3 R * Array3 R :=
  (map (fun xi => map (fun yj => map (fun zk => xi) z) y) x,
   map (fun xi => map (fun yj => map (fun zk => yj) z) y) x,
   map (fun xi => map (fun yj => map (fun zk => zk) z) y) x).

(** Elementwise application of a scalar function to three arrays of one
    shape. *)
Definition elementwise {A : Type} (f : R -> R -> R -> A)
  (xg yg zg : Array3 R) : Array3 A :=
  map (fun '(px, (py, pz)) =>
         map (fun '(qx, (qy, qz)) =>
                map (fun '(x, (y, z)) => f x y z)
                    (combine qx (combine qy qz)))
             (combine px (combine py pz)))
      (combine xg (combine yg zg)).

(** What [hydrogen_orbital] computes once its validation has passed. *)
Definition orbital_value (n l m : Z) (x y z : R) (real_form : bool) : C :=
  let '(r, theta, phi) := cartesian_to_spherical x y z in
  let r_safe := if Rlt_dec 0 r then r else 1 / 10 ^ 10 in
  let rho := 2 * r_safe / IZR n in
  let R_nl :=
    norm_factor n l * exp (- rho / 2) * powerRZ rho l
    * generalized_laguerre (n - l - 1) (2 * l + 1) rho in
  let R_nl := if Rlt_dec 0 r then R_nl
              else if (0 <? l)%Z then 0 else norm_factor n l in
  Cscale (spherical_harmonic l m theta phi real_form) R_nl.

(** numpy's two array types met here. *)
Inductive dtype : Type := float64 | complex128.

(** The dtype of the array [coeff * psi_i] for a key [(n, l, m)].  In
    real form [hydrogen_orbital] returns the radial part times scipy's
    complex harmonic when [m = 0], a complex128 array whatever the
    coefficient is, and times [np.real(...)] otherwise, a float64 array.
    Keys with [m <> 0] are written in one place of the code, the pp
    branch of [bloch_to_orbital_coeffs], with float64 coefficients, so
    for them the product stays float64. *)
Definition term_dtype (m : Z) : dtype :=
  if (m =? 0)%Z then complex128 else float64.

(** The loop of [orbital_coeffs_to_density] run on arrays, as far as its
    control flow goes.  [psi_total] starts as the Python float [0.0]
    ([None] here); the first [+=] rebinds it to a new array, of the
    dtype of the term; from then on [+=] adds in place, which numpy
    refuses (same-kind casting) when the term is complex128 and the
    array is float64.  [hydrogen_orbital] validates each key before its
    term is added. *)
Fixpoint accumulate_nd (items : OrbitalCoeffs) (psi_total : option dtype)
  : result (option dtype) :=
  match items with
  | [] => Ok psi_total
  | ((n, l, m), _) :: rest =>
      validate_quantum_numbers n l m ;;;
      match psi_total, term_dtype m with
      | None, t => accumulate_nd rest (Some t)
      | Some float64, complex128 => Raise UFuncTypeError
      | Some d, _ => accumulate_nd rest (Some d)
      end
  end.

(** The validations met by the loop of [orbital_coeffs_to_density], in
    order. *)
Fixpoint check_keys (items : OrbitalCoeffs) : result bool :=
  match items with
  | [] => Ok true
  | ((n, l, m), _) :: rest =>
      validate_quantum_numbers n l m ;;; check_keys rest
  end.

(** The amplitude summed by that loop at one point. *)
Definition psi_total_value (coeffs : OrbitalCoeffs) (x y z : R) : C :=
  fold_left
    (fun psi_total '((n, l, m), coeff) =>
       Cplus psi_total (Cmult coeff (orbital_value n l m x y z true)))
    coeffs (RtoC 0).

(** [orbital_coeffs_to_density] called on three arrays: the loop runs
    once, and the density is taken at every point.  (For an empty
    mixture numpy is left with the scalar [0.0]; the lattice of zeros
    stands for it.) *)
Definition orbital_coeffs_to_density_nd (coeffs : OrbitalCoeffs)
  (xg yg zg : Array3 R) : result (Array3 R) :=
  accumulate_nd coeffs None ;;;
  Ok (elementwise (fun x y z => Cabs (psi_total_value coeffs x y z) ^ 2)
                  xg yg zg).

(* ------------------------------------------------------------------ *)
(** ** bloch_orbital_mapper.py: class BlochOrbitalState *)

Definition DensityGrid : Type :=
  (Array3 R * Array3 R * Array3 R * Array3 R)%type.

Record BlochOrbitalState : Type := mkState {
  basis : string;
  _theta : R;
  _phi : R;
  _state_vector : Vector2;
  _orbital_coeffs : OrbitalCoeffs;
  _density_cache : option DensityGrid
}.

(** A method runs on the object and leaves it, possibly half updated
    when it raises. *)
Definition Method (A : Type) : Type :=
  BlochOrbitalState -> result A * BlochOrbitalState.

Definition set_bloch_state (theta phi : R) : Method unit := fun self =>
  let self1 :=
    mkState (basis self) theta phi (bloch_to_state_vector theta phi)
            (_orbital_coeffs self) (_density_cache self) in
  match bloch_to_orbital_coeffs theta phi (basis self) with
  | Raise e => (Raise e, self1)
  | Ok coeffs =>
      (Ok tt,
       mkState (basis self) theta phi (bloch_to_state_vector theta phi)
               coeffs None)
  end.

(** [BlochOrbitalState(theta, phi, basis)]. *)
Definition new_BlochOrbitalState (theta phi : R) (basis : string)
  : result BlochOrbitalState :=
  let self := mkState basis 0 0 (RtoC 1, RtoC 0) [] None in
  match set_bloch_state theta phi self with
  | (Ok _, self') => Ok self'
  | (Raise e, _) => Raise e
  end.

Definition set_state_vector (state_vector : Vector2) : Method unit := fun self =>
  let '(a, b) := state_vector in
  let norm := sqrt (Cabs a ^ 2 + Cabs b ^ 2) in
  let state_vector := (Cdiv_real a norm, Cdiv_real b norm) in
  let '(theta, phi) := state_vector_to_bloch state_vector in
  let self1 :=
    mkState (basis self) theta phi state_vector
            (_orbital_coeffs self) (_density_cache self) in
  match bloch_to_orbital_coeffs theta phi (basis self) with
  | Raise e => (Raise e, self1)
  | Ok coeffs =>
      (Ok tt, mkState (basis self) theta phi state_vector coeffs None)
  end.

Definition set_pure_state (state_name : string) : Method unit := fun self =>
  match BLOCH_PURE_STATES state_name with
  | None => (Raise UnknownState, self)
  | Some (theta, phi) => set_bloch_state theta phi self
  end.

Definition apply_gate (gate_type : GateArg) : Method unit := fun self =>
  match apply_gate_to_bloch (_theta self) (_phi self) gate_type with
  | Raise e => (Raise e, self)
  | Ok (new_theta, new_phi) => set_bloch_state new_theta new_phi self
  end.

(** [state.basis = b]: [basis] is a plain attribute, assigning it runs no
    code of the class. *)
Definition assign_basis (b : string) : Method unit := fun self =>
  (Ok tt,
   mkState b (_theta self) (_phi self) (_state_vector self)
           (_orbital_coeffs self) (_density_cache self)).

(** [max(nlm[0] for nlm in coeffs.keys())]. *)
Definition max_principal (coeffs : OrbitalCoeffs) : result Z :=
  match coeffs with
  | [] => Raise EmptyMax
  | ((n, _, _), _) :: rest =>
      Ok (fold_left (fun acc '((n', _, _), _) => Z.max acc n') rest n)
  end.

(** The part of [calculate_density_grid] below the cache test: sample the
    current mixture. *)
Definition sample_density_grid (coeffs : OrbitalCoeffs)
  (resolution : option nat) (extent : option R) : result DensityGrid :=
  let resolution :=
    match resolution with
    | None => DEFAULT_GRID_RESOLUTION
    | Some k => k
    end in
  extent <-
    match extent with
    | None => max_n <- max_principal coeffs ;; get_orbital_extent max_n
    | Some e => Ok e
    end ;;
  let x := linspace (- extent) extent resolution in
  let y := linspace (- extent) extent resolution in
  let z := linspace (- extent) extent resolution in
  let '(x_grid, y_grid, z_grid) := meshgrid_ij x y z in
  density_grid <- orbital_coeffs_to_density_nd coeffs x_grid y_grid z_grid ;;
  Ok (x_grid, y_grid, z_grid, density_grid).

Definition calculate_density_grid (resolution : option nat)
  (extent : option R) (use_cache : bool) : Method DensityGrid := fun self =>
  match use_cache, _density_cache self with
  | true, Some cached => (Ok cached, self)
  | _, _ =>
      match sample_density_grid (_orbital_coeffs self) resolution extent with
      | Raise e => (Raise e, self)
      | Ok grid =>
          (Ok grid,
           mkState (basis self) (_theta self) (_phi self) (_state_vector self)
                   (_orbital_coeffs self) (Some grid))
      end
  end.

(** The loop of [analyze_superposition] that sums [np.abs(coeff) ** 2]. *)
Definition total_prob (coeffs : OrbitalCoeffs) : R :=
  fold_left (fun total '(_, coeff) => total + Cabs coeff ^ 2) coeffs 0.

(** Equality test on dict keys, and [d.get(key, default)]. *)
Definition qn_eqb (a b : QuantumNumbers) : bool :=
  let '(n1, l1, m1) := a in
  let '(n2, l2, m2) := b in
  ((n1 =? n2) && (l1 =? l2) && (m1 =? m2))%Z%bool.

Fixpoint dict_get {A : Type} (d : list (QuantumNumbers * A))
  (key : QuantumNumbers) (default : A) : A :=
  match d with
  | [] => default
  | (k, v) :: rest => if qn_eqb k key then v else dict_get rest key default
  end.

(** [BlochOrbitalState.get_orbital_probabilities]. *)
Definition get_orbital_probabilities (self : BlochOrbitalState)
  : list (QuantumNumbers * R) :=
  map (fun '(nlm, coeff) => (nlm, Cabs coeff ^ 2)) (_orbital_coeffs self).

(** The basis vocabulary. *)
Definition supported_basis (basis : string) : Prop :=
  In basis ["sp"; "pp"; "sd"]%string.

(** The specification's coherent sum [sum_i c_i * psi_i(x, y, z)], each
    [psi_i] being [hydrogen_orbital] in real form; it is undefined (raises)
    as soon as one [psi_i] is. *)
Fixpoint amplitude_sum (coeffs : OrbitalCoeffs) (x y z : R) : result C :=
  match coeffs with
  | [] => Ok C0
  | ((n, l, m), c) :: rest =>
      psi_i <- hydrogen_orbital n l m x y z true ;;
      s <- amplitude_sum rest x y z ;;
      Ok (Cplus (Cmult c psi_i) s)
  end.

(** The sum of the per-orbital densities [sum_i |c_i * psi_i|^2], which
    the engine must not compute. *)
Fixpoint density_sum (coeffs : OrbitalCoeffs) (x y z : R) : result R :=
  match coeffs with
  | [] => Ok 0
  | ((n, l, m), c) :: rest =>
      psi_i <- hydrogen_orbital n l m x y z true ;;
      s <- density_sum rest x y z ;;
      Ok (Cabs (Cmult c psi_i) ^ 2 + s)
  end.

(** The ways a client changes a [BlochOrbitalState]: the four mutating
    methods, and the assignment of the attribute [basis]. *)
Inductive Mutation : Type :=
| SetBlochState (theta phi : R)
| SetStateVector (state_vector : Vector2)
| SetPureState (state_name : string)
| ApplyGate (gate_type : GateArg)
| AssignBasis (b : string).

Definition run_mutation (mu : Mutation) : Method unit :=
  match mu with
  | SetBlochState theta phi => set_bloch_state theta phi
  | SetStateVector v => set_state_vector v
  | SetPureState name => set_pure_state name
  | ApplyGate g => apply_gate g
  | AssignBasis b => assign_basis b
  end.

Definition is_method (mu : Mutation) : Prop :=
  match mu with
  | AssignBasis _ => False
  | _ => True
  end.

(** The derived fields agree with the Bloch angles and the basis. *)
Definition coeffs_derived (s : BlochOrbitalState) : Prop :=
  bloch_to_orbital_coeffs (_theta s) (_phi s) (basis s)
  = Ok (_orbital_coeffs s).

(** The state vector is the one the mutation computes: the renormalized
    argument for [set_state_vector], with the angles read off it, and the
    vector of the new angles for the other methods. *)
Definition vector_derived (mu : Mutation) (s : BlochOrbitalState) : Prop :=
  match mu with
  | SetStateVector (a, b) =>
      let norm := sqrt (Cabs a ^ 2 + Cabs b ^ 2) in
      _state_vector s = (Cdiv_real a norm, Cdiv_real b norm)
      /\ (_theta s, _phi s) = state_vector_to_bloch (_state_vector s)
  | _ => _state_vector s = bloch_to_state_vector (_theta s) (_phi s)
  end.

(** Two objects used as concrete inputs below: the state built by
    [BlochOrbitalState(0, 0, 'sp')], and that state after one call
    [calculate_density_grid(resolution=2, extent=10)]. *)
Definition ground_state : BlochOrbitalState :=
  mkState "sp" 0 0 (bloch_to_state_vector 0 0)
          [ ((1, 0, 0)%Z, fst (bloch_to_state_vector 0 0));
            ((2, 0, 0)%Z, snd (bloch_to_state_vector 0 0)) ]
          None.

Definition sampled_state : BlochOrbitalState :=
  snd (calculate_density_grid (Some 2%nat) (Some 10) true ground_state).

(* ------------------------------------------------------------------ *)
(** ** quantum_constants.py: names and colours *)

Definition RGBA : Type := (R * R * R * R)%type.

(** The table [ORBITAL_LETTERS]. *)
Definition ORBITAL_LETTERS (l : Z) : option string :=
  match l with
  | 0%Z => Some "s"%string
  | 1%Z => Some "p"%string
  | 2%Z => Some "d"%string
  | 3%Z => Some "f"%string
  | 4%Z => Some "g"%string
  | 5%Z => Some "h"%string
  | 6%Z => Some "i"%string
  | _ => None
  end.

(** The table [ORBITAL_COLORS]. *)
Definition ORBITAL_COLORS (letter : string) : option RGBA :=
  if String.eqb letter "s" then Some (0.2, 0.6, 1.0, 0.7)
  else if String.eqb letter "p" then Some (1.0, 0.5, 0.2, 0.7)
  else if String.eqb letter "d" then Some (0.2, 1.0, 0.4, 0.7)
  else if String.eqb letter "f" then Some (0.8, 0.2, 1.0, 0.7)
  else if String.eqb letter "g" then Some (1.0, 1.0, 0.2, 0.7)
  else if String.eqb letter "h" then Some (0.2, 1.0, 1.0, 0.7)
  else if String.eqb letter "i" then Some (1.0, 0.2, 0.6, 0.7)
  else None.

Definition PHASE_POSITIVE_COLOR : RGBA := (1.0, 0.3, 0.3, 0.7).
Definition PHASE_NEGATIVE_COLOR : RGBA := (0.3, 0.3, 1.0, 0.7).

(** The colour [ORBITAL_COLORS.get] falls back on. *)
Definition FALLBACK_GRAY : RGBA := (0.5, 0.5, 0.5, 0.7).

Definition get_orbital_color (l : Z) (phase : option R) : RGBA :=
  match phase with
  | Some ph =>
      if Rle_dec 0 ph then PHASE_POSITIVE_COLOR else PHASE_NEGATIVE_COLOR
  | None =>
      let letter :=
        match ORBITAL_LETTERS l with
        | Some s => s
        | None => "s"%string
        end in
      match ORBITAL_COLORS letter with
      | Some c => c
      | None => FALLBACK_GRAY
      end
  end.

(** [f"{k}"] for an [int]. *)
Definition str_of_int (k : Z) : string :=
  DecimalString.NilZero.string_of_int (Z.to_int k).

Definition get_orbital_name (n l : Z) (m : option Z) : string :=
  let letter :=
    match ORBITAL_LETTERS l with
    | Some s => s
    | None => ("l" ++ str_of_int l)%string
    end in
  match m with
  | None => (str_of_int n ++ letter)%string
  | Some m =>
      let suffix :=
        if (l =? 1)%Z then
          if (m =? 1)%Z then "x"%string
          else if (m =? -1)%Z then "y"%string
          else if (m =? 0)%Z then "z"%string
          else ("m" ++ str_of_int m)%string
        else if (l =? 2)%Z then
          if (m =? 0)%Z then "z²"%string
          else if (m =? 1)%Z then "xz"%string
          else if (m =? -1)%Z then "yz"%string
          else if (m =? 2)%Z then "xy"%string
          else if (m =? -2)%Z then "x²-y²"%string
          else ("m" ++ str_of_int m)%string
        else
          if negb (m =? 0)%Z then ("m" ++ str_of_int m)%string
          else ""%string in
      (str_of_int n ++ letter ++ suffix)%string
  end.

(** The entry [orbital] of the table [BLOCH_PURE_STATES]. *)
Definition BLOCH_PURE_STATES_orbital (name : string) : option QuantumNumbers :=
  if String.eqb name "|0⟩" then Some (1, 0, 0)%Z
  else if String.eqb name "|1⟩" then Some (2, 0, 0)%Z
  else if String.eqb name "|+⟩" then Some (2, 1, 1)%Z
  else if String.eqb name "|-⟩" then Some (2, 1, -1)%Z
  else if String.eqb name "|+i⟩" then Some (2, 1, 0)%Z
  else if String.eqb name "|-i⟩" then Some (2, 1, 0)%Z
  else None.

(* ------------------------------------------------------------------ *)
(** ** hydrogen_wavefunctions.py: sampling one orbital *)

(** [hydrogen_orbital] called on three arrays: one validation, then the
    value at every point. *)
Definition hydrogen_orbital_nd (n l m : Z) (xg yg zg : Array3 R)
  (real_form : bool) : result (Array3 C) :=
  validate_quantum_numbers n l m ;;;
  Ok (elementwise (fun x y z => orbital_value n l m x y z real_form)
                  xg yg zg).

(** [probability_density] on the array [hydrogen_orbital] returns in
    real form: that array is complex when [m = 0] (scipy's harmonic is
    returned as it is) and real otherwise, so [np.iscomplexobj] selects
    [np.abs(psi) ** 2] in the first case and [psi ** 2] in the second. *)
Definition probability_density_nd (m : Z) (psi : Array3 C) : Array3 R :=
  if (m =? 0)%Z then map (map (map (fun p => Cabs p ^ 2))) psi
  else map (map (map (fun p => Creal p ^ 2))) psi.

Module hydrogen_wavefunctions.

Definition calculate_orbital_grid (n l m : Z) (extent : option R)
  (resolution : nat) (real_form : bool)
  : result (Array3 R * Array3 R * Array3 R * Array3 C) :=
  validate_quantum_numbers n l m ;;;
  extent <-
    match extent with
    | None => get_orbital_extent n
    | Some e => Ok e
    end ;;
  let x := linspace (- extent) extent resolution in
  let y := linspace (- extent) extent resolution in
  let z := linspace (- extent) extent resolution in
  let '(x_grid, y_grid, z_grid) := meshgrid_ij x y z in
  psi_grid <- hydrogen_orbital_nd n l m x_grid y_grid z_grid real_form ;;
  Ok (x_grid, y_grid, z_grid, psi_grid).

Definition calculate_density_grid (n l m : Z) (extent : option R)
  (resolution : nat) : result DensityGrid :=
  g <- calculate_orbital_grid n l m extent resolution true ;;
  let '(x_grid, y_grid, z_grid, psi_grid) := g in
  let density_grid := probability_density_nd m psi_grid in
  Ok (x_grid, y_grid, z_grid, density_grid).

End hydrogen_wavefunctions.

(** [find_orbital_maximum]. *)
Definition find_orbital_maximum (n l m : Z) : R :=
  if (l =? 0)%Z then 0 else IZR n ^ 2.

(* ------------------------------------------------------------------ *)
(** ** orbital_coefficients.py, continued *)

Definition get_pure_state_orbital (state_name : string)
  : result QuantumNumbers :=
  match BLOCH_PURE_STATES_orbital state_name with
  | None => Raise UnknownState
  | Some nlm => Ok nlm
  end.

Definition get_pure_state_bloch (state_name : string) : result (R * R) :=
  match BLOCH_PURE_STATES state_name with
  | None => Raise UnknownState
  | Some angles => Ok angles
  end.

Definition apply_gate_to_orbitals (coeffs : OrbitalCoeffs) (gate : GateArg)
  (basis : string) : result OrbitalCoeffs :=
  let '(alpha, beta) :=
    if String.eqb basis "sp" then
      (dict_get coeffs (1, 0, 0)%Z C0, dict_get coeffs (2, 0, 0)%Z C0)
    else if String.eqb basis "pp" then
      let c_px := Creal (dict_get coeffs (2, 1, 1)%Z C0) in
      let c_py := Creal (dict_get coeffs (2, 1, -1)%Z C0) in
      let c_pz := Creal (dict_get coeffs (2, 1, 0)%Z C0) in
      let theta := 2 * acos c_pz in
      let phi := arctan2 c_py c_px in
      (RtoC (cos (theta / 2)),
       Cscale (Cexp (Cscale Ci phi)) (sin (theta / 2)))
    else
      (dict_get coeffs (1, 0, 0)%Z C0, dict_get coeffs (3, 2, 0)%Z C0) in
  let state := (alpha, beta) in
  new_state <- apply_gate_to_state state gate ;;
  if String.eqb basis "pp" then
    let '(new_theta, new_phi) := state_vector_to_bloch new_state in
    bloch_to_orbital_coeffs new_theta new_phi "pp"
  else
    let '(alpha_new, beta_new) := new_state in
    if String.eqb basis "sp" then
      Ok [ ((1, 0, 0)%Z, alpha_new); ((2, 0, 0)%Z, beta_new) ]
    else
      Ok [ ((1, 0, 0)%Z, alpha_new); ((3, 2, 0)%Z, beta_new) ].

(** [np.isclose(a, b)] with its default tolerances. *)
Definition isclose (a b : R) : bool :=
  if Rle_dec (Rabs (a - b)) (1 / 10 ^ 8 + 1 / 10 ^ 5 * Rabs b)
  then true else false.

(** The dict built by [analyze_superposition]. *)
Record Analysis : Type := mkAnalysis {
  an_theta : R;
  an_phi : R;
  an_basis : string;
  an_coefficients : OrbitalCoeffs;
  an_probabilities : list (QuantumNumbers * R);
  an_phases : list (QuantumNumbers * R);
  an_coherence : option C;
  an_normalized : bool
}.

Definition analyze_superposition (theta phi : R) (basis : string)
  : result Analysis :=
  coeffs <- bloch_to_orbital_coeffs theta phi basis ;;
  let probabilities := map (fun '(nlm, coeff) => (nlm, Cabs coeff ^ 2)) coeffs in
  let phases := map (fun '(nlm, coeff) => (nlm, angle coeff)) coeffs in
  let coherence :=
    match coeffs with
    | [ (_, c1); (_, c2) ] => Some (Cmult c1 (Cconj c2))
    | _ => None
    end in
  Ok (mkAnalysis theta phi basis coeffs probabilities phases coherence
                 (isclose (total_prob coeffs) 1)).

(** [orbital_coeffs_to_density] called on a 1-dimensional array of
    points. *)
Definition orbital_coeffs_to_density_1d (coeffs : OrbitalCoeffs)
  (points : list (R * R * R)) : result (list R) :=
  accumulate_nd coeffs None ;;;
  Ok (map (fun '(x, y, z) => Cabs (psi_total_value coeffs x y z) ^ 2) points).

Definition get_interference_pattern (theta phi : R) (axis : string)
  (extent : R) (resolution : nat) (basis : string)
  : result (list R * list R) :=
  coeffs <- bloch_to_orbital_coeffs theta phi basis ;;
  let positions := linspace (- extent) extent resolution in
  points <-
    (if String.eqb axis "x" then
       Ok (map (fun p => (p, 0, 0)) positions)
     else if String.eqb axis "y" then
       Ok (map (fun p => (0, p, 0)) positions)
     else if String.eqb axis "z" then
       Ok (map (fun p => (0, 0, p)) positions)
     else Raise UnknownAxis) ;;
  density <- orbital_coeffs_to_density_1d coeffs points ;;
  Ok (positions, density).

Definition create_bell_state (which : string) : result OrbitalCoeffs :=
  let inv_sqrt2 := 1 / sqrt 2 in
  if String.eqb which "phi_plus" then
    Ok [ ((1, 0, 0)%Z, RtoC inv_sqrt2); ((2, 0, 0)%Z, RtoC inv_sqrt2) ]
  else if String.eqb which "phi_minus" then
    Ok [ ((1, 0, 0)%Z, RtoC inv_sqrt2); ((2, 0, 0)%Z, RtoC (- inv_sqrt2)) ]
  else if String.eqb which "psi_plus" then
    Ok [ ((1, 0, 0)%Z, RtoC inv_sqrt2);
         ((2, 0, 0)%Z, Cscale Ci inv_sqrt2) ]
  else if String.eqb which "psi_minus" then
    Ok [ ((1, 0, 0)%Z, RtoC inv_sqrt2);
         ((2, 0, 0)%Z, Cscale (Copp Ci) inv_sqrt2) ]
  else Raise UnknownBellState.

(* ------------------------------------------------------------------ *)
(** ** bloch_orbital_mapper.py, continued *)

(** The loop of [get_dominant_orbital]: the state is
    [(max_coeff, dominant)]. *)
Definition dominant_step (st : R * option (QuantumNumbers * C))
  (item : QuantumNumbers * C) : R * option (QuantumNumbers * C) :=
  let '(max_coeff, dominant) := st in
  let '(nlm, coeff) := item in
  let mag := Cabs coeff in
  if Rlt_dec max_coeff mag then (mag, Some (nlm, coeff))
  else (max_coeff, dominant).

Definition get_dominant_orbital (self : BlochOrbitalState)
  : option (QuantumNumbers * C) :=
  snd (fold_left dominant_step (_orbital_coeffs self) (0, None)).

Definition Array2 (A : Type) : Type := list (list A).

(** [np.meshgrid(coord, coord, indexing='ij')]. *)
Definition meshgrid2_ij (a b : list R) : Array2 R * Array2 R :=
  (map (fun ai => map (fun bj => ai) b) a,
   map (fun ai => map (fun bj => bj) b) a).

Definition elementwise2 {A : Type} (f : R -> R -> A) (c1 c2 : Array2 R)
  : Array2 A :=
  map (fun '(p, q) => map (fun '(u, v) => f u v) (combine p q))
      (combine c1 c2).

Definition calculate_slice (plane : string) (position : R)
  (resolution : option nat) (extent : option R) (self : BlochOrbitalState)
  : result (Array2 R * Array2 R * Array2 R) :=
  let resolution :=
    match resolution with
    | None => DEFAULT_GRID_RESOLUTION
    | Some k => k
    end in
  extent <-
    match extent with
    | None =>
        max_n <- max_principal (_orbital_coeffs self) ;;
        get_orbital_extent max_n
    | Some e => Ok e
    end ;;
  let coord := linspace (- extent) extent resolution in
  let '(c1, c2) := meshgrid2_ij coord coord in
  let density_at (x y z : R) :=
    Cabs (psi_total_value (_orbital_coeffs self) x y z) ^ 2 in
  point_density <-
    (if String.eqb plane "xy" then
       Ok (fun u v => density_at u v position)
     else if String.eqb plane "xz" then
       Ok (fun u v => density_at u position v)
     else if String.eqb plane "yz" then
       Ok (fun u v => density_at position u v)
     else Raise UnknownPlane) ;;
  accumulate_nd (_orbital_coeffs self) None ;;;
  Ok (c1, c2, elementwise2 point_density c1 c2).






Definition GENERIC_LABEL : string := "α|0⟩ + β|1⟩".

Definition _get_state_label (self : BlochOrbitalState) : string :=
  let '(alpha, beta) := _state_vector self in
  if Rlt_dec 0.99 (Cabs alpha) then "|0⟩"%string
  else if Rlt_dec 0.99 (Cabs beta) then "|1⟩"%string
  else if Rlt_dec (Rabs (Cabs alpha - Cabs beta)) 0.01 then
    let phase := angle beta - angle alpha in
    if Rlt_dec (Rabs phase) 0.1 then "|+⟩"%string
    else if Rlt_dec (Rabs (phase - PI)) 0.1 then "|-⟩"%string
    else if Rlt_dec (Rabs (phase - PI / 2)) 0.1 then "|+i⟩"%string
    else if Rlt_dec (Rabs (phase + PI / 2)) 0.1 then "|-i⟩"%string
    else GENERIC_LABEL
  else GENERIC_LABEL.

(** [create_state(state_name, basis)]. *)
Definition create_state (state_name basis : string)
  : result BlochOrbitalState :=
  state <- new_BlochOrbitalState 0 0 basis ;;
  match set_pure_state state_name state with
  | (Ok _, state') => Ok state'
  | (Raise e, _) => Raise e
  end.

Definition create_bloch_state (theta phi : R) (basis : string)
  : result BlochOrbitalState :=
  new_BlochOrbitalState theta phi basis.

(* ------------------------------------------------------------------ *)
(** ** Notions used to state the properties *)

(** Squared norm of a 2-vector. *)
Definition norm_sq (v : Vector2) : R := Cabs (fst v) ^ 2 + Cabs (snd v) ^ 2.

(** The gate names of the table [QUANTUM_GATES]. *)
Definition named_gate (name : string) : Prop :=
  In name ["X"; "Y"; "Z"; "H"; "S"; "T"; "I"]%string.

(** A 2x2 matrix with orthonormal columns. *)
Definition unitary (g : Matrix2) : Prop :=
  let '((a, b), (c, d)) := g in
  Cabs a ^ 2 + Cabs c ^ 2 = 1
  /\ Cabs b ^ 2 + Cabs d ^ 2 = 1
  /\ Cplus (Cmult (Cconj a) b) (Cmult (Cconj c) d) = C0.

(** Shape of a 3-dimensional array: [k] planes of [k] rows of [k]
    entries. *)
Definition cubic {A : Type} (k : nat) (a : Array3 A) : Prop :=
  length a = k
  /\ Forall (fun plane => length plane = k
                          /\ Forall (fun row => length row = k) plane) a.

(** An item of maximal modulus, the first one among equals. *)
Definition first_maximal (coeffs : OrbitalCoeffs)
  (item : QuantumNumbers * C) : Prop :=
  exists before after,
    coeffs = before ++ item :: after
    /\ Forall (fun it => Cabs (snd it) < Cabs (snd item)) before
    /\ Forall (fun it => Cabs (snd it) <= Cabs (snd item)) after.

(** The array [d] holds, at every point of the cubic lattice of [axis],
    the value that [f] returns at that point. *)
Definition samples (f : R -> R -> R -> result R) (axis : list R)
  (d : Array3 R) : Prop :=
  exists v : R -> R -> R -> R,
    d = map (fun x => map (fun y => map (fun z => v x y z) axis) axis) axis
    /\ forall x y z,
         In x axis -> In y axis -> In z axis -> f x y z = Ok (v x y z).

(** The extent [e] that a sampling method works with: the one given, or
    the one of the largest principal quantum number among the keys. *)
Definition extent_used (coeffs : OrbitalCoeffs) (extent : option R) (e : R)
  : Prop :=
  match extent with
  | Some e' => e = e'
  | None =>
      exists max_n,
        max_principal coeffs = Ok max_n /\ get_orbital_extent max_n = Ok e
  end.

(** A gate name that [apply_gate_to_state] reads as a rotation. *)
Definition rotation_name (name : string) : bool :=
  (String.prefix "RX(" name || String.prefix "RY(" name
   || String.prefix "RZ(" name)%bool.

(* ================================================================== *)
(** * Properties *)

(* ------------------------------------------------------------------ *)
(** ** Arithmetic of the numeric model *)

Lemma sqrt2_sqr : sqrt 2 * sqrt 2 = 2.
Proof. apply sqrt_sqrt; lra. Qed.

Lemma sqrt2_pos : 0 < sqrt 2.
Proof. apply sqrt_lt_R0; lra. Qed.

Lemma Cabs_sqr (a : C) : Cabs a ^ 2 = fst a * fst a + snd a * snd a.
Proof.
  unfold Cabs. apply pow2_sqrt. nra.
Qed.

Lemma Cabs_real (x : R) : Cabs (x, 0) = Rabs x.
Proof.
  unfold Cabs; simpl.
  replace (x * x + 0 * 0) with (Rsqr x) by (unfold Rsqr; ring).
  apply sqrt_Rsqr_abs.
Qed.

Lemma Cabs_nonneg (a : C) : 0 <= Cabs a.
Proof. unfold Cabs. apply sqrt_pos. Qed.

Lemma Cdiv_real_1 (a : C) : Cdiv_real a 1 = a.
Proof.
  destruct a as [x y]. unfold Cdiv_real; simpl. f_equal; field.
Qed.

(** An exact value is within any tolerance [10^-k] of itself. *)
Lemma tolerance_refl (x : R) (k : nat) : Rabs (x - x) <= 1 / 10 ^ k.
Proof.
  replace (x - x) with 0 by ring. rewrite Rabs_R0.
  apply Rlt_le, Rdiv_lt_0_compat; [lra | apply pow_lt; lra].
Qed.

Lemma sin2_cos2_half (t : R) : cos t * cos t + sin t * sin t = 1.
Proof.
  pose proof (sin2_cos2 t) as H. unfold Rsqr in H. lra.
Qed.

(** Components of the state vector, with [e^(i phi)] written out. *)
Lemma bloch_to_state_vector_components (theta phi : R) :
  bloch_to_state_vector theta phi =
  ((cos (theta / 2), 0),
   (cos phi * sin (theta / 2), sin phi * sin (theta / 2))).
Proof.
  unfold bloch_to_state_vector, RtoC, Cscale, Cexp, Ci; simpl.
  rewrite Rmult_0_l, exp_0, Rmult_1_l. repeat rewrite Rmult_1_l.
  reflexivity.
Qed.

Lemma bloch_to_state_vector_unit (theta phi : R) :
  Cabs (fst (bloch_to_state_vector theta phi)) ^ 2
  + Cabs (snd (bloch_to_state_vector theta phi)) ^ 2 = 1.
Proof.
  rewrite bloch_to_state_vector_components; simpl fst; simpl snd.
  rewrite !Cabs_sqr; simpl fst; simpl snd.
  pose proof (sin2_cos2_half (theta / 2)) as H1.
  pose proof (sin2_cos2_half phi) as H2.
  nra.
Qed.

(* ------------------------------------------------------------------ *)
(** ** The state vector of a Bloch point *)

Lemma half_from_sqrt2 : (1 / sqrt 2) ^ 2 = 1 / 2.
Proof.
  replace ((1 / sqrt 2) ^ 2) with (/ (sqrt 2 * sqrt 2)).
  - rewrite sqrt2_sqr. lra.
  - pose proof sqrt2_pos. field. lra.
Qed.

(** The state [|+>]: both moduli are [1/sqrt 2]. *)
Lemma Cabs_plus_state :
  Cabs (fst (bloch_to_state_vector (PI / 2) 0)) = 1 / sqrt 2
  /\ Cabs (snd (bloch_to_state_vector (PI / 2) 0)) = 1 / sqrt 2.
Proof.
  assert (Hpos : 0 < 1 / sqrt 2).
  { apply Rdiv_lt_0_compat; [lra | apply sqrt2_pos]. }
  rewrite bloch_to_state_vector_components; cbn [fst snd].
  replace (PI / 2 / 2) with (PI / 4) by field.
  rewrite cos_PI4, sin_PI4, cos_0, sin_0, Rmult_1_l, Rmult_0_l.
  rewrite Cabs_real. split; apply Rabs_pos_eq; lra.
Qed.

(** C7.  For every [theta] and [phi], [bloch_to_state_vector theta phi]
    is the pair [(cos(theta/2), e^(i phi) sin(theta/2))], written here by
    real and imaginary parts, and it has norm 1.  At [(pi/2, 0)] both
    moduli are [1/sqrt 2], hence within [1e-10] of it. *)
Theorem bloch_to_state_vector_spec :
  (forall theta phi : R,
      bloch_to_state_vector theta phi =
      ((cos (theta / 2), 0),
       (cos phi * sin (theta / 2), sin phi * sin (theta / 2)))
      /\ sqrt (Cabs (fst (bloch_to_state_vector theta phi)) ^ 2
               + Cabs (snd (bloch_to_state_vector theta phi)) ^ 2) = 1)
  /\ Cabs (fst (bloch_to_state_vector (PI / 2) 0)) = 1 / sqrt 2
  /\ Cabs (snd (bloch_to_state_vector (PI / 2) 0)) = 1 / sqrt 2
  /\ Rabs (Cabs (fst (bloch_to_state_vector (PI / 2) 0)) - 1 / sqrt 2)
     <= 1 / 10 ^ 10
  /\ Rabs (Cabs (snd (bloch_to_state_vector (PI / 2) 0)) - 1 / sqrt 2)
     <= 1 / 10 ^ 10.
Proof.
  destruct Cabs_plus_state as [Ha Hb].
  split; [| split; [exact Ha | split; [exact Hb | split]]].
  - intros theta phi. split.
    + apply bloch_to_state_vector_components.
    + rewrite bloch_to_state_vector_unit. apply sqrt_1.
  - rewrite Ha. apply tolerance_refl.
  - rewrite Hb. apply tolerance_refl.
Qed.

(* ------------------------------------------------------------------ *)
(** ** The orbital mixture of a Bloch point *)

Lemma supported_basis_dec (basis : string) :
  {supported_basis basis} + {~ supported_basis basis}.
Proof. apply in_dec, string_dec. Qed.

(** The three successful branches and the failing one. *)
Lemma bloch_to_orbital_coeffs_sp (theta phi : R) :
  bloch_to_orbital_coeffs theta phi "sp" =
  Ok [ ((1, 0, 0)%Z, fst (bloch_to_state_vector theta phi));
       ((2, 0, 0)%Z, snd (bloch_to_state_vector theta phi)) ].
Proof. reflexivity. Qed.

Lemma bloch_to_orbital_coeffs_pp (theta phi : R) :
  bloch_to_orbital_coeffs theta phi "pp" =
  Ok [ ((2, 1, 1)%Z, RtoC (sin (theta / 2) * cos phi));
       ((2, 1, -1)%Z, RtoC (sin (theta / 2) * sin phi));
       ((2, 1, 0)%Z, RtoC (cos (theta / 2))) ].
Proof. reflexivity. Qed.

Lemma bloch_to_orbital_coeffs_sd (theta phi : R) :
  bloch_to_orbital_coeffs theta phi "sd" =
  Ok [ ((1, 0, 0)%Z, fst (bloch_to_state_vector theta phi));
       ((3, 2, 0)%Z, snd (bloch_to_state_vector theta phi)) ].
Proof. reflexivity. Qed.

Lemma bloch_to_orbital_coeffs_other (theta phi : R) (basis : string) :
  ~ supported_basis basis ->
  bloch_to_orbital_coeffs theta phi basis = Raise UnknownBasis.
Proof.
  intros Hn. unfold bloch_to_orbital_coeffs.
  destruct (bloch_to_state_vector theta phi) as [alpha beta].
  destruct (String.eqb_spec basis "sp") as [E | _].
  { exfalso. apply Hn. subst. left. reflexivity. }
  destruct (String.eqb_spec basis "pp") as [E | _].
  { exfalso. apply Hn. subst. right. left. reflexivity. }
  destruct (String.eqb_spec basis "sd") as [E | _].
  { exfalso. apply Hn. subst. right. right. left. reflexivity. }
  reflexivity.
Qed.

Lemma bloch_to_orbital_coeffs_returns (theta phi : R) (basis : string) :
  supported_basis basis -> returns (bloch_to_orbital_coeffs theta phi basis).
Proof.
  intros [E | [E | [E | []]]]; subst basis; eexists.
  - apply bloch_to_orbital_coeffs_sp.
  - apply bloch_to_orbital_coeffs_pp.
  - apply bloch_to_orbital_coeffs_sd.
Qed.

Lemma raises_not_returns {A : Type} (r : result A) : raises r -> ~ returns r.
Proof. intros [e He] [a Ha]. congruence. Qed.

(** C9.  [bloch_to_orbital_coeffs theta phi basis] raises exactly when
    [basis] is none of [sp], [pp], [sd], and returns exactly when it is
    one of them, whatever [theta] and [phi] are. *)
Theorem bloch_to_orbital_coeffs_raises_iff (theta phi : R) (basis : string) :
  (raises (bloch_to_orbital_coeffs theta phi basis)
   <-> ~ supported_basis basis)
  /\ (returns (bloch_to_orbital_coeffs theta phi basis)
      <-> supported_basis basis).
Proof.
  split; split.
  - intros Hr Hs.
    apply (raises_not_returns _ Hr).
    apply bloch_to_orbital_coeffs_returns, Hs.
  - intros Hn. exists UnknownBasis.
    apply bloch_to_orbital_coeffs_other, Hn.
  - intros Hr. destruct (supported_basis_dec basis) as [Hs | Hn]; [exact Hs |].
    exfalso. apply (raises_not_returns (bloch_to_orbital_coeffs theta phi basis)).
    + exists UnknownBasis. apply bloch_to_orbital_coeffs_other, Hn.
    + exact Hr.
  - apply bloch_to_orbital_coeffs_returns.
Qed.

(** C6.  For a supported basis the mixture returned for any [theta],
    [phi] has total probability [sum |c_i|^2 = 1]; in basis [sp] at
    [(pi/2, 0)] the two orbitals 1s and 2s have probability [1/2] each,
    hence within [1e-10] of it. *)
Theorem bloch_to_orbital_coeffs_normalized :
  (forall (theta phi : R) (basis : string),
      supported_basis basis ->
      exists coeffs,
        bloch_to_orbital_coeffs theta phi basis = Ok coeffs
        /\ total_prob coeffs = 1)
  /\ (exists coeffs,
        bloch_to_orbital_coeffs (PI / 2) 0 "sp" = Ok coeffs
        /\ map fst coeffs = [(1, 0, 0)%Z; (2, 0, 0)%Z]
        /\ Cabs (dict_get coeffs (1, 0, 0)%Z C0) ^ 2 = 1 / 2
        /\ Cabs (dict_get coeffs (2, 0, 0)%Z C0) ^ 2 = 1 / 2
        /\ Rabs (Cabs (dict_get coeffs (1, 0, 0)%Z C0) ^ 2 - 1 / 2)
           <= 1 / 10 ^ 10
        /\ Rabs (Cabs (dict_get coeffs (2, 0, 0)%Z C0) ^ 2 - 1 / 2)
           <= 1 / 10 ^ 10).
Proof.
  split.
  - intros theta phi basis [E | [E | [E | []]]]; subst basis; eexists.
    + split; [apply bloch_to_orbital_coeffs_sp |].
      unfold total_prob; cbn [fold_left].
      pose proof (bloch_to_state_vector_unit theta phi). lra.
    + split; [apply bloch_to_orbital_coeffs_pp |].
      unfold total_prob; cbn [fold_left].
      rewrite !Cabs_sqr. unfold RtoC; simpl fst; simpl snd.
      pose proof (sin2_cos2_half (theta / 2)).
      pose proof (sin2_cos2_half phi). nra.
    + split; [apply bloch_to_orbital_coeffs_sd |].
      unfold total_prob; cbn [fold_left].
      pose proof (bloch_to_state_vector_unit theta phi). lra.
  - destruct Cabs_plus_state as [Ha Hb].
    pose proof half_from_sqrt2 as Hh.
    pose proof (tolerance_refl (1 / 2) 10) as Htol.
    eexists. split; [apply bloch_to_orbital_coeffs_sp |].
    split; [reflexivity |].
    cbn [dict_get qn_eqb Z.eqb Pos.eqb andb].
    rewrite Ha, Hb, Hh. repeat split; auto.
Qed.

(** Witness for C6: basis [sp] at the north pole. *)
Lemma bloch_to_orbital_coeffs_normalized_witness :
  exists coeffs,
    bloch_to_orbital_coeffs 0 0 "sp" = Ok coeffs /\ total_prob coeffs = 1.
Proof.
  apply (proj1 bloch_to_orbital_coeffs_normalized 0 0 "sp"%string).
  left. reflexivity.
Defined.

(* ------------------------------------------------------------------ *)
(** ** Coherent superposition *)

Lemma Cplus_assoc (a b c : C) : Cplus (Cplus a b) c = Cplus a (Cplus b c).
Proof. unfold Cplus; simpl. f_equal; ring. Qed.

Lemma Cplus_0_l (a : C) : Cplus (RtoC 0) a = a.
Proof. destruct a. unfold Cplus, RtoC; simpl. f_equal; ring. Qed.

Lemma Cplus_0_r (a : C) : Cplus a C0 = a.
Proof. destruct a. unfold Cplus, C0; simpl. f_equal; ring. Qed.

(** The loop with accumulator [acc] adds the coherent sum to [acc]. *)
Lemma accumulate_psi_amplitude_sum (coeffs : OrbitalCoeffs) (x y z : R) :
  forall acc : C,
    accumulate_psi coeffs x y z acc =
    (s <- amplitude_sum coeffs x y z ;; Ok (Cplus acc s)).
Proof.
  induction coeffs as [| [[[n l] m] c] rest IH]; intros acc.
  - simpl. now rewrite Cplus_0_r.
  - cbn [accumulate_psi amplitude_sum].
    destruct (hydrogen_orbital n l m x y z true) as [psi | e]; cbn [bind].
    + rewrite IH.
      destruct (amplitude_sum rest x y z) as [s | e]; cbn [bind].
      * now rewrite Cplus_assoc.
      * reflexivity.
    + reflexivity.
Qed.

(** C2.  For every mixture and every point,
    [orbital_coeffs_to_density] is the squared modulus of the coherent
    sum of the amplitudes [c_i * psi_i], each [psi_i] evaluated by
    [hydrogen_orbital] in real form (and it raises when some [psi_i]
    does). *)
Theorem orbital_coeffs_to_density_coherent
  (coeffs : OrbitalCoeffs) (x y z : R) :
  orbital_coeffs_to_density coeffs x y z =
  (psi_total <- amplitude_sum coeffs x y z ;; Ok (Cabs psi_total ^ 2)).
Proof.
  unfold orbital_coeffs_to_density.
  rewrite accumulate_psi_amplitude_sum.
  destruct (amplitude_sum coeffs x y z) as [s | e]; cbn [bind].
  - now rewrite Cplus_0_l.
  - reflexivity.
Qed.

(* ------------------------------------------------------------------ *)
(** ** The orbitals at the nucleus *)

Lemma validate_quantum_numbers_ok (n l m : Z) :
  valid_qn n l m -> validate_quantum_numbers n l m = Ok true.
Proof.
  intros (Hn & Hl & Hm). unfold validate_quantum_numbers,
    MAX_PRINCIPAL_QUANTUM_NUMBER.
  destruct (Z.ltb_spec n 1); [lia |].
  destruct (Z.ltb_spec l 0); [lia |].
  destruct (Z.leb_spec n l); [lia |]. cbn [orb].
  destruct (Z.ltb_spec l (Z.abs m)); [lia |].
  destruct (Z.ltb_spec 7 n); [lia |].
  reflexivity.
Qed.

Lemma validate_quantum_numbers_valid (n l m : Z) (b : bool) :
  validate_quantum_numbers n l m = Ok b -> valid_qn n l m.
Proof.
  unfold validate_quantum_numbers, MAX_PRINCIPAL_QUANTUM_NUMBER, valid_qn.
  destruct (Z.ltb_spec n 1); [discriminate |].
  destruct (Z.ltb_spec l 0); [discriminate |].
  destruct (Z.leb_spec n l); [discriminate |]. cbn [orb].
  destruct (Z.ltb_spec l (Z.abs m)); [discriminate |].
  destruct (Z.ltb_spec 7 n); [discriminate |].
  intros _. lia.
Qed.

Lemma valid_qn_m0 (n l m : Z) : valid_qn n l m -> valid_qn n l 0.
Proof. unfold valid_qn. lia. Qed.

(** [hydrogen_orbital] is its validation followed by [orbital_value]. *)
Lemma hydrogen_orbital_value (n l m : Z) (x y z : R) (real_form : bool) :
  hydrogen_orbital n l m x y z real_form =
  (validate_quantum_numbers n l m ;;;
   Ok (orbital_value n l m x y z real_form)).
Proof.
  unfold hydrogen_orbital, orbital_value, radial_wavefunction.
  destruct (validate_quantum_numbers n l m) as [b | e] eqn:Hv; cbn [bind];
    [| reflexivity].
  apply validate_quantum_numbers_valid, valid_qn_m0 in Hv.
  destruct (cartesian_to_spherical x y z) as [[r theta] phi].
  rewrite (validate_quantum_numbers_ok _ _ _ Hv). reflexivity.
Qed.

(** The scalar density is the validation of the keys followed by the
    pointwise value: this is what the array version evaluates at each
    lattice point. *)
Lemma accumulate_psi_value (items : OrbitalCoeffs) (x y z : R) :
  forall acc : C,
    accumulate_psi items x y z acc =
    (check_keys items ;;;
     Ok (fold_left
           (fun psi_total '((n, l, m), coeff) =>
              Cplus psi_total (Cmult coeff (orbital_value n l m x y z true)))
           items acc)).
Proof.
  induction items as [| [[[n l] m] c] rest IH]; intros acc.
  - reflexivity.
  - cbn [accumulate_psi check_keys fold_left].
    rewrite hydrogen_orbital_value.
    destruct (validate_quantum_numbers n l m) as [b | e]; cbn [bind].
    + apply IH.
    + reflexivity.
Qed.

Lemma orbital_coeffs_to_density_value (coeffs : OrbitalCoeffs) (x y z : R) :
  orbital_coeffs_to_density coeffs x y z =
  (check_keys coeffs ;;; Ok (Cabs (psi_total_value coeffs x y z) ^ 2)).
Proof.
  unfold orbital_coeffs_to_density, psi_total_value.
  rewrite accumulate_psi_value.
  destruct (check_keys coeffs); reflexivity.
Qed.

Lemma cartesian_to_spherical_origin :
  cartesian_to_spherical 0 0 0 = (0, PI / 2, 0).
Proof.
  unfold cartesian_to_spherical.
  replace (0 ^ 2 + 0 ^ 2 + 0 ^ 2) with 0 by ring.
  rewrite sqrt_0.
  assert (Hc : clip (0 / Rmax 0 (1 / 10 ^ 10)) (-1) 1 = 0).
  { unfold clip, Rdiv at 1. rewrite Rmult_0_l.
    rewrite Rmax_left by lra. apply Rmin_left. lra. }
  rewrite Hc, acos_0.
  assert (Ha : arctan2 0 0 = 0).
  { unfold arctan2.
    destruct (Rlt_dec 0 0); [lra |]. reflexivity. }
  rewrite Ha. destruct (Rlt_dec 0 0); [lra |]. reflexivity.
Qed.

(** At the nucleus the orbital is [Y * 0] for [l > 0] and
    [Y * norm_factor] for [l = 0]. *)
Lemma orbital_value_origin (n l m : Z) (real_form : bool) :
  orbital_value n l m 0 0 0 real_form =
  Cscale (spherical_harmonic l m (PI / 2) 0 real_form)
         (if (0 <? l)%Z then 0 else norm_factor n l).
Proof.
  unfold orbital_value. rewrite cartesian_to_spherical_origin.
  destruct (Rlt_dec 0 0); [lra |]. reflexivity.
Qed.

Lemma sph_harm_00 (phi theta : R) :
  sph_harm 0 0 phi theta = RtoC (sqrt (1 / (4 * PI))).
Proof.
  unfold sph_harm, sph_harm_nonneg, Cscale, Cexp, RtoC. simpl.
  rewrite Rmult_0_l, exp_0, cos_0, sin_0.
  replace ((2 * 0 + 1) / (4 * PI) * (1 / 1)) with (1 / (4 * PI))
    by (field; apply PI_neq0).
  f_equal; ring.
Qed.

Lemma radial_wavefunction_origin (n l : Z) :
  valid_qn n l 0 ->
  radial_wavefunction n l 0 =
  Ok (if (0 <? l)%Z then 0 else norm_factor n l).
Proof.
  intros Hv. unfold radial_wavefunction.
  rewrite (validate_quantum_numbers_ok _ _ _ Hv). cbn [bind].
  destruct (Rlt_dec 0 0); [lra |]. reflexivity.
Qed.

Lemma norm_factor_1_0 : norm_factor 1 0 = 2.
Proof.
  unfold norm_factor, factorial. simpl.
  replace (2 / 1 * (2 / 1 * (2 / 1 * 1)) * 1 / (2 * 1 * 1)) with (2 * 2)
    by field.
  apply sqrt_square. lra.
Qed.

(** The table agrees with [norm_factor] for 1s and differs from it for
    3s. *)
Remark radial_table_vs_norm_factor :
  RADIAL_NORMALIZATION 1 0 = Some (norm_factor 1 0)
  /\ RADIAL_NORMALIZATION 3 0 = Some (2 / (27 * sqrt 3))
  /\ norm_factor 3 0 <> 2 / (27 * sqrt 3).
Proof.
  split; [now rewrite norm_factor_1_0 |]. split; [reflexivity |].
  assert (H3 : sqrt 3 * sqrt 3 = 3) by (apply sqrt_sqrt; lra).
  assert (H3p : 0 < sqrt 3) by (apply sqrt_lt_R0; lra).
  intros Heq.
  assert (Hsq : norm_factor 3 0 * norm_factor 3 0 = 4 / 243).
  { unfold norm_factor, factorial. simpl. rewrite sqrt_sqrt; lra. }
  rewrite Heq in Hsq.
  assert (Hr : 2 / (27 * sqrt 3) * (2 / (27 * sqrt 3))
               = 4 / (729 * (sqrt 3 * sqrt 3))) by (field; lra).
  rewrite Hr, H3 in Hsq. lra.
Qed.

Lemma hydrogen_orbital_origin_lpos (n l m : Z) (real_form : bool) :
  valid_qn n l m -> (0 < l)%Z ->
  hydrogen_orbital n l m 0 0 0 real_form = Ok C0.
Proof.
  intros Hv Hl. rewrite hydrogen_orbital_value.
  rewrite (validate_quantum_numbers_ok _ _ _ Hv). cbn [bind].
  rewrite orbital_value_origin.
  destruct (Z.ltb_spec 0 l); [| lia].
  unfold Cscale, C0. now rewrite !Rmult_0_r.
Qed.

Lemma hydrogen_orbital_origin_l0 (n : Z) (real_form : bool) :
  valid_qn n 0 0 ->
  hydrogen_orbital n 0 0 0 0 0 real_form =
  Ok (RtoC (norm_factor n 0 * sqrt (1 / (4 * PI)))).
Proof.
  intros Hv0. rewrite hydrogen_orbital_value.
  rewrite (validate_quantum_numbers_ok _ _ _ Hv0). cbn [bind].
  rewrite orbital_value_origin. cbn [Z.ltb Z.compare].
  unfold spherical_harmonic. cbn [Z.eqb negb andb].
  rewrite Bool.andb_false_r, sph_harm_00.
  unfold Cscale, RtoC; simpl fst; simpl snd.
  f_equal. f_equal; ring.
Qed.

(** C3, as amended.  For every valid [(n, l, m)] with [l > 0] the
    orbital vanishes at the nucleus.  For [l = 0] the radial function at
    [r = 0] is the normalization factor [norm_factor n 0] computed by
    [radial_wavefunction], and the orbital is that factor multiplied by
    the constant harmonic [Y_0^0 = sqrt(1/(4 pi))]. *)
Theorem hydrogen_orbital_at_origin (n l m : Z) (real_form : bool) :
  valid_qn n l m ->
  ((0 < l)%Z -> hydrogen_orbital n l m 0 0 0 real_form = Ok C0)
  /\ (l = 0%Z ->
      radial_wavefunction n 0 0 = Ok (norm_factor n 0)
      /\ hydrogen_orbital n 0 0 0 0 0 real_form =
         Ok (RtoC (norm_factor n 0 * sqrt (1 / (4 * PI))))).
Proof.
  intros Hv. split.
  - intros Hl. now apply hydrogen_orbital_origin_lpos.
  - intros ->.
    assert (Hv0 : valid_qn n 0 0) by (unfold valid_qn in *; lia).
    split.
    + now rewrite (radial_wavefunction_origin _ _ Hv0).
    + now apply hydrogen_orbital_origin_l0.
Qed.

(** Witness for C3: the 2p_z orbital. *)
Lemma hydrogen_orbital_at_origin_witness :
  hydrogen_orbital 2 1 0 0 0 0 true = Ok C0.
Proof.
  apply (hydrogen_orbital_at_origin 2 1 0 true).
  - unfold valid_qn. simpl. lia.
  - lia.
Defined.

(** C3 as first stated fails for the ground state: the table
    [RADIAL_NORMALIZATION] holds 2 for 1s, while the orbital at the
    nucleus is [2 * sqrt(1/(4 pi))]. *)
Lemma hydrogen_orbital_origin_not_table :
  RADIAL_NORMALIZATION 1 0 = Some 2
  /\ hydrogen_orbital 1 0 0 0 0 0 true <> Ok (RtoC 2).
Proof.
  split; [reflexivity |].
  assert (Hv : valid_qn 1 0 0) by (unfold valid_qn; simpl; lia).
  rewrite (hydrogen_orbital_origin_l0 1 true Hv), norm_factor_1_0.
  intros Heq. injection Heq as Heq.
  assert (Hs : sqrt (1 / (4 * PI)) = 1) by lra.
  assert (Hp : 0 <= 1 / (4 * PI)).
  { apply Rlt_le, Rdiv_lt_0_compat; [lra |]. pose proof PI_RGT_0. lra. }
  pose proof (sqrt_sqrt _ Hp) as Hq. rewrite Hs in Hq.
  pose proof PI2_1 as Hpi.
  assert (H4 : 4 * PI * (1 / (4 * PI)) = 1).
  { field. apply PI_neq0. }
  rewrite <- Hq in H4. lra.
Qed.

(* ------------------------------------------------------------------ *)
(** ** Angles: [%], [arctan2] and [arccos] *)

Lemma Rmod_range (x y : R) : 0 < y -> 0 <= Rmod x y < y.
Proof.
  intros Hy. unfold Rmod.
  destruct (base_Int_part (x / y)) as [H1 H2].
  set (k := IZR (Int_part (x / y))) in *.
  assert (Hx : x = x / y * y) by (field; lra).
  split.
  - apply Rmult_le_compat_r with (r := y) in H1; [| lra]. lra.
  - assert (H3 : x / y - k < 1) by lra.
    apply Rmult_lt_compat_r with (r := y) in H3; [| lra]. lra.
Qed.

Lemma Rmod_shift (x y : R) (k : Z) :
  0 < y -> 0 <= x - IZR k * y < y -> Rmod x y = x - IZR k * y.
Proof.
  intros Hy [H1 H2]. unfold Rmod.
  assert (Hk : k = Int_part (x / y)).
  { apply Int_part_spec.
    assert (Hx : x / y - IZR k = (x - IZR k * y) / y) by (field; lra).
    assert (H3 : 0 <= (x - IZR k * y) / y).
    { apply Rmult_le_pos; [lra |]. apply Rlt_le, Rinv_0_lt_compat, Hy. }
    assert (H4 : (x - IZR k * y) / y < 1).
    { apply Rmult_lt_reg_r with (r := y); [lra |].
      replace ((x - IZR k * y) / y * y) with (x - IZR k * y) by (field; lra).
      lra. }
    lra. }
  now rewrite <- Hk.
Qed.

Lemma Rmod_small (x y : R) : 0 <= x < y -> Rmod x y = x.
Proof.
  intros H. rewrite (Rmod_shift x y 0); [ring | lra | lra].
Qed.

Lemma Rmod_wrap (x y : R) : - y <= x < 0 -> Rmod x y = x + y.
Proof.
  intros H. rewrite (Rmod_shift x y (-1)); [ring | lra | lra].
Qed.

Lemma arctan2_0_nonneg (x : R) : 0 <= x -> arctan2 0 x = 0.
Proof.
  intros Hx. unfold arctan2.
  destruct (Rlt_dec 0 x).
  - unfold Rdiv. rewrite Rmult_0_l. apply atan_0.
  - destruct (Rlt_dec x 0); [lra |].
    destruct (Rlt_dec 0 0); [lra |]. reflexivity.
Qed.

Lemma sin_shift_2PI (x : R) : sin (x - 2 * PI) = sin x.
Proof.
  rewrite <- (sin_period (x - 2 * PI) 1). f_equal. simpl. ring.
Qed.

Lemma cos_shift_2PI (x : R) : cos (x - 2 * PI) = cos x.
Proof.
  rewrite <- (cos_period (x - 2 * PI) 1). f_equal. simpl. ring.
Qed.

Section PolarPoint.

(** A point at distance [s > 0] from the origin. *)
Variable s : R.
Hypothesis s_pos : 0 < s.

Lemma tan_polar (u : R) :
  cos u <> 0 -> s * sin u / (s * cos u) = tan u.
Proof. intros Hc. unfold tan. field. split; lra. Qed.

(** [arctan2] recovers the argument of a point given in polar form. *)
Lemma arctan2_polar (t : R) :
  - PI < t <= PI -> arctan2 (s * sin t) (s * cos t) = t.
Proof.
  intros [Hlo Hhi]. pose proof PI_RGT_0 as Hpi. pose proof s_pos as Hs.
  unfold arctan2.
  destruct (Rlt_dec 0 (s * cos t)) as [Hx | Hx].
  - (* right half plane *)
    assert (Hc : 0 < cos t) by nra.
    assert (H1 : - (PI / 2) < t).
    { destruct (Rlt_dec (- (PI / 2)) t); [assumption | exfalso].
      assert (Hc' : cos (- t) <= 0) by (apply cos_le_0; lra).
      rewrite cos_neg in Hc'. lra. }
    assert (H2 : t < PI / 2).
    { destruct (Rlt_dec t (PI / 2)); [assumption | exfalso].
      assert (Hc' : cos t <= 0) by (apply cos_le_0; lra). lra. }
    rewrite tan_polar by lra. apply atan_tan. lra.
  - destruct (Rlt_dec (s * cos t) 0) as [Hx' | Hx'].
    + (* left half plane *)
      assert (Hc : cos t < 0) by nra.
      assert (Hout : t < - (PI / 2) \/ PI / 2 < t).
      { destruct (Rlt_dec t (- (PI / 2))); [now left |].
        destruct (Rlt_dec (PI / 2) t); [now right | exfalso].
        assert (0 <= cos t) by (apply cos_ge_0; lra). lra. }
      destruct (Rle_dec 0 (s * sin t)) as [Hy | Hy].
      * assert (Hsin : 0 <= sin t) by nra.
        assert (Ht : PI / 2 < t).
        { destruct Hout as [Ht | Ht]; [exfalso | assumption].
          assert (sin t < 0) by (apply sin_lt_0_var; lra). lra. }
        set (u := t - PI).
        assert (Hsu : sin t = - sin u).
        { replace t with (u + PI) by (unfold u; ring). apply neg_sin. }
        assert (Hcu : cos t = - cos u).
        { replace t with (u + PI) by (unfold u; ring). apply neg_cos. }
        replace (s * sin t / (s * cos t)) with (tan u).
        -- rewrite atan_tan by (unfold u; lra). unfold u. ring.
        -- rewrite Hsu, Hcu. unfold tan. field. split; lra.
      * assert (Hsin : sin t < 0) by nra.
        assert (Ht : t < - (PI / 2)).
        { destruct Hout as [Ht | Ht]; [assumption | exfalso].
          assert (0 <= sin t) by (apply sin_ge_0; lra). lra. }
        set (u := t + PI).
        assert (Hsu : sin u = - sin t) by (unfold u; apply neg_sin).
        assert (Hcu : cos u = - cos t) by (unfold u; apply neg_cos).
        replace (s * sin t / (s * cos t)) with (tan u).
        -- rewrite atan_tan by (unfold u; lra). unfold u. ring.
        -- unfold tan. rewrite Hsu, Hcu. field. split; lra.
    + (* on the vertical axis *)
      assert (Hc : cos t = 0) by nra.
      assert (Hcases : t = PI / 2 \/ t = - (PI / 2)).
      { destruct (Rle_dec 0 t) as [Hpos | Hneg].
        - destruct (cos_eq_0_2PI_0 t) as [E | E]; try lra.
        - assert (Hc' : cos (- t) = 0) by now rewrite cos_neg.
          destruct (cos_eq_0_2PI_0 (- t)) as [E | E]; try lra. }
      destruct Hcases as [E | E]; subst t.
      * rewrite sin_PI2.
        destruct (Rlt_dec 0 (s * 1)); [reflexivity | lra].
      * rewrite sin_neg, sin_PI2.
        destruct (Rlt_dec 0 (s * - (1))); [lra |].
        destruct (Rlt_dec (s * - (1)) 0); [reflexivity | lra].
Qed.

(** Azimuth recovered from [(s cos phi, s sin phi)] for [phi] in
    [[0, 2 pi)]. *)
Lemma azimuth_recovered (phi : R) :
  0 <= phi < 2 * PI ->
  Rmod (arctan2 (sin phi * s) (cos phi * s) - 0) (2 * PI) = phi.
Proof.
  intros [H0 H2]. pose proof PI_RGT_0 as Hpi.
  rewrite (Rmult_comm (sin phi)), (Rmult_comm (cos phi)).
  destruct (Rle_dec phi PI) as [Hle | Hgt].
  - rewrite arctan2_polar by lra. rewrite Rmod_small; lra.
  - rewrite <- (sin_shift_2PI phi), <- (cos_shift_2PI phi).
    rewrite arctan2_polar by lra. rewrite Rmod_wrap; lra.
Qed.

End PolarPoint.

Lemma acos_le_PI2 (x : R) : 0 <= x <= 1 -> 0 <= acos x <= PI / 2.
Proof.
  intros Hx. destruct (acos_bound x) as [H0 Hpi]. split; [assumption |].
  destruct (Rle_dec (acos x) (PI / 2)); [assumption | exfalso].
  assert (Hc : cos (acos x) < 0) by (apply cos_lt_0; lra).
  rewrite cos_acos in Hc by lra. lra.
Qed.

(** On a vector of norm 1 the renormalization is the identity. *)
Lemma state_vector_to_bloch_unit (a b : C) :
  Cabs a ^ 2 + Cabs b ^ 2 = 1 ->
  state_vector_to_bloch (a, b) =
  (2 * acos (Cabs a), Rmod (angle b - angle a) (2 * PI)).
Proof.
  intros Hn. unfold state_vector_to_bloch.
  rewrite Hn, sqrt_1, !Cdiv_real_1. reflexivity.
Qed.

(* ------------------------------------------------------------------ *)
(** ** Bloch angles of a state vector *)

Lemma Cabs_div_le_1 (a b : C) :
  sqrt (Cabs a ^ 2 + Cabs b ^ 2) <> 0 ->
  Cabs (Cdiv_real a (sqrt (Cabs a ^ 2 + Cabs b ^ 2))) <= 1.
Proof.
  intros Hn. set (n := sqrt (Cabs a ^ 2 + Cabs b ^ 2)) in *.
  assert (HN : 0 <= Cabs a ^ 2 + Cabs b ^ 2).
  { rewrite !Cabs_sqr. nra. }
  assert (Hn0 : 0 <= n) by apply sqrt_pos.
  assert (Hnn : n * n = Cabs a ^ 2 + Cabs b ^ 2) by (apply sqrt_sqrt, HN).
  assert (Hnpos : 0 < n) by lra.
  rewrite <- sqrt_1. unfold Cabs at 1. apply sqrt_le_1_alt.
  unfold Cdiv_real; cbn [fst snd].
  replace (fst a / n * (fst a / n) + snd a / n * (snd a / n))
    with ((fst a * fst a + snd a * snd a) / (n * n)) by (field; lra).
  apply Rmult_le_reg_r with (r := n * n); [nra |].
  replace ((fst a * fst a + snd a * snd a) / (n * n) * (n * n))
    with (fst a * fst a + snd a * snd a) by (field; lra).
  rewrite Hnn, !Cabs_sqr. nra.
Qed.


(** In exact arithmetic the normalised modulus is within [[0, 1]], and
    the conversion with no rounding error is the exact one. *)
Lemma state_vector_to_bloch_fp_exact (alpha beta : C) :
  sqrt (Cabs alpha ^ 2 + Cabs beta ^ 2) <> 0 ->
  state_vector_to_bloch_fp 0 (alpha, beta)
  = (Some (fst (state_vector_to_bloch (alpha, beta))),
     snd (state_vector_to_bloch (alpha, beta))).
Proof.
  intros Hn. unfold state_vector_to_bloch_fp, state_vector_to_bloch.
  cbn [fst snd].
  pose proof (Cabs_div_le_1 alpha beta Hn) as H1.
  pose proof (Cabs_nonneg
                (Cdiv_real alpha (sqrt (Cabs alpha ^ 2 + Cabs beta ^ 2))))
    as H0.
  rewrite Rplus_0_r. unfold np_arccos.
  destruct (Rle_dec (-1) _) as [_ | Hlo]; [| lra].
  destruct (Rle_dec _ 1) as [_ | Hhi]; [reflexivity | lra].
Qed.




(** At the north pole the azimuth is lost: the answer is [(0, 0)]. *)
Lemma round_trip_north_pole (phi : R) :
  state_vector_to_bloch (bloch_to_state_vector 0 phi) = (0, 0).
Proof.
  pose proof PI_RGT_0 as Hpi.
  pose proof (bloch_to_state_vector_unit 0 phi) as Hu.
  rewrite bloch_to_state_vector_components in Hu. cbn [fst snd] in Hu.
  rewrite bloch_to_state_vector_components.
  etransitivity; [exact (state_vector_to_bloch_unit _ _ Hu) |].
  replace (0 / 2) with 0 by field.
  rewrite cos_0, sin_0, !Rmult_0_r.
  f_equal.
  - rewrite Cabs_real, Rabs_pos_eq by lra. rewrite acos_1. ring.
  - unfold angle; cbn [fst snd].
    rewrite !arctan2_0_nonneg by lra.
    rewrite Rmod_small; lra.
Qed.

(** C5, as amended.  For [theta] in [(0, pi]] and [phi] in [[0, 2 pi)]
    the round trip through the state vector gives back [(theta, phi)]. *)
Theorem state_vector_round_trip (theta phi : R) :
  0 < theta <= PI -> 0 <= phi < 2 * PI ->
  state_vector_to_bloch (bloch_to_state_vector theta phi) = (theta, phi).
Proof.
  intros [Ht0 Ht1] Hphi. pose proof PI_RGT_0 as Hpi.
  pose proof (bloch_to_state_vector_unit theta phi) as Hu.
  rewrite bloch_to_state_vector_components in Hu. cbn [fst snd] in Hu.
  rewrite bloch_to_state_vector_components.
  etransitivity; [exact (state_vector_to_bloch_unit _ _ Hu) |].
  assert (Hc : 0 <= cos (theta / 2)) by (apply cos_ge_0; lra).
  assert (Hs : 0 < sin (theta / 2)) by (apply sin_gt_0; lra).
  f_equal.
  - rewrite Cabs_real, Rabs_pos_eq by assumption.
    rewrite acos_cos by lra. field.
  - unfold angle; cbn [fst snd].
    rewrite (arctan2_0_nonneg _ Hc).
    now apply azimuth_recovered.
Qed.

(** Witness for C5: the state [|+i>]. *)
Lemma state_vector_round_trip_witness :
  state_vector_to_bloch (bloch_to_state_vector (PI / 2) (PI / 2))
  = (PI / 2, PI / 2).
Proof.
  pose proof PI_RGT_0 as Hpi.
  apply (state_vector_round_trip (PI / 2) (PI / 2)); lra.
Defined.

(** C5 as first stated fails at the north pole: [theta = 0], [phi = 1]
    lie in the stated ranges and come back as [(0, 0)]. *)
Lemma state_vector_round_trip_fails_at_pole :
  0 <= 0 <= PI /\ 0 <= 1 < 2 * PI
  /\ state_vector_to_bloch (bloch_to_state_vector 0 1) <> (0, 1).
Proof.
  pose proof PI_RGT_0 as Hpi. pose proof PI2_1 as Hpi2.
  repeat split; try lra.
  rewrite round_trip_north_pole. intros H. injection H as H. lra.
Qed.

(* ------------------------------------------------------------------ *)
(** ** Gates on Bloch angles *)

Lemma apply_gate_to_state_H (v : Vector2) :
  apply_gate_to_state v (GateName "H") = Ok (matvec HADAMARD v).
Proof. reflexivity. Qed.

Lemma apply_gate_to_state_X (v : Vector2) :
  apply_gate_to_state v (GateName "X") = Ok (matvec PAULI_X v).
Proof. reflexivity. Qed.

Lemma matvec_HADAMARD_real (a b : R) :
  matvec HADAMARD ((a, 0), (b, 0)) =
  (((a + b) / sqrt 2, 0), ((a - b) / sqrt 2, 0)).
Proof.
  pose proof sqrt2_pos.
  unfold matvec, HADAMARD, Mdiv_real, Cdiv_real, Cplus, Cmult, C1, RtoC.
  cbn [fst snd]. f_equal; f_equal; field; lra.
Qed.

Lemma matvec_PAULI_X (v0 v1 : C) : matvec PAULI_X (v0, v1) = (v1, v0).
Proof.
  destruct v0 as [a b], v1 as [c d].
  unfold matvec, PAULI_X, Cplus, Cmult, C0, C1. cbn [fst snd].
  f_equal; f_equal; ring.
Qed.

(** Bloch angles of a unit vector with non-negative real components. *)
Lemma state_vector_to_bloch_real (a b : R) :
  0 <= a -> 0 <= b -> a * a + b * b = 1 ->
  state_vector_to_bloch ((a, 0), (b, 0)) = (2 * acos a, 0).
Proof.
  intros Ha Hb Hu. pose proof PI_RGT_0 as Hpi.
  assert (Hn : Cabs (a, 0) ^ 2 + Cabs (b, 0) ^ 2 = 1).
  { rewrite !Cabs_sqr. cbn [fst snd]. lra. }
  etransitivity; [exact (state_vector_to_bloch_unit _ _ Hn) |].
  f_equal.
  - now rewrite Cabs_real, Rabs_pos_eq.
  - unfold angle; cbn [fst snd]. rewrite !arctan2_0_nonneg by assumption.
    rewrite Rmod_small; lra.
Qed.

Lemma inv_sqrt2_sqr : / sqrt 2 * / sqrt 2 = / 2.
Proof. rewrite <- Rinv_mult, sqrt2_sqr. reflexivity. Qed.

Lemma inv_sqrt2_pos : 0 < / sqrt 2.
Proof. apply Rinv_0_lt_compat, sqrt2_pos. Qed.

Lemma bloch_to_state_vector_zero :
  bloch_to_state_vector 0 0 = ((1, 0), (0, 0)).
Proof.
  rewrite bloch_to_state_vector_components.
  replace (0 / 2) with 0 by field.
  rewrite cos_0, sin_0, !Rmult_0_r. reflexivity.
Qed.

Lemma bloch_to_state_vector_plus :
  bloch_to_state_vector (PI / 2) 0 = ((/ sqrt 2, 0), (/ sqrt 2, 0)).
Proof.
  rewrite bloch_to_state_vector_components.
  replace (PI / 2 / 2) with (PI / 4) by field.
  rewrite cos_PI4, sin_PI4, cos_0, sin_0, Rmult_0_l, Rmult_1_l.
  unfold Rdiv. now rewrite Rmult_1_l.
Qed.

(** [H] takes the north pole to [|+>]. *)
Lemma hadamard_on_zero :
  apply_gate_to_bloch 0 0 (GateName "H") = Ok (PI / 2, 0).
Proof.
  unfold apply_gate_to_bloch.
  rewrite apply_gate_to_state_H. cbn [bind].
  rewrite bloch_to_state_vector_zero, matvec_HADAMARD_real.
  pose proof inv_sqrt2_pos. pose proof inv_sqrt2_sqr.
  replace ((1 + 0) / sqrt 2) with (/ sqrt 2) by (unfold Rdiv; ring).
  replace ((1 - 0) / sqrt 2) with (/ sqrt 2) by (unfold Rdiv; ring).
  rewrite state_vector_to_bloch_real by lra.
  rewrite acos_inv_sqrt2. do 2 f_equal. field.
Qed.

(** [X] leaves [|+>] where it is. *)
Lemma pauli_x_on_plus :
  apply_gate_to_bloch (PI / 2) 0 (GateName "X") = Ok (PI / 2, 0).
Proof.
  unfold apply_gate_to_bloch.
  rewrite apply_gate_to_state_X. cbn [bind].
  rewrite bloch_to_state_vector_plus, matvec_PAULI_X.
  pose proof inv_sqrt2_pos. pose proof inv_sqrt2_sqr.
  rewrite state_vector_to_bloch_real by lra.
  rewrite acos_inv_sqrt2. do 2 f_equal. field.
Qed.

(** [H] takes [|+>] back to the north pole. *)
Lemma hadamard_on_plus :
  apply_gate_to_bloch (PI / 2) 0 (GateName "H") = Ok (0, 0).
Proof.
  unfold apply_gate_to_bloch.
  rewrite apply_gate_to_state_H. cbn [bind].
  rewrite bloch_to_state_vector_plus, matvec_HADAMARD_real.
  pose proof sqrt2_pos. pose proof sqrt2_sqr.
  replace ((/ sqrt 2 + / sqrt 2) / sqrt 2) with 1.
  2:{ apply Rmult_eq_reg_r with (r := sqrt 2 * sqrt 2); [| nra].
      field_simplify; lra. }
  replace ((/ sqrt 2 - / sqrt 2) / sqrt 2) with 0 by (unfold Rdiv; ring).
  rewrite state_vector_to_bloch_real by lra.
  rewrite acos_1. do 2 f_equal. ring.
Qed.

Lemma gate_sequence_HXH :
  (p1 <- apply_gate_to_bloch 0 0 (GateName "H") ;;
   p2 <- apply_gate_to_bloch (fst p1) (snd p1) (GateName "X") ;;
   apply_gate_to_bloch (fst p2) (snd p2) (GateName "H")) = Ok (0, 0).
Proof.
  rewrite hadamard_on_zero. cbn [bind fst snd].
  rewrite pauli_x_on_plus. cbn [bind fst snd].
  apply hadamard_on_plus.
Qed.

(** C4.  From [theta = 0], [phi = 0] the gate [H] gives [theta = pi/2],
    [phi = 0], as the claim says; applying [X] and then [H] again gives
    [theta = 0], the starting state, each within [1e-6], where the claim
    and the tests of the repository expect [theta = pi]. *)
Theorem gate_sequence_from_zero :
  (exists theta1 phi1,
      apply_gate_to_bloch 0 0 (GateName "H") = Ok (theta1, phi1)
      /\ Rabs (theta1 - PI / 2) <= 1 / 10 ^ 6
      /\ Rabs (phi1 - 0) <= 1 / 10 ^ 6)
  /\ (exists theta3 phi3,
        (p1 <- apply_gate_to_bloch 0 0 (GateName "H") ;;
         p2 <- apply_gate_to_bloch (fst p1) (snd p1) (GateName "X") ;;
         apply_gate_to_bloch (fst p2) (snd p2) (GateName "H"))
        = Ok (theta3, phi3)
        /\ Rabs (theta3 - 0) <= 1 / 10 ^ 6).
Proof.
  split.
  - exists (PI / 2), 0. split; [apply hadamard_on_zero |].
    split; apply tolerance_refl.
  - exists 0, 0. split; [apply gate_sequence_HXH | apply tolerance_refl].
Qed.

(** The expectation of C4 is not met: after [H], [X], [H] the polar
    angle is 0, which is not within [1e-6] of [pi]. *)
Lemma gate_sequence_not_pi :
  exists theta3 phi3,
    (p1 <- apply_gate_to_bloch 0 0 (GateName "H") ;;
     p2 <- apply_gate_to_bloch (fst p1) (snd p1) (GateName "X") ;;
     apply_gate_to_bloch (fst p2) (snd p2) (GateName "H"))
    = Ok (theta3, phi3)
    /\ ~ Rabs (theta3 - PI) <= 1 / 10 ^ 6.
Proof.
  exists 0, 0. split; [apply gate_sequence_HXH |].
  pose proof PI2_1 as Hpi.
  replace (0 - PI) with (- PI) by ring.
  rewrite Rabs_Ropp, Rabs_pos_eq by lra.
  assert (H6 : 1 / 10 ^ 6 < 1).
  { apply Rmult_lt_reg_r with (r := 10 ^ 6); [apply pow_lt; lra |].
    replace (1 / 10 ^ 6 * 10 ^ 6) with 1 by (field; apply pow_nonzero; lra).
    simpl. lra. }
  lra.
Qed.

(* ------------------------------------------------------------------ *)
(** ** Lattices and the array sampler *)

Lemma Ok_inj {A : Type} (a b : A) : Ok a = Ok b -> a = b.
Proof. intros H. now inversion H. Qed.

Lemma combine_map_same {A B D : Type} (f : A -> B) (g : A -> D) (l : list A) :
  combine (map f l) (map g l) = map (fun a => (f a, g a)) l.
Proof. induction l as [| a l IH]; cbn; [reflexivity | now rewrite IH]. Qed.

(** On a mesh grid, elementwise evaluation is evaluation at the triples
    of axis coordinates. *)
Lemma elementwise_meshgrid {A : Type} (f : R -> R -> R -> A) (x y z : list R) :
  let '(xg, yg, zg) := meshgrid_ij x y z in
  elementwise f xg yg zg
  = map (fun xi => map (fun yj => map (fun zk => f xi yj zk) z) y) x.
Proof.
  unfold meshgrid_ij, elementwise.
  rewrite (combine_map_same _ _ x), (combine_map_same _ _ x), map_map.
  apply map_ext. intros xi.
  rewrite (combine_map_same _ _ y), (combine_map_same _ _ y), map_map.
  apply map_ext. intros yj.
  rewrite (combine_map_same _ _ z), (combine_map_same _ _ z), map_map.
  reflexivity.
Qed.

Lemma linspace_length (a b : R) (k : nat) : length (linspace a b k) = k.
Proof. unfold linspace. now rewrite length_map, length_seq. Qed.

(** A run of the array loop that returns has met valid keys only. *)
Lemma accumulate_nd_check_keys (items : OrbitalCoeffs) :
  forall d d' : option dtype,
    accumulate_nd items d = Ok d' -> check_keys items = Ok true.
Proof.
  induction items as [| [[[n l] m] c] rest IH]; intros d d';
    cbn [accumulate_nd check_keys].
  - reflexivity.
  - destruct (validate_quantum_numbers n l m) as [b | e]; cbn [bind];
      [| discriminate].
    destruct d as [[|] |]; destruct (term_dtype m);
      try discriminate; apply IH.
Qed.

(** Once the running sum is complex, every valid term is added. *)
Lemma accumulate_nd_complex (items : OrbitalCoeffs) :
  accumulate_nd items (Some complex128)
  = (check_keys items ;;; Ok (Some complex128)).
Proof.
  induction items as [| [[[n l] m] c] rest IH];
    cbn [accumulate_nd check_keys].
  - reflexivity.
  - destruct (validate_quantum_numbers n l m) as [b | e]; cbn [bind];
      [| reflexivity].
    destruct (term_dtype m); exact IH.
Qed.

(** The loop on the mixtures of the three bases: complex throughout for
    sp and sd; for pp the two real terms make a float64 array, and the
    complex term of 2pz cannot be added to it in place. *)
Lemma accumulate_nd_sp (a b : C) :
  accumulate_nd [ ((1, 0, 0)%Z, a); ((2, 0, 0)%Z, b) ] None
  = Ok (Some complex128).
Proof. reflexivity. Qed.

Lemma accumulate_nd_sd (a b : C) :
  accumulate_nd [ ((1, 0, 0)%Z, a); ((3, 2, 0)%Z, b) ] None
  = Ok (Some complex128).
Proof. reflexivity. Qed.

Lemma accumulate_nd_pp (a b c : C) :
  accumulate_nd
    [ ((2, 1, 1)%Z, a); ((2, 1, -1)%Z, b); ((2, 1, 0)%Z, c) ] None
  = Raise UFuncTypeError.
Proof. reflexivity. Qed.

Lemma ORBITAL_EXTENT_cases (n : Z) :
  (1 <= n <= 7)%Z /\ ORBITAL_EXTENT n = Some (10 * IZR n)
  \/ ORBITAL_EXTENT n = None.
Proof.
  destruct (Z_lt_le_dec n 1) as [Hlo | Hlo].
  { right. destruct n as [| p | p]; try reflexivity. lia. }
  destruct (Z_lt_le_dec 7 n) as [Hhi | Hhi].
  { right. destruct n as [| p | p]; try reflexivity.
    destruct p as [[[p | p |] | [p | p |] |] | [[p | p |] | [p | p |] |] |];
      try reflexivity; lia. }
  left. split; [lia |].
  assert (Hn : (n = 1 \/ n = 2 \/ n = 3 \/ n = 4 \/ n = 5 \/ n = 6 \/ n = 7)%Z)
    by lia.
  destruct Hn as [-> | [-> | [-> | [-> | [-> | [-> | ->]]]]]];
    cbn [ORBITAL_EXTENT]; f_equal; lra.
Qed.

Lemma FLOAT_CONVERSION_BOUND_large : (2 ^ 53 < FLOAT_CONVERSION_BOUND)%Z.
Proof. unfold FLOAT_CONVERSION_BOUND. vm_compute. reflexivity. Qed.

(** Below the conversion bound the extent is [10 n], from the table or
    from the fallback. *)
Lemma get_orbital_extent_below (n : Z) :
  (Z.abs n < FLOAT_CONVERSION_BOUND)%Z ->
  get_orbital_extent n = Ok (10 * IZR n).
Proof.
  intros H. unfold get_orbital_extent.
  destruct (Z.leb_spec FLOAT_CONVERSION_BOUND (Z.abs n)) as [Hge | _];
    [lia |].
  destruct (ORBITAL_EXTENT_cases n) as [[_ ->] | ->];
    [reflexivity | f_equal; ring].
Qed.

(** An extent of the table is returned as it is. *)
Lemma get_orbital_extent_table (n : Z) (e : R) :
  ORBITAL_EXTENT n = Some e -> get_orbital_extent n = Ok e.
Proof.
  intros H. pose proof FLOAT_CONVERSION_BOUND_large as HB.
  destruct (ORBITAL_EXTENT_cases n) as [[Hn Ht] | Ht];
    rewrite Ht in H; [| discriminate].
  rewrite get_orbital_extent_below by lia. congruence.
Qed.

(** What the sampler returns, entry by entry. *)
Lemma sample_density_grid_entries
  (coeffs : OrbitalCoeffs) (resolution : option nat) (extent : option R)
  (grid : DensityGrid) :
  sample_density_grid coeffs resolution extent = Ok grid ->
  exists e,
    extent_used coeffs extent e
    /\ check_keys coeffs = Ok true
    /\ let axis :=
         linspace (- e) e
                  (match resolution with
                   | Some k => k
                   | None => DEFAULT_GRID_RESOLUTION
                   end) in
       grid =
       (map (fun xi => map (fun yj => map (fun zk => xi) axis) axis) axis,
        map (fun xi => map (fun yj => map (fun zk => yj) axis) axis) axis,
        map (fun xi => map (fun yj => map (fun zk => zk) axis) axis) axis,
        map (fun xi => map (fun yj => map (fun zk =>
               Cabs (psi_total_value coeffs xi yj zk) ^ 2) axis) axis) axis).
Proof.
  unfold sample_density_grid, orbital_coeffs_to_density_nd.
  set (k := match resolution with
            | Some k => k
            | None => DEFAULT_GRID_RESOLUTION
            end).
  intros H.
  assert (He : exists e,
             extent_used coeffs extent e
             /\ match extent with
                | Some e => Ok e
                | None => max_n <- max_principal coeffs;;
                          get_orbital_extent max_n
                end = Ok e).
  { destruct extent as [e |].
    - exists e. split; reflexivity.
    - cbn [extent_used].
      destruct (max_principal coeffs) as [max_n | err] eqn:Hmax;
        cbn [bind] in H |- *; [| discriminate].
      destruct (get_orbital_extent max_n) as [e | err] eqn:Hext;
        cbn [bind] in H; [| discriminate].
      exists e. split; [exists max_n; split; [reflexivity | exact Hext] |].
      reflexivity. }
  destruct He as (e & Hu & He). rewrite He in H. cbn [bind] in H.
  exists e. split; [exact Hu |].
  pose proof (elementwise_meshgrid
                (fun x y z => Cabs (psi_total_value coeffs x y z) ^ 2)
                (linspace (- e) e k) (linspace (- e) e k) (linspace (- e) e k))
    as Hel.
  unfold meshgrid_ij in *.
  destruct (accumulate_nd coeffs None) as [d |err] eqn:Ha; cbn [bind] in H;
    [| discriminate].
  split; [exact (accumulate_nd_check_keys _ _ _ Ha) |].
  apply Ok_inj in H. subst grid. cbn zeta. now rewrite Hel.
Qed.

(** The density array of a returned grid holds the values of
    [orbital_coeffs_to_density] at the lattice points. *)
Lemma sample_density_grid_samples
  (coeffs : OrbitalCoeffs) (resolution : option nat) (extent : option R)
  (grid : DensityGrid) :
  sample_density_grid coeffs resolution extent = Ok grid ->
  exists e,
    extent_used coeffs extent e
    /\ let axis :=
         linspace (- e) e
                  (match resolution with
                   | Some k => k
                   | None => DEFAULT_GRID_RESOLUTION
                   end) in
       fst grid = meshgrid_ij axis axis axis
       /\ samples (orbital_coeffs_to_density coeffs) axis (snd grid).
Proof.
  intros H.
  destruct (sample_density_grid_entries _ _ _ _ H) as (e & Hu & Hk & Hg).
  exists e. split; [exact Hu |]. cbn zeta in Hg |- *. subst grid.
  cbn [fst snd]. split; [reflexivity |].
  exists (fun x y z => Cabs (psi_total_value coeffs x y z) ^ 2).
  split; [reflexivity |].
  intros x y z _ _ _.
  rewrite orbital_coeffs_to_density_value, Hk. reflexivity.
Qed.

(** A grid sampled at an explicit resolution has that many planes. *)
Lemma sample_density_grid_planes
  (coeffs : OrbitalCoeffs) (k : nat) (extent : option R) (grid : DensityGrid) :
  sample_density_grid coeffs (Some k) extent = Ok grid ->
  length (fst (fst (fst grid))) = k.
Proof.
  intros H.
  destruct (sample_density_grid_entries _ _ _ _ H) as (e & _ & _ & Hg).
  cbn zeta in Hg. subst grid. cbn [fst].
  now rewrite length_map, linspace_length.
Qed.

(** The sampler on the mixture of an angle pair, by basis. *)
Lemma sample_density_grid_by_basis
  (theta phi : R) (b : string) (coeffs : OrbitalCoeffs)
  (resolution : option nat) (extent : option R) :
  bloch_to_orbital_coeffs theta phi b = Ok coeffs ->
  (b = "pp"%string ->
   sample_density_grid coeffs resolution extent = Raise UFuncTypeError)
  /\ (b = "sp"%string \/ b = "sd"%string ->
      returns (sample_density_grid coeffs resolution extent)).
Proof.
  intros Hc. split.
  - intros ->. rewrite bloch_to_orbital_coeffs_pp in Hc.
    apply Ok_inj in Hc. subst coeffs.
    unfold sample_density_grid, orbital_coeffs_to_density_nd, meshgrid_ij.
    rewrite accumulate_nd_pp.
    destruct extent as [e |]; cbn [bind max_principal fold_left].
    + reflexivity.
    + rewrite (get_orbital_extent_table _ 20) by reflexivity. reflexivity.
  - intros [-> | ->].
    + rewrite bloch_to_orbital_coeffs_sp in Hc.
      apply Ok_inj in Hc. subst coeffs.
      unfold sample_density_grid, orbital_coeffs_to_density_nd, meshgrid_ij.
      rewrite accumulate_nd_sp.
      destruct extent as [e |]; cbn [bind max_principal fold_left].
      * eexists. reflexivity.
      * rewrite (get_orbital_extent_table _ 20) by reflexivity.
        eexists. reflexivity.
    + rewrite bloch_to_orbital_coeffs_sd in Hc.
      apply Ok_inj in Hc. subst coeffs.
      unfold sample_density_grid, orbital_coeffs_to_density_nd, meshgrid_ij.
      rewrite accumulate_nd_sd.
      destruct extent as [e |]; cbn [bind max_principal fold_left].
      * eexists. reflexivity.
      * rewrite (get_orbital_extent_table _ 30) by reflexivity.
        eexists. reflexivity.
Qed.

Lemma sample_density_grid_sp (a b : C) (k : nat) (e : R) :
  returns (sample_density_grid [ ((1, 0, 0)%Z, a); ((2, 0, 0)%Z, b) ]
                               (Some k) (Some e)).
Proof.
  unfold sample_density_grid, orbital_coeffs_to_density_nd, meshgrid_ij.
  cbn [bind]. rewrite accumulate_nd_sp. cbn [bind]. eexists. reflexivity.
Qed.

(* ------------------------------------------------------------------ *)
(** ** The density-grid cache of a BlochOrbitalState *)

(** A query with [use_cache] on an object that holds a cached grid. *)
Lemma calculate_density_grid_hit
  (self : BlochOrbitalState) (cached : DensityGrid)
  (resolution : option nat) (extent : option R) :
  _density_cache self = Some cached ->
  calculate_density_grid resolution extent true self = (Ok cached, self).
Proof. intros H. unfold calculate_density_grid. now rewrite H. Qed.

Lemma calculate_density_grid_miss
  (self : BlochOrbitalState) (resolution : option nat) (extent : option R)
  (use_cache : bool) :
  use_cache = false \/ _density_cache self = None ->
  calculate_density_grid resolution extent use_cache self
  = match sample_density_grid (_orbital_coeffs self) resolution extent with
    | Raise e => (Raise e, self)
    | Ok grid =>
        (Ok grid,
         mkState (basis self) (_theta self) (_phi self) (_state_vector self)
                 (_orbital_coeffs self) (Some grid))
    end.
Proof.
  intros [H | H]; unfold calculate_density_grid; rewrite H.
  - reflexivity.
  - now destruct use_cache.
Qed.

(** A query that is not answered from the cache and returns: the grid
    is the sampled lattice, and it is in the cache afterwards. *)
Lemma calculate_density_grid_sampled
  (self s' : BlochOrbitalState) (resolution : option nat) (extent : option R)
  (use_cache : bool) (grid : DensityGrid) :
  use_cache = false \/ _density_cache self = None ->
  calculate_density_grid resolution extent use_cache self = (Ok grid, s') ->
  s' = mkState (basis self) (_theta self) (_phi self) (_state_vector self)
               (_orbital_coeffs self) (Some grid)
  /\ exists e,
       extent_used (_orbital_coeffs self) extent e
       /\ let axis :=
            linspace (- e) e
                     (match resolution with
                      | Some k => k
                      | None => DEFAULT_GRID_RESOLUTION
                      end) in
          fst grid = meshgrid_ij axis axis axis
          /\ samples (orbital_coeffs_to_density (_orbital_coeffs self))
                     axis (snd grid).
Proof.
  intros Hm H. rewrite (calculate_density_grid_miss _ _ _ _ Hm) in H.
  destruct (sample_density_grid (_orbital_coeffs self) resolution extent)
    as [g | err] eqn:Hs; [| discriminate].
  assert (Hg : g = grid) by (now inversion H). subst g.
  split; [now inversion H |].
  exact (sample_density_grid_samples _ _ _ _ Hs).
Qed.

(** A query that raises has not answered from the cache and leaves the
    object as it was. *)
Lemma calculate_density_grid_raises
  (self s' : BlochOrbitalState) (resolution : option nat) (extent : option R)
  (use_cache : bool) (err : Exception) :
  calculate_density_grid resolution extent use_cache self = (Raise err, s') ->
  s' = self /\ (use_cache = false \/ _density_cache self = None).
Proof.
  unfold calculate_density_grid.
  destruct use_cache; destruct (_density_cache self) as [cached |];
    try discriminate;
    destruct (sample_density_grid (_orbital_coeffs self) resolution extent);
    try discriminate; intros H; inversion H; auto.
Qed.

(** C1, as amended.  [calculate_density_grid] answers from the cache,
    leaving the object as it is, when a cache is present and [use_cache]
    is true, whatever resolution and extent are requested.  In every
    other case it runs the sampler on the current mixture.  When that
    returns, the grid is the lattice of [resolution] points per axis
    (64 by default) on [[-e, e]], [e] being the extent given or that of
    the largest principal quantum number among the keys, with the value
    of [orbital_coeffs_to_density] at every lattice point; the grid is
    returned and stored in the cache, and nothing else of the object
    changes.  When the sampler raises, the object is left as it was.  On
    an object whose coefficients are those of its angles and basis the
    sampler returns in the bases sp and sd, and in basis pp it raises
    numpy's casting error. *)
Theorem calculate_density_grid_cache
  (self : BlochOrbitalState) (resolution : option nat) (extent : option R)
  (use_cache : bool) :
  (forall cached,
      use_cache = true /\ _density_cache self = Some cached ->
      calculate_density_grid resolution extent use_cache self
      = (Ok cached, self))
  /\ (use_cache = false \/ _density_cache self = None ->
      forall grid s',
        calculate_density_grid resolution extent use_cache self
        = (Ok grid, s') ->
        s' = mkState (basis self) (_theta self) (_phi self)
                     (_state_vector self) (_orbital_coeffs self) (Some grid)
        /\ exists e,
             extent_used (_orbital_coeffs self) extent e
             /\ let axis :=
                  linspace (- e) e
                           (match resolution with
                            | Some k => k
                            | None => DEFAULT_GRID_RESOLUTION
                            end) in
                fst grid = meshgrid_ij axis axis axis
                /\ samples (orbital_coeffs_to_density (_orbital_coeffs self))
                           axis (snd grid))
  /\ (forall err s',
        calculate_density_grid resolution extent use_cache self
        = (Raise err, s') ->
        s' = self /\ (use_cache = false \/ _density_cache self = None))
  /\ (use_cache = false \/ _density_cache self = None ->
      coeffs_derived self ->
      (basis self = "pp"%string ->
       calculate_density_grid resolution extent use_cache self
       = (Raise UFuncTypeError, self))
      /\ (basis self = "sp"%string \/ basis self = "sd"%string ->
          returns (fst (calculate_density_grid resolution extent use_cache
                                               self)))).
Proof.
  split; [| split; [| split]].
  - intros cached [-> Hc]. now apply calculate_density_grid_hit.
  - intros Hm grid s'. now apply calculate_density_grid_sampled.
  - intros err s'. apply calculate_density_grid_raises.
  - intros Hm Hd. rewrite (calculate_density_grid_miss _ _ _ _ Hm).
    destruct (sample_density_grid_by_basis _ _ _ _ resolution extent Hd)
      as [Hpp Hsp].
    split.
    + intros Hb. now rewrite (Hpp Hb).
    + intros Hb. destruct (Hsp Hb) as [g Hg]. rewrite Hg. now exists g.
Qed.

Lemma new_BlochOrbitalState_sp (theta phi : R) :
  new_BlochOrbitalState theta phi "sp" =
  Ok (mkState "sp" theta phi (bloch_to_state_vector theta phi)
              [ ((1, 0, 0)%Z, fst (bloch_to_state_vector theta phi));
                ((2, 0, 0)%Z, snd (bloch_to_state_vector theta phi)) ]
              None).
Proof. reflexivity. Qed.

Lemma new_BlochOrbitalState_pp (theta phi : R) :
  new_BlochOrbitalState theta phi "pp" =
  Ok (mkState "pp" theta phi (bloch_to_state_vector theta phi)
              [ ((2, 1, 1)%Z, RtoC (sin (theta / 2) * cos phi));
                ((2, 1, -1)%Z, RtoC (sin (theta / 2) * sin phi));
                ((2, 1, 0)%Z, RtoC (cos (theta / 2))) ]
              None).
Proof. reflexivity. Qed.

Lemma ground_state_constructed :
  new_BlochOrbitalState 0 0 "sp" = Ok ground_state.
Proof. apply new_BlochOrbitalState_sp. Qed.

(** The first call on [ground_state] samples a grid with 2 planes and
    leaves it in the cache of [sampled_state]. *)
Lemma ground_state_sampled :
  exists g1,
    calculate_density_grid (Some 2%nat) (Some 10) true ground_state
    = (Ok g1, sampled_state)
    /\ _density_cache sampled_state = Some g1
    /\ length (fst (fst (fst g1))) = 2%nat
    /\ basis sampled_state = "sp"%string
    /\ _theta sampled_state = 0 /\ _phi sampled_state = 0
    /\ _orbital_coeffs sampled_state = _orbital_coeffs ground_state.
Proof.
  destruct (sample_density_grid_sp (fst (bloch_to_state_vector 0 0))
              (snd (bloch_to_state_vector 0 0)) 2 10) as [g1 Hg].
  exists g1.
  assert (Hcall :
    calculate_density_grid (Some 2%nat) (Some 10) true ground_state
    = (Ok g1,
       mkState "sp" 0 0 (bloch_to_state_vector 0 0)
               (_orbital_coeffs ground_state) (Some g1))).
  { rewrite calculate_density_grid_miss by (right; reflexivity).
    unfold ground_state. cbn [_orbital_coeffs]. rewrite Hg.
    reflexivity. }
  unfold sampled_state. rewrite Hcall. cbn [snd].
  split; [reflexivity |].
  cbn [_density_cache basis _theta _phi _orbital_coeffs].
  split; [reflexivity |].
  split; [apply (sample_density_grid_planes _ _ _ _ Hg) |].
  repeat split.
Qed.

(** Witness for C1.  On [sampled_state], whose cache holds a grid of
    resolution 2, a query for resolution 3 is answered with that grid; on
    [ground_state], whose cache is empty, the first query returns a
    sampled grid and leaves it in the cache; on the object built in basis
    pp every query raises. *)
Lemma calculate_density_grid_cache_witness :
  (exists g1,
      _density_cache sampled_state = Some g1
      /\ calculate_density_grid (Some 3%nat) (Some 10) true sampled_state
         = (Ok g1, sampled_state))
  /\ (exists g1,
        calculate_density_grid (Some 2%nat) (Some 10) true ground_state
        = (Ok g1, sampled_state)
        /\ _density_cache sampled_state = Some g1
        /\ samples (orbital_coeffs_to_density (_orbital_coeffs ground_state))
                   (linspace (- 10) 10 2) (snd g1))
  /\ (exists s,
        new_BlochOrbitalState (PI / 2) 0 "pp" = Ok s
        /\ calculate_density_grid None None true s
           = (Raise UFuncTypeError, s)).
Proof.
  destruct ground_state_sampled as (g1 & Hcall & Hc & _).
  split; [| split].
  - exists g1. split; [exact Hc |].
    apply (proj1 (calculate_density_grid_cache
                    sampled_state (Some 3%nat) (Some 10) true)).
    split; [reflexivity | exact Hc].
  - exists g1. split; [exact Hcall |]. split; [exact Hc |].
    destruct (proj1 (proj2 (calculate_density_grid_cache
                              ground_state (Some 2%nat) (Some 10) true))
                    (or_intror eq_refl) g1 sampled_state Hcall)
      as (_ & e & He & Hs).
    cbn [extent_used] in He. subst e. exact (proj2 Hs).
  - eexists. split; [apply new_BlochOrbitalState_pp |].
    apply (proj2 (proj2 (proj2 (calculate_density_grid_cache
                                  _ None None true)))).
    + right. reflexivity.
    + unfold coeffs_derived. apply bloch_to_orbital_coeffs_pp.
    + reflexivity.
Defined.

(** C1 as first stated fails on [sampled_state]: its grid was cached at
    resolution 2, and a query for resolution 3 gets that same grid back,
    although sampling at resolution 3 (forced with [use_cache = False])
    succeeds with a different grid. *)
Lemma calculate_density_grid_stale :
  fst (calculate_density_grid (Some 3%nat) (Some 10) true sampled_state)
  = fst (calculate_density_grid (Some 2%nat) (Some 10) true ground_state)
  /\ returns (fst (calculate_density_grid (Some 3%nat) (Some 10) false
                                          sampled_state))
  /\ fst (calculate_density_grid (Some 3%nat) (Some 10) true sampled_state)
     <> fst (calculate_density_grid (Some 3%nat) (Some 10) false
                                    sampled_state).
Proof.
  destruct ground_state_sampled
    as (g1 & Hcall & Hc & Hlen & _ & _ & _ & Hco).
  destruct (sample_density_grid_sp (fst (bloch_to_state_vector 0 0))
              (snd (bloch_to_state_vector 0 0)) 3 10) as [g3 Hg3].
  assert (Hre : fst (calculate_density_grid (Some 3%nat) (Some 10) false
                                            sampled_state) = Ok g3).
  { rewrite calculate_density_grid_miss by (left; reflexivity).
    rewrite Hco. unfold ground_state.
    cbn [_orbital_coeffs]. now rewrite Hg3. }
  rewrite (calculate_density_grid_hit _ _ _ _ Hc), Hcall, Hre. cbn [fst].
  split; [reflexivity |]. split; [now exists g3 |].
  intros H. injection H as ->.
  apply sample_density_grid_planes in Hg3. lia.
Qed.

(* ------------------------------------------------------------------ *)
(** ** Mutations of a BlochOrbitalState *)

(** A successful [set_bloch_state] rebuilds every derived field and
    empties the cache. *)
Lemma set_bloch_state_ok (theta phi : R) (self s' : BlochOrbitalState) :
  set_bloch_state theta phi self = (Ok tt, s') ->
  exists coeffs,
    bloch_to_orbital_coeffs theta phi (basis self) = Ok coeffs
    /\ s' = mkState (basis self) theta phi (bloch_to_state_vector theta phi)
                   coeffs None.
Proof.
  unfold set_bloch_state.
  destruct (bloch_to_orbital_coeffs theta phi (basis self)) as [coeffs | e];
    intros H; inversion H.
  exists coeffs. split; reflexivity.
Qed.

Lemma set_bloch_state_derived (theta phi : R) (self s' : BlochOrbitalState) :
  set_bloch_state theta phi self = (Ok tt, s') ->
  basis s' = basis self
  /\ _density_cache s' = None
  /\ coeffs_derived s'
  /\ _state_vector s' = bloch_to_state_vector (_theta s') (_phi s').
Proof.
  intros H. apply set_bloch_state_ok in H as (coeffs & Hc & ->).
  unfold coeffs_derived.
  cbn [basis _density_cache _orbital_coeffs _theta _phi _state_vector]. auto.
Qed.

Lemma set_state_vector_derived
  (v : Vector2) (self s' : BlochOrbitalState) :
  set_state_vector v self = (Ok tt, s') ->
  basis s' = basis self
  /\ _density_cache s' = None
  /\ coeffs_derived s'
  /\ vector_derived (SetStateVector v) s'.
Proof.
  destruct v as [a b]. unfold set_state_vector, vector_derived.
  set (norm := sqrt (Cabs a ^ 2 + Cabs b ^ 2)).
  destruct (state_vector_to_bloch (Cdiv_real a norm, Cdiv_real b norm))
    as [theta phi] eqn:Hb.
  destruct (bloch_to_orbital_coeffs theta phi (basis self)) as [coeffs | e]
    eqn:Hc; intros H; inversion H; subst s'.
  unfold coeffs_derived.
  cbn [basis _density_cache _orbital_coeffs _theta _phi _state_vector].
  rewrite Hb. auto.
Qed.

Lemma method_derived (mu : Mutation) (self s' : BlochOrbitalState) :
  is_method mu ->
  run_mutation mu self = (Ok tt, s') ->
  basis s' = basis self
  /\ _density_cache s' = None
  /\ coeffs_derived s'
  /\ vector_derived mu s'.
Proof.
  destruct mu as [theta phi | v | name | g | b]; cbn [run_mutation is_method];
    intros Hm H; try contradiction.
  - now apply set_bloch_state_derived in H.
  - now apply set_state_vector_derived.
  - unfold set_pure_state in H.
    destruct (BLOCH_PURE_STATES name) as [[theta phi] |]; [| discriminate].
    now apply set_bloch_state_derived in H.
  - unfold apply_gate in H.
    destruct (apply_gate_to_bloch (_theta self) (_phi self) g)
      as [[theta phi] | e]; [| discriminate].
    now apply set_bloch_state_derived in H.
Qed.

(** A method that raises leaves the coefficients and the cache as they
    were. *)
Lemma failed_method_keeps_cache
  (mu : Mutation) (self s' : BlochOrbitalState) (e : Exception) :
  run_mutation mu self = (Raise e, s') ->
  _orbital_coeffs s' = _orbital_coeffs self
  /\ _density_cache s' = _density_cache self.
Proof.
  assert (Hset : forall theta phi,
             set_bloch_state theta phi self = (Raise e, s') ->
             _orbital_coeffs s' = _orbital_coeffs self
             /\ _density_cache s' = _density_cache self).
  { intros theta phi. unfold set_bloch_state.
    destruct (bloch_to_orbital_coeffs theta phi (basis self));
      intros H; inversion H; subst; split; reflexivity. }
  destruct mu as [theta phi | [a b] | name | g | b];
    cbn [run_mutation]; intros H.
  - now apply Hset in H.
  - unfold set_state_vector in H.
    destruct (state_vector_to_bloch _) as [theta phi].
    destruct (bloch_to_orbital_coeffs theta phi (basis self));
      inversion H; subst; split; reflexivity.
  - unfold set_pure_state in H.
    destruct (BLOCH_PURE_STATES name) as [[theta phi] |].
    + now apply Hset in H.
    + inversion H; subst; split; reflexivity.
  - unfold apply_gate in H.
    destruct (apply_gate_to_bloch (_theta self) (_phi self) g)
      as [[theta phi] | e'].
    + now apply Hset in H.
    + inversion H; subst; split; reflexivity.
  - discriminate.
Qed.

(** A setter on an object of a supported basis returns. *)
Lemma set_bloch_state_returns (theta phi : R) (self : BlochOrbitalState) :
  supported_basis (basis self) ->
  exists s', set_bloch_state theta phi self = (Ok tt, s').
Proof.
  intros Hs. unfold set_bloch_state.
  destruct (bloch_to_orbital_coeffs_returns theta phi (basis self) Hs)
    as [coeffs ->].
  eexists. reflexivity.
Qed.

(** C8, as amended.  Each of the four mutating methods, [set_bloch_state],
    [set_state_vector], [set_pure_state] and [apply_gate], when it
    returns, has left the basis as it was, has recomputed the orbital
    coefficients from the new angles and that basis, has set the state
    vector (to the vector of the new angles, or for [set_state_vector]
    to the normalised argument, whose angles are the new ones) and has
    emptied the cache.  The next [calculate_density_grid], whatever its
    arguments, runs the sampler on the new mixture: a grid it returns
    holds the density of the new mixture at every lattice point and is
    the new cache. *)
Theorem mutation_invalidates_cache
  (mu : Mutation) (self s' : BlochOrbitalState) :
  is_method mu ->
  run_mutation mu self = (Ok tt, s') ->
  basis s' = basis self
  /\ _density_cache s' = None
  /\ coeffs_derived s'
  /\ vector_derived mu s'
  /\ (forall resolution extent use_cache grid s'',
         calculate_density_grid resolution extent use_cache s'
         = (Ok grid, s'') ->
         _density_cache s'' = Some grid
         /\ exists e,
              extent_used (_orbital_coeffs s') extent e
              /\ samples (orbital_coeffs_to_density (_orbital_coeffs s'))
                         (linspace (- e) e
                                   (match resolution with
                                    | Some k => k
                                    | None => DEFAULT_GRID_RESOLUTION
                                    end))
                         (snd grid)).
Proof.
  intros Hm H. destruct (method_derived mu self s' Hm H) as (Hb & Hc & Hd & Hv).
  split; [exact Hb |]. split; [exact Hc |].
  split; [exact Hd |]. split; [exact Hv |].
  intros resolution extent use_cache grid s'' Hq.
  destruct (calculate_density_grid_sampled
              s' s'' resolution extent use_cache grid (or_intror Hc) Hq)
    as (-> & e & He & _ & Hs).
  split; [reflexivity |]. now exists e.
Qed.

(** Witness for C8: [set_bloch_state(pi, 0)] on [sampled_state], whose
    cache holds a grid, returns and leaves an object with an empty
    cache and the coefficients of the south pole. *)
Lemma mutation_invalidates_cache_witness :
  _density_cache sampled_state <> None
  /\ exists s',
       run_mutation (SetBlochState PI 0) sampled_state = (Ok tt, s')
       /\ _density_cache s' = None
       /\ coeffs_derived s'
       /\ _theta s' = PI.
Proof.
  destruct ground_state_sampled as (g1 & _ & Hc & _ & Hb & _).
  split; [rewrite Hc; discriminate |].
  assert (Hs : supported_basis (basis sampled_state)).
  { rewrite Hb. left. reflexivity. }
  destruct (set_bloch_state_returns PI 0 sampled_state Hs) as [s' Hr].
  exists s'. split; [exact Hr |].
  destruct (mutation_invalidates_cache
              (SetBlochState PI 0) sampled_state s' I Hr)
    as (_ & Hcache & Hd & _).
  split; [exact Hcache |]. split; [exact Hd |].
  apply set_bloch_state_ok in Hr as (coeffs & _ & ->). reflexivity.
Defined.

(** C8 as first stated fails for a change of basis: assigning
    [basis = 'pp'] on [sampled_state] succeeds, keeps the cached grid and
    the [sp] coefficients, and the next query still returns the grid
    sampled before the change. *)
Lemma basis_assignment_keeps_cache :
  fst (run_mutation (AssignBasis "pp") sampled_state) = Ok tt
  /\ _density_cache (snd (run_mutation (AssignBasis "pp") sampled_state))
     <> None
  /\ ~ coeffs_derived (snd (run_mutation (AssignBasis "pp") sampled_state))
  /\ fst (calculate_density_grid None None true
            (snd (run_mutation (AssignBasis "pp") sampled_state)))
     = fst (calculate_density_grid (Some 2%nat) (Some 10) true ground_state).
Proof.
  destruct ground_state_sampled
    as (g1 & Hcall & Hc & _ & _ & Ht & Hp & Hco).
  cbn [run_mutation assign_basis fst snd].
  split; [reflexivity |].
  split; [cbn [_density_cache]; rewrite Hc; discriminate |].
  split.
  - unfold coeffs_derived. cbn [_theta _phi basis _orbital_coeffs].
    rewrite Ht, Hp, Hco, bloch_to_orbital_coeffs_pp.
    unfold ground_state. cbn [_orbital_coeffs]. discriminate.
  - rewrite Hcall. cbn [fst].
    erewrite calculate_density_grid_hit; [reflexivity |].
    cbn [_density_cache]. exact Hc.
Qed.

(* ------------------------------------------------------------------ *)
(** ** Interference *)

Lemma norm_factor_2_0_pos : 0 < norm_factor 2 0.
Proof.
  unfold norm_factor, factorial. simpl.
  apply sqrt_lt_R0. lra.
Qed.

(** Summing densities instead of amplitudes gives another number: for
    the mixture [1s + 2s] at the nucleus the cross term is positive. *)
Remark density_is_not_sum_of_densities :
  exists d_coherent d_sum,
    orbital_coeffs_to_density
      [ ((1, 0, 0)%Z, C1); ((2, 0, 0)%Z, C1) ] 0 0 0 = Ok d_coherent
    /\ density_sum [ ((1, 0, 0)%Z, C1); ((2, 0, 0)%Z, C1) ] 0 0 0 = Ok d_sum
    /\ d_sum < d_coherent.
Proof.
  assert (Hv1 : valid_qn 1 0 0) by (unfold valid_qn; simpl; lia).
  assert (Hv2 : valid_qn 2 0 0) by (unfold valid_qn; simpl; lia).
  pose proof (hydrogen_orbital_origin_l0 1 true Hv1) as H1.
  pose proof (hydrogen_orbital_origin_l0 2 true Hv2) as H2.
  rewrite norm_factor_1_0 in H1.
  set (s := sqrt (1 / (4 * PI))) in *.
  set (b := norm_factor 2 0) in *.
  assert (Hs : 0 < s).
  { apply sqrt_lt_R0, Rdiv_lt_0_compat; [lra |]. pose proof PI_RGT_0. lra. }
  assert (Hb : 0 < b) by apply norm_factor_2_0_pos.
  eexists. eexists.
  unfold orbital_coeffs_to_density.
  cbn [accumulate_psi density_sum]. rewrite H1, H2. cbn [bind].
  split; [reflexivity |]. split; [reflexivity |].
  rewrite !Cabs_sqr. unfold Cplus, Cmult, C1, RtoC. cbn [fst snd].
  assert (Hcross : 0 < 2 * s * (b * s)).
  { apply Rmult_lt_0_compat; [lra |]. now apply Rmult_lt_0_compat. }
  ring_simplify. nra.
Qed.

(* ------------------------------------------------------------------ *)
(** ** The embedding on small inputs *)

Example validate_rejects_l_eq_n :
  validate_quantum_numbers 2 2 0 = Raise BadAzimuthal.
Proof. reflexivity. Qed.

Example validate_rejects_n_8 :
  validate_quantum_numbers 8 0 0 = Raise ExceedsMaxPrincipal.
Proof. reflexivity. Qed.

Example float_of_string_decimal : float_of_string "1.5" = Ok (3 / 2).
Proof.
  unfold float_of_string. cbn [strip_sign take_digits digit_of].
  simpl. f_equal. field.
Qed.

Example float_of_string_malformed :
  float_of_string "pi" = Raise BadFloatLiteral.
Proof. reflexivity. Qed.

Example rotation_gate_by_name (v : Vector2) :
  apply_gate_to_state v (GateName "RX(1.5)")
  = Ok (matvec (rotation_x (3 / 2)) v).
Proof.
  unfold apply_gate_to_state.
  cbn [String.prefix slice_3_m1 String.substring String.length Nat.sub
       Ascii.eqb Bool.eqb].
  replace (float_of_string _) with (Ok (3 / 2) : result R)
    by (symmetry; apply float_of_string_decimal).
  reflexivity.
Qed.

Example unknown_gate_raises (v : Vector2) :
  apply_gate_to_state v (GateName "Q") = Raise UnknownGate.
Proof. reflexivity. Qed.

Example pure_state_minus_i :
  BLOCH_PURE_STATES "|-i⟩" = Some (PI / 2, 3 * PI / 2).
Proof. reflexivity. Qed.

Example linspace_3 : linspace (-10) 10 3 = [-10; 0; 10].
Proof.
  unfold linspace. simpl. repeat f_equal; field.
Qed.

(** The check of the repository's superposition test: the object built
    at [(pi/2, 0)] in basis [sp] reports probability 1/2 for 1s and for
    2s. *)
Example plus_state_probabilities :
  exists s,
    new_BlochOrbitalState (PI / 2) 0 "sp" = Ok s
    /\ dict_get (get_orbital_probabilities s) (1, 0, 0)%Z 0 = 1 / 2
    /\ dict_get (get_orbital_probabilities s) (2, 0, 0)%Z 0 = 1 / 2.
Proof.
  eexists. split; [apply new_BlochOrbitalState_sp |].
  destruct Cabs_plus_state as [Ha Hb].
  unfold get_orbital_probabilities.
  cbn [_orbital_coeffs map dict_get qn_eqb Z.eqb Pos.eqb andb].
  rewrite Ha, Hb, half_from_sqrt2. split; reflexivity.
Qed.

(* ================================================================== *)
(** * Further properties of the code *)

(* ------------------------------------------------------------------ *)
(** ** Constants and validation *)

(** X1.  [validate_quantum_numbers] returns [True] exactly on the triples
    with [1 <= n <= 7], [0 <= l < n] and [|m| <= l], raises on every other
    triple, and never returns [False]. *)
Theorem validate_quantum_numbers_iff (n l m : Z) :
  (validate_quantum_numbers n l m = Ok true <-> valid_qn n l m)
  /\ (raises (validate_quantum_numbers n l m) <-> ~ valid_qn n l m)
  /\ validate_quantum_numbers n l m <> Ok false.
Proof.
  assert (Hcases : validate_quantum_numbers n l m = Ok true
                   \/ raises (validate_quantum_numbers n l m)).
  { unfold validate_quantum_numbers, raises.
    destruct (n <? 1)%Z; [right; eauto |].
    destruct ((l <? 0) || (n <=? l))%Z%bool; [right; eauto |].
    destruct (l <? Z.abs m)%Z; [right; eauto |].
    destruct (MAX_PRINCIPAL_QUANTUM_NUMBER <? n)%Z; [right; eauto |].
    now left. }
  split; [| split].
  - split.
    + apply validate_quantum_numbers_valid.
    + apply validate_quantum_numbers_ok.
  - split.
    + intros [e He] Hv.
      rewrite (validate_quantum_numbers_ok _ _ _ Hv) in He. discriminate.
    + intros Hn. destruct Hcases as [Hok | Hr]; [| exact Hr].
      exfalso. apply Hn. now apply validate_quantum_numbers_valid in Hok.
  - destruct Hcases as [Hok | [e He]]; rewrite ?Hok, ?He; discriminate.
Qed.



Lemma rgba_neq (a b c d a' b' c' d' : R) :
  a <> a' \/ b <> b' \/ c <> c' ->
  (a, b, c, d) <> (a', b', c', d').
Proof. intros H E. injection E as -> -> -> ->. tauto. Qed.

Lemma ORBITAL_LETTERS_outside (l : Z) :
  (l < 0 \/ 6 < l)%Z -> ORBITAL_LETTERS l = None.
Proof.
  intros H. destruct l as [| p | p]; try reflexivity; [lia |].
  destruct p as [[[p | p |] | [p | p |] |] | [[p | p |] | [p | p |] |] |];
    try reflexivity; lia.
Qed.

(** X3.  With a phase given, [get_orbital_color] answers the positive
    colour when the phase is [>= 0] and the negative one otherwise.
    Without a phase it answers the colour of the letter of [l]: orange
    for p ([l = 1]), green for d, purple for f, yellow for g, cyan for h,
    magenta for i, and the blue of the s orbitals for [l = 0] and for
    every [l] outside the table; the gray default of the second lookup
    is never returned. *)
Theorem get_orbital_color_cases (l : Z) :
  (forall ph, 0 <= ph -> get_orbital_color l (Some ph) = PHASE_POSITIVE_COLOR)
  /\ (forall ph, ph < 0 -> get_orbital_color l (Some ph) = PHASE_NEGATIVE_COLOR)
  /\ get_orbital_color l None
     = (if (l =? 1)%Z then (1.0, 0.5, 0.2, 0.7)
        else if (l =? 2)%Z then (0.2, 1.0, 0.4, 0.7)
        else if (l =? 3)%Z then (0.8, 0.2, 1.0, 0.7)
        else if (l =? 4)%Z then (1.0, 1.0, 0.2, 0.7)
        else if (l =? 5)%Z then (0.2, 1.0, 1.0, 0.7)
        else if (l =? 6)%Z then (1.0, 0.2, 0.6, 0.7)
        else (0.2, 0.6, 1.0, 0.7))
  /\ get_orbital_color l None <> FALLBACK_GRAY.
Proof.
  assert (Hc : get_orbital_color l None
     = (if (l =? 1)%Z then (1.0, 0.5, 0.2, 0.7)
        else if (l =? 2)%Z then (0.2, 1.0, 0.4, 0.7)
        else if (l =? 3)%Z then (0.8, 0.2, 1.0, 0.7)
        else if (l =? 4)%Z then (1.0, 1.0, 0.2, 0.7)
        else if (l =? 5)%Z then (0.2, 1.0, 1.0, 0.7)
        else if (l =? 6)%Z then (1.0, 0.2, 0.6, 0.7)
        else (0.2, 0.6, 1.0, 0.7))).
  { destruct (Z.eqb_spec l 1) as [-> | H1]; [reflexivity |].
    destruct (Z.eqb_spec l 2) as [-> | H2]; [reflexivity |].
    destruct (Z.eqb_spec l 3) as [-> | H3]; [reflexivity |].
    destruct (Z.eqb_spec l 4) as [-> | H4]; [reflexivity |].
    destruct (Z.eqb_spec l 5) as [-> | H5]; [reflexivity |].
    destruct (Z.eqb_spec l 6) as [-> | H6]; [reflexivity |].
    destruct (Z.eq_dec l 0) as [-> | H0]; [reflexivity |].
    unfold get_orbital_color.
    rewrite ORBITAL_LETTERS_outside by lia. reflexivity. }
  split; [| split; [| split]].
  - intros ph H. cbn [get_orbital_color].
    destruct (Rle_dec 0 ph); [reflexivity | lra].
  - intros ph H. cbn [get_orbital_color].
    destruct (Rle_dec 0 ph); [lra | reflexivity].
  - exact Hc.
  - rewrite Hc. unfold FALLBACK_GRAY.
    repeat match goal with
           | |- context [(l =? ?k)%Z] => destruct (l =? k)%Z
           end; apply rgba_neq; lra.
Qed.

(** Witness for X3: a negative phase is drawn in the negative colour. *)
Lemma get_orbital_color_cases_witness :
  get_orbital_color 2 (Some (-1)) = PHASE_NEGATIVE_COLOR.
Proof.
  apply (proj1 (proj2 (get_orbital_color_cases 2))). lra.
Defined.

(* ------------------------------------------------------------------ *)
(** ** Coordinates and single orbitals *)

Lemma arctan2_range (y x : R) : - PI < arctan2 y x <= PI.
Proof.
  pose proof PI_RGT_0 as Hpi. unfold arctan2.
  pose proof (atan_bound (y / x)) as [Hlo Hhi].
  destruct (Rlt_dec 0 x); [lra |].
  destruct (Rlt_dec x 0) as [Hx |].
  - destruct (Rle_dec 0 y) as [Hy | Hy].
    + assert (Hq : y / x <= 0).
      { assert (Hi : / x < 0) by (apply Rinv_lt_0_compat, Hx).
        unfold Rdiv. nra. }
      assert (Ha : atan (y / x) <= 0).
      { destruct Hq as [Hq | Hq].
        - apply Rlt_le. rewrite <- atan_0. now apply atan_increasing.
        - rewrite Hq, atan_0. lra. }
      lra.
    + assert (Hq : 0 < y / x).
      { replace (y / x) with (- y * / - x) by (field; lra).
        apply Rmult_lt_0_compat; [lra |]. apply Rinv_0_lt_compat. lra. }
      assert (Ha : 0 < atan (y / x)).
      { rewrite <- atan_0. now apply atan_increasing. }
      lra.
  - destruct (Rlt_dec 0 y); [lra |].
    destruct (Rlt_dec y 0); lra.
Qed.

(** X4.  [cartesian_to_spherical] answers a radius [>= 0], a polar angle
    in [[0, pi]] and an azimuth in [[0, 2 pi)], at every point, the
    origin included. *)
Theorem cartesian_to_spherical_range (x y z : R) :
  let '(r, theta, phi) := cartesian_to_spherical x y z in
  0 <= r /\ 0 <= theta <= PI /\ 0 <= phi < 2 * PI.
Proof.
  unfold cartesian_to_spherical. pose proof PI_RGT_0 as Hpi.
  split; [apply sqrt_pos |]. split; [apply acos_bound |].
  pose proof (arctan2_range y x) as [Hlo Hhi].
  destruct (Rlt_dec (arctan2 y x) 0); lra.
Qed.

Lemma clip_inside (v : R) : -1 <= v <= 1 -> clip v (-1) 1 = v.
Proof.
  intros [H1 H2]. unfold clip.
  rewrite Rmax_left by assumption. now apply Rmin_left.
Qed.

(** X5.  From spherical coordinates with [r >= 1e-10], [0 < theta < pi]
    and [0 <= phi < 2 pi], the Cartesian point
    [(r sin theta cos phi, r sin theta sin phi, r cos theta)], as the
    integrands of the verification functions build it, is converted back
    to [(r, theta, phi)]. *)
Theorem cartesian_to_spherical_inverse (r theta phi : R) :
  1 / 10 ^ 10 <= r -> 0 < theta < PI -> 0 <= phi < 2 * PI ->
  cartesian_to_spherical (r * sin theta * cos phi)
                         (r * sin theta * sin phi)
                         (r * cos theta)
  = (r, theta, phi).
Proof.
  intros Hr [Ht0 Ht1] [Hp0 Hp1]. pose proof PI_RGT_0 as Hpi.
  assert (He : 0 < 1 / 10 ^ 10).
  { apply Rdiv_lt_0_compat; [lra | apply pow_lt; lra]. }
  assert (Hrpos : 0 < r) by lra.
  assert (Hs : 0 < sin theta) by (apply sin_gt_0; lra).
  assert (Hsr : 0 < r * sin theta) by now apply Rmult_lt_0_compat.
  unfold cartesian_to_spherical.
  assert (Hrad : sqrt ((r * sin theta * cos phi) ^ 2
                       + (r * sin theta * sin phi) ^ 2
                       + (r * cos theta) ^ 2) = r).
  { replace ((r * sin theta * cos phi) ^ 2 + (r * sin theta * sin phi) ^ 2
             + (r * cos theta) ^ 2)
      with (r * r * (sin theta * sin theta * (cos phi * cos phi + sin phi * sin phi)
                     + cos theta * cos theta)) by ring.
    rewrite sin2_cos2_half.
    replace (sin theta * sin theta * 1 + cos theta * cos theta)
      with (cos theta * cos theta + sin theta * sin theta) by ring.
    rewrite sin2_cos2_half, Rmult_1_r. apply sqrt_square. lra. }
  rewrite Hrad, Rmax_left by assumption.
  replace (r * cos theta / r) with (cos theta) by (field; lra).
  rewrite clip_inside by apply COS_bound.
  rewrite acos_cos by lra.
  assert (Hphi : (if Rlt_dec (arctan2 (r * sin theta * sin phi)
                                      (r * sin theta * cos phi)) 0
                  then arctan2 (r * sin theta * sin phi)
                               (r * sin theta * cos phi) + 2 * PI
                  else arctan2 (r * sin theta * sin phi)
                               (r * sin theta * cos phi)) = phi).
  { destruct (Rle_dec phi PI) as [Hle | Hgt].
    - rewrite (arctan2_polar _ Hsr phi) by lra.
      destruct (Rlt_dec phi 0); [lra | reflexivity].
    - rewrite <- (sin_shift_2PI phi), <- (cos_shift_2PI phi).
      rewrite (arctan2_polar _ Hsr (phi - 2 * PI)) by lra.
      destruct (Rlt_dec (phi - 2 * PI) 0); lra. }
  rewrite Hphi. reflexivity.
Qed.

(** Witness for X5: the point at distance 1 on the x axis. *)
Lemma cartesian_to_spherical_inverse_witness :
  cartesian_to_spherical (1 * sin (PI / 2) * cos 0)
                         (1 * sin (PI / 2) * sin 0)
                         (1 * cos (PI / 2))
  = (1, PI / 2, 0).
Proof.
  pose proof PI_RGT_0 as Hpi.
  apply (cartesian_to_spherical_inverse 1 (PI / 2) 0); lra.
Defined.

(** X6.  [hydrogen_orbital] and [radial_wavefunction] return exactly on
    valid quantum numbers, whatever the point: the only exceptions are
    those of the validation. *)
Theorem hydrogen_orbital_returns_iff (n l m : Z) (x y z r : R) (real_form : bool) :
  (returns (hydrogen_orbital n l m x y z real_form) <-> valid_qn n l m)
  /\ (returns (radial_wavefunction n l r) <-> valid_qn n l 0).
Proof.
  split; split.
  - intros [v Hv]. rewrite hydrogen_orbital_value in Hv.
    destruct (validate_quantum_numbers n l m) as [b | e] eqn:E;
      [| discriminate].
    now apply validate_quantum_numbers_valid in E.
  - intros Hv. rewrite hydrogen_orbital_value.
    rewrite (validate_quantum_numbers_ok _ _ _ Hv). cbn [bind]. now eexists.
  - intros [v Hv]. unfold radial_wavefunction in Hv.
    destruct (validate_quantum_numbers n l 0) as [b | e] eqn:E;
      [| discriminate].
    now apply validate_quantum_numbers_valid in E.
  - intros Hv. unfold radial_wavefunction.
    rewrite (validate_quantum_numbers_ok _ _ _ Hv). cbn [bind]. now eexists.
Qed.

(** An s orbital depends on the point through [x^2 + y^2 + z^2] only. *)
Lemma orbital_value_s_radial (n : Z) (x y z x' y' z' : R) (real_form : bool) :
  x ^ 2 + y ^ 2 + z ^ 2 = x' ^ 2 + y' ^ 2 + z' ^ 2 ->
  orbital_value n 0 0 x y z real_form = orbital_value n 0 0 x' y' z' real_form.
Proof.
  intros Hr. unfold orbital_value, cartesian_to_spherical. rewrite Hr.
  unfold spherical_harmonic. cbn [Z.eqb negb andb].
  rewrite Bool.andb_false_r, !sph_harm_00. reflexivity.
Qed.

(** X7.  Every s orbital is spherically symmetric: two points at the same
    distance from the nucleus get the same value of
    [hydrogen_orbital n 0 0]. *)
Theorem hydrogen_orbital_s_symmetric
  (n : Z) (x y z x' y' z' : R) (real_form : bool) :
  x ^ 2 + y ^ 2 + z ^ 2 = x' ^ 2 + y' ^ 2 + z' ^ 2 ->
  hydrogen_orbital n 0 0 x y z real_form
  = hydrogen_orbital n 0 0 x' y' z' real_form.
Proof.
  intros Hr. rewrite !hydrogen_orbital_value.
  now rewrite (orbital_value_s_radial n x y z x' y' z' real_form Hr).
Qed.

(** Witness for X7: the points [(5, 0, 0)] and [(0, 0, -5)] of the
    repository's symmetry test. *)
Lemma hydrogen_orbital_s_symmetric_witness :
  hydrogen_orbital 1 0 0 5 0 0 true = hydrogen_orbital 1 0 0 0 0 (-5) true.
Proof.
  apply (hydrogen_orbital_s_symmetric 1 5 0 0 0 0 (-5) true). ring.
Defined.

Lemma radial_wavefunction_positive (n l : Z) (r : R) :
  valid_qn n l 0 -> 0 < r ->
  radial_wavefunction n l r =
  Ok (norm_factor n l * exp (- (2 * r / IZR n) / 2)
      * powerRZ (2 * r / IZR n) l
      * generalized_laguerre (n - l - 1) (2 * l + 1) (2 * r / IZR n)).
Proof.
  intros Hv Hr. unfold radial_wavefunction.
  rewrite (validate_quantum_numbers_ok _ _ _ Hv). cbn [bind].
  destruct (Rlt_dec 0 r); [reflexivity | lra].
Qed.

(** X8.  The special case at [r = 0] fits the formula for 1s, where
    [radial_wavefunction 1 0 r = 2 exp(-r)] for every [r >= 0], but not
    for 2s: the value returned at [r = 0] is [norm_factor 2 0], while for
    every [0 < r <= 0.1] the value is at least [1.8] times that
    factor. *)
Theorem radial_wavefunction_at_zero :
  (forall r, 0 <= r -> radial_wavefunction 1 0 r = Ok (2 * exp (- r)))
  /\ radial_wavefunction 2 0 0 = Ok (norm_factor 2 0)
  /\ (forall r, 0 < r <= 0.1 ->
        exists v, radial_wavefunction 2 0 r = Ok v
                  /\ 1.8 * norm_factor 2 0 <= v).
Proof.
  assert (Hv1 : valid_qn 1 0 0) by (unfold valid_qn; simpl; lia).
  assert (Hv2 : valid_qn 2 0 0) by (unfold valid_qn; simpl; lia).
  split; [| split].
  - intros r [Hr | <-].
    + rewrite (radial_wavefunction_positive _ _ _ Hv1 Hr), norm_factor_1_0.
      unfold generalized_laguerre. cbn [Z.sub Z.add Z.mul Z.opp Z.pos_sub
        Z.to_nat Pos.to_nat eval_genlaguerre powerRZ].
      f_equal. replace (- (2 * r / 1) / 2) with (- r) by field. ring.
    + rewrite (radial_wavefunction_origin _ _ Hv1). cbn [Z.ltb Z.compare].
      rewrite norm_factor_1_0, Ropp_0, exp_0. f_equal. ring.
  - now rewrite (radial_wavefunction_origin _ _ Hv2).
  - intros r [Hr Hr1]. eexists.
    split; [apply (radial_wavefunction_positive _ _ _ Hv2 Hr) |].
    pose proof norm_factor_2_0_pos as HN.
    set (N := norm_factor 2 0) in *.
    unfold generalized_laguerre.
    replace (eval_genlaguerre (Z.to_nat (2 - 0 - 1)) (IZR (2 * 0 + 1))
                              (2 * r / 2))
      with (1 + 1 - r) by (simpl; field).
    replace (powerRZ (2 * r / 2) 0) with 1 by reflexivity.
    replace (- (2 * r / 2) / 2) with (- r / 2) by field.
    pose proof (exp_ineq1_le (- r / 2)) as He.
    assert (Hlow : 0.95 <= exp (- r / 2)) by lra.
    assert (Hfac : 1.9 <= 1 + 1 - r) by lra.
    assert (Hprod : 0.95 * 1.9 <= exp (- r / 2) * (1 + 1 - r)).
    { apply Rmult_le_compat; lra. }
    replace (N * exp (- r / 2) * 1 * (1 + 1 - r))
      with (N * (exp (- r / 2) * (1 + 1 - r))) by ring.
    apply Rle_trans with (r2 := N * (0.95 * 1.9)); [nra |].
    apply Rmult_le_compat_l; lra.
Qed.

(** Witness for X8: the 2s radial function at [r = 0.1]. *)
Lemma radial_wavefunction_at_zero_witness :
  exists v, radial_wavefunction 2 0 0.1 = Ok v /\ 1.8 * norm_factor 2 0 <= v.
Proof.
  apply (proj2 (proj2 radial_wavefunction_at_zero) 0.1). lra.
Defined.

(* ------------------------------------------------------------------ *)
(** ** Sampling lattices *)

Lemma cubic_triple_map {A : Type} (f : R -> R -> R -> A) (axis : list R)
  (k : nat) :
  length axis = k ->
  cubic k
        (map (fun xi => map (fun yj => map (fun zk => f xi yj zk) axis) axis)
             axis).
Proof.
  intros <-. split; [apply length_map |].
  apply Forall_map, Forall_forall. intros xi _.
  split; [apply length_map |].
  apply Forall_map, Forall_forall. intros yj _. apply length_map.
Qed.

(** X9.  A grid produced by the sampling step of
    [BlochOrbitalState.calculate_density_grid] at resolution [k] consists
    of four arrays of shape [k x k x k]; with no resolution given the
    shape is [64 x 64 x 64]. *)
Theorem sample_density_grid_cubic
  (coeffs : OrbitalCoeffs) (resolution : option nat) (extent : option R)
  (x_grid y_grid z_grid density_grid : Array3 R) :
  sample_density_grid coeffs resolution extent
  = Ok (x_grid, y_grid, z_grid, density_grid) ->
  let k := match resolution with
           | Some k => k
           | None => 64%nat
           end in
  cubic k x_grid /\ cubic k y_grid /\ cubic k z_grid /\ cubic k density_grid.
Proof.
  intros H k.
  destruct (sample_density_grid_entries _ _ _ _ H) as (e & _ & _ & Hk).
  cbn zeta in Hk.
  assert (Hx : x_grid = fst (fst (fst (x_grid, y_grid, z_grid, density_grid))))
    by reflexivity.
  assert (Hy : y_grid = snd (fst (fst (x_grid, y_grid, z_grid, density_grid))))
    by reflexivity.
  assert (Hz : z_grid = snd (fst (x_grid, y_grid, z_grid, density_grid)))
    by reflexivity.
  assert (Hd : density_grid = snd (x_grid, y_grid, z_grid, density_grid))
    by reflexivity.
  rewrite Hk in Hx, Hy, Hz, Hd. cbn [fst snd] in Hx, Hy, Hz, Hd.
  subst x_grid y_grid z_grid density_grid.
  assert (Hlen : length (linspace (- e) e
                           (match resolution with
                            | Some k => k
                            | None => DEFAULT_GRID_RESOLUTION
                            end)) = k).
  { rewrite linspace_length. subst k. now destruct resolution. }
  split; [| split; [| split]].
  - now apply (cubic_triple_map (fun xi _ _ => xi)).
  - now apply (cubic_triple_map (fun _ yj _ => yj)).
  - now apply (cubic_triple_map (fun _ _ zk => zk)).
  - now apply (cubic_triple_map
                 (fun xi yj zk => Cabs (psi_total_value coeffs xi yj zk) ^ 2)).
Qed.

(** Witness for X9: the first sampling of [ground_state]. *)
Lemma sample_density_grid_cubic_witness :
  exists grid,
    sample_density_grid (_orbital_coeffs ground_state) (Some 2%nat) (Some 10)
    = Ok grid
    /\ cubic 2 (snd grid).
Proof.
  destruct (sample_density_grid_sp (fst (bloch_to_state_vector 0 0))
              (snd (bloch_to_state_vector 0 0)) 2 10)
    as [[[[xg yg] zg] d] Hg].
  exists (xg, yg, zg, d). split; [exact Hg |].
  apply (sample_density_grid_cubic _ _ _ _ _ _ _ Hg).
Defined.

Lemma elementwise_ext {A : Type} (f g : R -> R -> R -> A)
  (xg yg zg : Array3 R) :
  (forall x y z, f x y z = g x y z) ->
  elementwise f xg yg zg = elementwise g xg yg zg.
Proof.
  intros H. unfold elementwise.
  apply map_ext. intros [px [py pz]].
  apply map_ext. intros [qx [qy qz]].
  apply map_ext. intros [x [y z]]. apply H.
Qed.

Lemma elementwise_map {A B : Type} (h : A -> B) (f : R -> R -> R -> A)
  (xg yg zg : Array3 R) :
  map (map (map h)) (elementwise f xg yg zg)
  = elementwise (fun x y z => h (f x y z)) xg yg zg.
Proof.
  unfold elementwise. rewrite map_map.
  apply map_ext. intros [px [py pz]]. rewrite map_map.
  apply map_ext. intros [qx [qy qz]]. rewrite map_map.
  apply map_ext. intros [x [y z]]. reflexivity.
Qed.

(** The module-level sampling of a valid orbital with [m = 0]. *)
Lemma module_density_grid_m0 (n l : Z) (e : R) (k : nat) :
  valid_qn n l 0 ->
  hydrogen_wavefunctions.calculate_density_grid n l 0 (Some e) k =
  let axis := linspace (- e) e k in
  let '(xg, yg, zg) := meshgrid_ij axis axis axis in
  Ok (xg, yg, zg,
      elementwise (fun x y z => Cabs (orbital_value n l 0 x y z true) ^ 2)
                  xg yg zg).
Proof.
  intros Hv.
  unfold hydrogen_wavefunctions.calculate_density_grid,
    hydrogen_wavefunctions.calculate_orbital_grid, hydrogen_orbital_nd,
    probability_density_nd, meshgrid_ij.
  rewrite (validate_quantum_numbers_ok _ _ _ Hv). cbn [bind Z.eqb].
  now rewrite elementwise_map.
Qed.

(** The class-level sampling of a two-orbital mixture on which the
    array loop returns. *)
Lemma sample_density_grid_two (k1 k2 : QuantumNumbers) (a b : C)
  (e : R) (k : nat) (d : option dtype) :
  accumulate_nd [ (k1, a); (k2, b) ] None = Ok d ->
  sample_density_grid [ (k1, a); (k2, b) ] (Some k) (Some e) =
  let axis := linspace (- e) e k in
  let '(xg, yg, zg) := meshgrid_ij axis axis axis in
  Ok (xg, yg, zg,
      elementwise
        (fun x y z => Cabs (psi_total_value [ (k1, a); (k2, b) ] x y z) ^ 2)
        xg yg zg).
Proof.
  intros Hc.
  unfold sample_density_grid, orbital_coeffs_to_density_nd, meshgrid_ij.
  cbn [bind]. rewrite Hc. reflexivity.
Qed.

(** X10.  The object built at the north pole in basis [sp] samples the
    same grid as the module-level [calculate_density_grid(1, 0, 0)], and
    the one built at the south pole the same grid as
    [calculate_density_grid(2, 0, 0)], for every azimuth, once extent and
    resolution are given explicitly. *)
Theorem pole_states_sample_single_orbitals
  (phi e : R) (k : nat) (use_cache : bool) :
  (exists s,
      new_BlochOrbitalState 0 phi "sp" = Ok s
      /\ fst (calculate_density_grid (Some k) (Some e) use_cache s)
         = hydrogen_wavefunctions.calculate_density_grid 1 0 0 (Some e) k)
  /\ (exists s,
        new_BlochOrbitalState PI phi "sp" = Ok s
        /\ fst (calculate_density_grid (Some k) (Some e) use_cache s)
           = hydrogen_wavefunctions.calculate_density_grid 2 0 0 (Some e) k).
Proof.
  assert (Hv1 : valid_qn 1 0 0) by (unfold valid_qn; simpl; lia).
  assert (Hv2 : valid_qn 2 0 0) by (unfold valid_qn; simpl; lia).
  split; eexists; (split; [apply new_BlochOrbitalState_sp |]);
    rewrite calculate_density_grid_miss by (right; reflexivity);
    cbn [_orbital_coeffs];
    rewrite (sample_density_grid_two _ _ _ _ _ _ _ (accumulate_nd_sp _ _));
    rewrite bloch_to_state_vector_components; cbn [fst snd].
  - rewrite (module_density_grid_m0 1 0 e k Hv1). cbn zeta.
    unfold meshgrid_ij. cbn [fst].
    do 2 f_equal. apply elementwise_ext. intros x y z.
    replace (0 / 2) with 0 by field. rewrite cos_0, sin_0.
    rewrite !Cabs_sqr. unfold psi_total_value. cbn [fold_left].
    unfold Cplus, Cmult, RtoC. cbn [fst snd]. ring.
  - rewrite (module_density_grid_m0 2 0 e k Hv2). cbn zeta.
    unfold meshgrid_ij. cbn [fst].
    do 2 f_equal. apply elementwise_ext. intros x y z.
    rewrite cos_PI2, sin_PI2.
    rewrite !Cabs_sqr. unfold psi_total_value. cbn [fold_left].
    unfold Cplus, Cmult, RtoC. cbn [fst snd].
    set (p := fst (orbital_value 2 0 0 x y z true)).
    set (q := snd (orbital_value 2 0 0 x y z true)).
    replace ((0 + (0 * fst (orbital_value 1 0 0 x y z true)
                   - 0 * snd (orbital_value 1 0 0 x y z true))
              + (cos phi * 1 * p - sin phi * 1 * q))
             * (0 + (0 * fst (orbital_value 1 0 0 x y z true)
                     - 0 * snd (orbital_value 1 0 0 x y z true))
                + (cos phi * 1 * p - sin phi * 1 * q))
             + (0 + (0 * snd (orbital_value 1 0 0 x y z true)
                     + 0 * fst (orbital_value 1 0 0 x y z true))
                + (cos phi * 1 * q + sin phi * 1 * p))
               * (0 + (0 * snd (orbital_value 1 0 0 x y z true)
                       + 0 * fst (orbital_value 1 0 0 x y z true))
                  + (cos phi * 1 * q + sin phi * 1 * p)))
      with ((cos phi * cos phi + sin phi * sin phi) * (p * p + q * q))
      by ring.
    rewrite sin2_cos2_half. ring.
Qed.

(* ------------------------------------------------------------------ *)
(** ** Gates on state vectors *)

Lemma unitary_preserves_norm (g : Matrix2) (v : Vector2) :
  unitary g -> norm_sq (matvec g v) = norm_sq v.
Proof.
  destruct g as [[[a1 a2] [b1 b2]] [[c1 c2] [d1 d2]]].
  destruct v as [[x1 x2] [y1 y2]].
  unfold unitary, norm_sq, matvec. intros (HA & HB & HK).
  rewrite !Cabs_sqr in *. unfold Cplus, Cmult, Cconj, C0 in *.
  cbn [fst snd] in *.
  assert (Hre : a1 * b1 - - a2 * b2 + (c1 * d1 - - c2 * d2) = 0)
    by congruence.
  assert (Him : a1 * b2 + - a2 * b1 + (c1 * d2 + - c2 * d1) = 0)
    by congruence.
  replace ((a1 * x1 - a2 * x2 + (b1 * y1 - b2 * y2))
           * (a1 * x1 - a2 * x2 + (b1 * y1 - b2 * y2))
           + (a1 * x2 + a2 * x1 + (b1 * y2 + b2 * y1))
             * (a1 * x2 + a2 * x1 + (b1 * y2 + b2 * y1))
           + ((c1 * x1 - c2 * x2 + (d1 * y1 - d2 * y2))
              * (c1 * x1 - c2 * x2 + (d1 * y1 - d2 * y2))
              + (c1 * x2 + c2 * x1 + (d1 * y2 + d2 * y1))
                * (c1 * x2 + c2 * x1 + (d1 * y2 + d2 * y1))))
    with ((a1 * a1 + a2 * a2 + (c1 * c1 + c2 * c2)) * (x1 * x1 + x2 * x2)
          + (b1 * b1 + b2 * b2 + (d1 * d1 + d2 * d2)) * (y1 * y1 + y2 * y2)
          + 2 * ((a1 * b1 - - a2 * b2 + (c1 * d1 - - c2 * d2))
                 * (x1 * y1 + x2 * y2)
                 - (a1 * b2 + - a2 * b1 + (c1 * d2 + - c2 * d1))
                   * (x1 * y2 - x2 * y1)))
    by ring.
  rewrite HA, HB, Hre, Him. ring.
Qed.

Lemma Cabs_sqr_Cexp_imag (z : C) : fst z = 0 -> Cabs (Cexp z) ^ 2 = 1.
Proof.
  destruct z as [u t]. cbn [fst]. intros ->.
  rewrite Cabs_sqr. unfold Cexp. cbn [fst snd]. rewrite exp_0.
  pose proof (sin2_cos2_half t). lra.
Qed.

Lemma unitary_PAULI_X : unitary PAULI_X.
Proof.
  unfold unitary, PAULI_X. rewrite !Cabs_sqr.
  unfold Cplus, Cmult, Cconj, C0, C1. cbn [fst snd].
  repeat split; try lra. f_equal; ring.
Qed.

Lemma unitary_PAULI_Y : unitary PAULI_Y.
Proof.
  unfold unitary, PAULI_Y. rewrite !Cabs_sqr.
  unfold Cplus, Cmult, Cconj, Copp, Ci, C0. cbn [fst snd].
  repeat split; try lra. f_equal; ring.
Qed.

Lemma unitary_PAULI_Z : unitary PAULI_Z.
Proof.
  unfold unitary, PAULI_Z. rewrite !Cabs_sqr.
  unfold Cplus, Cmult, Cconj, RtoC, C0, C1. cbn [fst snd].
  repeat split; try lra. f_equal; ring.
Qed.

Lemma unitary_IDENTITY : unitary IDENTITY.
Proof.
  unfold unitary, IDENTITY. rewrite !Cabs_sqr.
  unfold Cplus, Cmult, Cconj, C0, C1. cbn [fst snd].
  repeat split; try lra. f_equal; ring.
Qed.

Lemma unitary_S_GATE : unitary S_GATE.
Proof.
  unfold unitary, S_GATE. rewrite !Cabs_sqr.
  unfold Cplus, Cmult, Cconj, Ci, C0, C1. cbn [fst snd].
  repeat split; try lra. f_equal; ring.
Qed.

Lemma unitary_HADAMARD : unitary HADAMARD.
Proof.
  pose proof inv_sqrt2_sqr as Hs.
  unfold unitary, HADAMARD, Mdiv_real. rewrite !Cabs_sqr.
  unfold Cplus, Cmult, Cconj, Cdiv_real, RtoC, C0, C1, Rdiv.
  cbn [fst snd]. repeat split; try nra. f_equal; nra.
Qed.

Lemma unitary_T_GATE : unitary T_GATE.
Proof.
  unfold unitary, T_GATE.
  assert (Hd : Cabs (Cexp (Cdiv_real (Cscale Ci PI) 4)) ^ 2 = 1).
  { apply Cabs_sqr_Cexp_imag. unfold Cdiv_real, Cscale, Ci. cbn [fst].
    field. }
  rewrite Hd. rewrite !Cabs_sqr.
  unfold Cplus, Cmult, Cconj, C0, C1. cbn [fst snd].
  repeat split; try lra. f_equal; ring.
Qed.

Lemma unitary_rotation_x (t : R) : unitary (rotation_x t).
Proof.
  pose proof (sin2_cos2_half (t / 2)) as H.
  unfold unitary, rotation_x. rewrite !Cabs_sqr.
  unfold Cplus, Cmult, Cconj, Cscale, Copp, Ci, RtoC, C0. cbn [fst snd].
  repeat split; try nra. f_equal; ring.
Qed.

Lemma unitary_rotation_y (t : R) : unitary (rotation_y t).
Proof.
  pose proof (sin2_cos2_half (t / 2)) as H.
  unfold unitary, rotation_y. rewrite !Cabs_sqr.
  unfold Cplus, Cmult, Cconj, RtoC, C0. cbn [fst snd].
  repeat split; try nra. f_equal; ring.
Qed.

Lemma unitary_rotation_z (t : R) : unitary (rotation_z t).
Proof.
  unfold unitary, rotation_z.
  assert (H1 : Cabs (Cexp (Cdiv_real (Cscale (Copp Ci) t) 2)) ^ 2 = 1).
  { apply Cabs_sqr_Cexp_imag. unfold Cdiv_real, Cscale, Copp, Ci.
    cbn [fst]. field. }
  assert (H2 : Cabs (Cexp (Cdiv_real (Cscale Ci t) 2)) ^ 2 = 1).
  { apply Cabs_sqr_Cexp_imag. unfold Cdiv_real, Cscale, Ci. cbn [fst].
    field. }
  rewrite H1, H2. rewrite !Cabs_sqr.
  unfold Cplus, Cmult, Cconj, C0. cbn [fst snd].
  repeat split; try lra. f_equal; ring.
Qed.

(** The matrix a gate name stands for, when it stands for one. *)
Lemma QUANTUM_GATES_cases (name : string) :
  (named_gate name /\ exists g, QUANTUM_GATES name = Some g /\ unitary g)
  \/ (~ named_gate name /\ QUANTUM_GATES name = None).
Proof.
  unfold QUANTUM_GATES, named_gate.
  destruct (String.eqb_spec name "X") as [-> | HX].
  { left. split; [cbn; auto |]. eexists. split; [reflexivity | apply unitary_PAULI_X]. }
  destruct (String.eqb_spec name "Y") as [-> | HY].
  { left. split; [cbn; auto |]. eexists. split; [reflexivity | apply unitary_PAULI_Y]. }
  destruct (String.eqb_spec name "Z") as [-> | HZ].
  { left. split; [cbn; auto |]. eexists. split; [reflexivity | apply unitary_PAULI_Z]. }
  destruct (String.eqb_spec name "H") as [-> | HH].
  { left. split; [cbn; auto 10 |]. eexists. split; [reflexivity | apply unitary_HADAMARD]. }
  destruct (String.eqb_spec name "S") as [-> | HS].
  { left. split; [cbn; auto 10 |]. eexists. split; [reflexivity | apply unitary_S_GATE]. }
  destruct (String.eqb_spec name "T") as [-> | HT].
  { left. split; [cbn; auto 10 |]. eexists. split; [reflexivity | apply unitary_T_GATE]. }
  destruct (String.eqb_spec name "I") as [-> | HI].
  { left. split; [cbn; auto 10 |]. eexists. split; [reflexivity | apply unitary_IDENTITY]. }
  right. split; [| reflexivity].
  cbn. intros [E | [E | [E | [E | [E | [E | [E | []]]]]]]]; congruence.
Qed.

(** Each of the seven gate names of the table applies, as a unitary
    matrix. *)
Lemma named_gate_applies (v : Vector2) (name : string) :
  named_gate name ->
  exists g,
    unitary g /\ apply_gate_to_state v (GateName name) = Ok (matvec g v).
Proof.
  intros [<- | [<- | [<- | [<- | [<- | [<- | [<- | []]]]]]]];
    eexists; (split; [| reflexivity]).
  - apply unitary_PAULI_X.
  - apply unitary_PAULI_Y.
  - apply unitary_PAULI_Z.
  - apply unitary_HADAMARD.
  - apply unitary_S_GATE.
  - apply unitary_T_GATE.
  - apply unitary_IDENTITY.
Qed.

(** X11.  Each of the seven gates of the table, given by name, and each
    rotation matrix [rotation_x(a)], [rotation_y(a)], [rotation_z(a)],
    given as a matrix, applies and preserves the norm of the state
    vector. *)
Theorem named_gate_preserves_norm (v : Vector2) :
  (forall name,
      named_gate name ->
      exists v',
        apply_gate_to_state v (GateName name) = Ok v'
        /\ norm_sq v' = norm_sq v)
  /\ (forall a g,
        In g [rotation_x a; rotation_y a; rotation_z a] ->
        exists v',
          apply_gate_to_state v (GateMatrix g) = Ok v'
          /\ norm_sq v' = norm_sq v).
Proof.
  split.
  - intros name Hn. destruct (named_gate_applies v name Hn) as (g & Hu & ->).
    eexists. split; [reflexivity |]. now apply unitary_preserves_norm.
  - intros a g Hg. exists (matvec g v). split; [reflexivity |].
    apply unitary_preserves_norm.
    destruct Hg as [<- | [<- | [<- | []]]].
    + apply unitary_rotation_x.
    + apply unitary_rotation_y.
    + apply unitary_rotation_z.
Qed.

(** Witness for X11: the Hadamard gate on the vector [(3, 4i)]. *)
Lemma named_gate_preserves_norm_witness :
  exists v',
    apply_gate_to_state ((3, 0), (0, 4)) (GateName "H") = Ok v'
    /\ norm_sq v' = norm_sq ((3, 0), (0, 4)).
Proof.
  apply (proj1 (named_gate_preserves_norm ((3, 0), (0, 4))) "H"%string).
  cbn. auto.
Defined.

Lemma float_of_string_error (s : string) (e : Exception) :
  float_of_string s = Raise e -> e = BadFloatLiteral.
Proof.
  unfold float_of_string.
  destruct (strip_sign s) as [neg s1].
  destruct (take_digits s1 0 0) as [[ip ic] s2].
  destruct (match s2 with
            | String "."%char r => take_digits r 0 0
            | _ => (0%nat, 0%nat, s2)
            end) as [[fp fc] s3].
  destruct (ic + fc =? 0)%nat; [congruence |].
  destruct s3 as [| c r]; [discriminate |].
  destruct (Ascii.eqb c "e" || Ascii.eqb c "E")%bool; [| congruence].
  destruct (strip_sign r) as [eneg r1].
  destruct (take_digits r1 0 0) as [[ev ec] r2].
  destruct ec; [congruence |]. destruct r2; [discriminate | congruence].
Qed.

(** X12.  A gate name that is not read as a rotation raises [UnknownGate]
    exactly when it is none of [X], [Y], [Z], [H], [S], [T], [I]; a
    rotation name never raises [UnknownGate]; a matrix argument never
    raises. *)
Theorem apply_gate_to_state_unknown (v : Vector2) (name : string) :
  (apply_gate_to_state v (GateName name) = Raise UnknownGate
   <-> rotation_name name = false /\ ~ named_gate name)
  /\ (forall g, apply_gate_to_state v (GateMatrix g) = Ok (matvec g v)).
Proof.
  split; [| reflexivity].
  unfold apply_gate_to_state, rotation_name.
  destruct (String.prefix "RX(" name).
  { destruct (float_of_string (slice_3_m1 name)) as [t | e] eqn:E;
      [| apply float_of_string_error in E; subst e];
      cbn; split; solve [discriminate | intros [? _]; discriminate]. }
  destruct (String.prefix "RY(" name).
  { destruct (float_of_string (slice_3_m1 name)) as [t | e] eqn:E;
      [| apply float_of_string_error in E; subst e];
      cbn; split; solve [discriminate | intros [? _]; discriminate]. }
  destruct (String.prefix "RZ(" name).
  { destruct (float_of_string (slice_3_m1 name)) as [t | e] eqn:E;
      [| apply float_of_string_error in E; subst e];
      cbn; split; solve [discriminate | intros [? _]; discriminate]. }
  cbn [orb].
  destruct (QUANTUM_GATES_cases name) as [[Hn (g & -> & _)] | [Hn ->]];
    cbn [bind]; split.
  - discriminate.
  - intros [_ Hnn]. contradiction.
  - intros _. now split.
  - reflexivity.
Qed.

Lemma T_phase : Cexp (Cdiv_real (Cscale Ci PI) 4) = (/ sqrt 2, / sqrt 2).
Proof.
  unfold Cexp, Cdiv_real, Cscale, Ci. cbn [fst snd].
  replace (0 * PI / 4) with 0 by field.
  replace (1 * PI / 4) with (PI / 4) by field.
  rewrite exp_0, cos_PI4, sin_PI4. f_equal; field; pose proof sqrt2_pos; lra.
Qed.

Lemma matvec_twice_HADAMARD (v : Vector2) :
  matvec HADAMARD (matvec HADAMARD v) = v.
Proof.
  destruct v as [[x1 x2] [y1 y2]]. pose proof inv_sqrt2_sqr as Hs.
  unfold matvec, HADAMARD, Mdiv_real, Cdiv_real, Cplus, Cmult, C1, RtoC, Rdiv.
  cbn [fst snd]. set (k := / sqrt 2) in *.
  f_equal; f_equal.
  - transitivity (k * k * (2 * x1)); [ring | rewrite Hs; field].
  - transitivity (k * k * (2 * x2)); [ring | rewrite Hs; field].
  - transitivity (k * k * (2 * y1)); [ring | rewrite Hs; field].
  - transitivity (k * k * (2 * y2)); [ring | rewrite Hs; field].
Qed.

Lemma matvec_twice_T (v : Vector2) :
  matvec T_GATE (matvec T_GATE v) = matvec S_GATE v.
Proof.
  destruct v as [[x1 x2] [y1 y2]]. pose proof inv_sqrt2_sqr as Hs.
  unfold T_GATE. rewrite T_phase.
  unfold matvec, S_GATE, Cplus, Cmult, C0, C1, Ci. cbn [fst snd].
  set (k := / sqrt 2) in *.
  f_equal; f_equal.
  - ring.
  - ring.
  - transitivity (k * k * (- (2 * y2))); [ring | rewrite Hs; field].
  - transitivity (k * k * (2 * y1)); [ring | rewrite Hs; field].
Qed.

(** X13.  Applying [X], [Y], [Z], [H] or [I] twice gives the vector
    back; applying [S] twice is applying [Z], and applying [T] twice is
    applying [S]. *)
Theorem gates_applied_twice (v : Vector2) :
  (forall name,
      In name ["X"; "Y"; "Z"; "H"; "I"]%string ->
      (v1 <- apply_gate_to_state v (GateName name) ;;
       apply_gate_to_state v1 (GateName name)) = Ok v)
  /\ (v1 <- apply_gate_to_state v (GateName "S") ;;
      apply_gate_to_state v1 (GateName "S"))
     = apply_gate_to_state v (GateName "Z")
  /\ (v1 <- apply_gate_to_state v (GateName "T") ;;
      apply_gate_to_state v1 (GateName "T"))
     = apply_gate_to_state v (GateName "S").
Proof.
  split; [| split].
  - intros name [<- | [<- | [<- | [<- | [<- | []]]]]].
    + change (Ok (matvec PAULI_X (matvec PAULI_X v)) = Ok v).
      destruct v as [v0 v1]. now rewrite !matvec_PAULI_X.
    + change (Ok (matvec PAULI_Y (matvec PAULI_Y v)) = Ok v).
      destruct v as [[x1 x2] [y1 y2]].
      unfold matvec, PAULI_Y, Cplus, Cmult, Copp, Ci, C0. cbn [fst snd].
      do 2 f_equal; f_equal; ring.
    + change (Ok (matvec PAULI_Z (matvec PAULI_Z v)) = Ok v).
      destruct v as [[x1 x2] [y1 y2]].
      unfold matvec, PAULI_Z, Cplus, Cmult, RtoC, C0, C1. cbn [fst snd].
      do 2 f_equal; f_equal; ring.
    + change (Ok (matvec HADAMARD (matvec HADAMARD v)) = Ok v).
      now rewrite matvec_twice_HADAMARD.
    + change (Ok (matvec IDENTITY (matvec IDENTITY v)) = Ok v).
      destruct v as [[x1 x2] [y1 y2]].
      unfold matvec, IDENTITY, Cplus, Cmult, C0, C1. cbn [fst snd].
      do 2 f_equal; f_equal; ring.
  - change (Ok (matvec S_GATE (matvec S_GATE v)) = Ok (matvec PAULI_Z v)).
    destruct v as [[x1 x2] [y1 y2]].
    unfold matvec, S_GATE, PAULI_Z, Cplus, Cmult, RtoC, Ci, C0, C1.
    cbn [fst snd]. do 2 f_equal; f_equal; ring.
  - change (Ok (matvec T_GATE (matvec T_GATE v)) = Ok (matvec S_GATE v)).
    now rewrite matvec_twice_T.
Qed.

(** Witness for X13: the Hadamard gate twice on [(3, 4i)]. *)
Lemma gates_applied_twice_witness :
  (v1 <- apply_gate_to_state ((3, 0), (0, 4)) (GateName "H") ;;
   apply_gate_to_state v1 (GateName "H")) = Ok ((3, 0), (0, 4)).
Proof.
  apply (proj1 (gates_applied_twice ((3, 0), (0, 4))) "H"%string).
  cbn. auto.
Defined.

(* ------------------------------------------------------------------ *)
(** ** Gates on orbital mixtures *)

Lemma forward_total_prob (theta phi : R) (basis : string) (coeffs : OrbitalCoeffs) :
  bloch_to_orbital_coeffs theta phi basis = Ok coeffs ->
  total_prob coeffs = 1.
Proof.
  intros H.
  destruct (supported_basis_dec basis) as [Hs | Hn].
  - pose proof (bloch_to_state_vector_unit theta phi) as Hu.
    destruct Hs as [E | [E | [E | []]]]; subst basis.
    + rewrite bloch_to_orbital_coeffs_sp in H. apply Ok_inj in H. subst.
      unfold total_prob; cbn [fold_left]. lra.
    + rewrite bloch_to_orbital_coeffs_pp in H. apply Ok_inj in H. subst.
      unfold total_prob; cbn [fold_left].
      rewrite !Cabs_sqr. unfold RtoC; cbn [fst snd].
      pose proof (sin2_cos2_half (theta / 2)).
      pose proof (sin2_cos2_half phi). nra.
    + rewrite bloch_to_orbital_coeffs_sd in H. apply Ok_inj in H. subst.
      unfold total_prob; cbn [fold_left]. lra.
  - rewrite (bloch_to_orbital_coeffs_other _ _ _ Hn) in H. discriminate.
Qed.

(** X16.  [apply_gate_to_orbitals] has no unknown basis: every basis name
    other than [sp] and [pp] is handled as [sd], and [UnknownBasis] is
    never raised. *)
Theorem apply_gate_to_orbitals_any_basis
  (coeffs : OrbitalCoeffs) (gate : GateArg) (basis : string) :
  (basis <> "sp"%string -> basis <> "pp"%string ->
   apply_gate_to_orbitals coeffs gate basis
   = apply_gate_to_orbitals coeffs gate "sd")
  /\ apply_gate_to_orbitals coeffs gate basis <> Raise UnknownBasis.
Proof.
  split.
  - intros H1 H2. unfold apply_gate_to_orbitals.
    destruct (String.eqb_spec basis "sp"); [contradiction |].
    destruct (String.eqb_spec basis "pp"); [contradiction |].
    reflexivity.
  - unfold apply_gate_to_orbitals.
    set (state := if String.eqb basis "sp" then _ else _).
    destruct state as [alpha beta].
    assert (Hg : apply_gate_to_state (alpha, beta) gate <> Raise UnknownBasis).
    { unfold apply_gate_to_state. destruct gate as [name | g];
        [| cbn; discriminate].
      destruct (String.prefix "RX(" name).
      { destruct (float_of_string (slice_3_m1 name)) as [t | e] eqn:E;
          [cbn; discriminate |].
        apply float_of_string_error in E. subst. cbn. discriminate. }
      destruct (String.prefix "RY(" name).
      { destruct (float_of_string (slice_3_m1 name)) as [t | e] eqn:E;
          [cbn; discriminate |].
        apply float_of_string_error in E. subst. cbn. discriminate. }
      destruct (String.prefix "RZ(" name).
      { destruct (float_of_string (slice_3_m1 name)) as [t | e] eqn:E;
          [cbn; discriminate |].
        apply float_of_string_error in E. subst. cbn. discriminate. }
      destruct (QUANTUM_GATES name); cbn; discriminate. }
    destruct (apply_gate_to_state (alpha, beta) gate) as [[a b] | e];
      cbn [bind]; [| congruence].
    destruct (String.eqb basis "pp").
    + destruct (state_vector_to_bloch (a, b)) as [t p].
      rewrite bloch_to_orbital_coeffs_pp. discriminate.
    + destruct (String.eqb basis "sp"); discriminate.
Qed.

(** Witness for X16: the basis name [ds] is handled as [sd]. *)
Lemma apply_gate_to_orbitals_any_basis_witness :
  apply_gate_to_orbitals [] (GateName "X") "ds"
  = apply_gate_to_orbitals [] (GateName "X") "sd".
Proof.
  apply (proj1 (apply_gate_to_orbitals_any_basis [] (GateName "X") "ds"));
    discriminate.
Defined.

Lemma total_prob_two (k1 k2 : QuantumNumbers) (a b : C) :
  total_prob [ (k1, a); (k2, b) ] = norm_sq (a, b).
Proof. unfold total_prob, norm_sq. cbn [fold_left fst snd]. ring. Qed.

(** X17.  In the bases [sp] and [sd], on the mixture of any angles, each
    of the seven gates of the table applies and gives a mixture over the
    same orbitals whose probabilities still sum to 1. *)
Theorem apply_gate_to_orbitals_normalized
  (theta phi : R) (basis name : string) :
  basis = "sp"%string \/ basis = "sd"%string ->
  named_gate name ->
  exists coeffs coeffs',
    bloch_to_orbital_coeffs theta phi basis = Ok coeffs
    /\ apply_gate_to_orbitals coeffs (GateName name) basis = Ok coeffs'
    /\ map fst coeffs' = map fst coeffs
    /\ total_prob coeffs' = 1.
Proof.
  intros Hb Hn.
  pose proof (bloch_to_state_vector_unit theta phi) as Hu.
  destruct (named_gate_applies
              (fst (bloch_to_state_vector theta phi),
               snd (bloch_to_state_vector theta phi)) name Hn)
    as (g & Hg & Ha).
  pose proof (unitary_preserves_norm g
                (fst (bloch_to_state_vector theta phi),
                 snd (bloch_to_state_vector theta phi)) Hg) as Hnorm.
  destruct (matvec g _) as [a b].
  assert (Hp : forall k1 k2, total_prob [ (k1, a); (k2, b) ] = 1).
  { intros k1 k2. rewrite total_prob_two, Hnorm.
    unfold norm_sq. cbn [fst snd]. exact Hu. }
  destruct Hb as [-> | ->].
  - rewrite bloch_to_orbital_coeffs_sp.
    exists [ ((1, 0, 0)%Z, fst (bloch_to_state_vector theta phi));
             ((2, 0, 0)%Z, snd (bloch_to_state_vector theta phi)) ].
    exists [ ((1, 0, 0)%Z, a); ((2, 0, 0)%Z, b) ].
    split; [reflexivity |].
    split; [| split; [reflexivity | apply Hp]].
    unfold apply_gate_to_orbitals.
    cbn [String.eqb Ascii.eqb Bool.eqb dict_get qn_eqb Z.eqb Pos.eqb andb].
    rewrite Ha. reflexivity.
  - rewrite bloch_to_orbital_coeffs_sd.
    exists [ ((1, 0, 0)%Z, fst (bloch_to_state_vector theta phi));
             ((3, 2, 0)%Z, snd (bloch_to_state_vector theta phi)) ].
    exists [ ((1, 0, 0)%Z, a); ((3, 2, 0)%Z, b) ].
    split; [reflexivity |].
    split; [| split; [reflexivity | apply Hp]].
    unfold apply_gate_to_orbitals.
    cbn [String.eqb Ascii.eqb Bool.eqb dict_get qn_eqb Z.eqb Pos.eqb andb].
    rewrite Ha. reflexivity.
Qed.

(** Witness for X17: the gate [X] on the [sp] mixture of the north
    pole. *)
Lemma apply_gate_to_orbitals_normalized_witness :
  exists coeffs coeffs',
    bloch_to_orbital_coeffs 0 0 "sp" = Ok coeffs
    /\ apply_gate_to_orbitals coeffs (GateName "X") "sp" = Ok coeffs'
    /\ map fst coeffs' = map fst coeffs
    /\ total_prob coeffs' = 1.
Proof.
  apply (apply_gate_to_orbitals_normalized 0 0 "sp" "X").
  - left. reflexivity.
  - cbn. auto.
Defined.

Lemma matvec_IDENTITY (v : Vector2) : matvec IDENTITY v = v.
Proof.
  destruct v as [[x1 x2] [y1 y2]].
  unfold matvec, IDENTITY, Cplus, Cmult, C0, C1. cbn [fst snd].
  f_equal; f_equal; ring.
Qed.

(** The round trip through the state vector away from the north pole,
    for use below. *)
Lemma bloch_round_trip (theta phi : R) :
  0 < theta <= PI -> 0 <= phi < 2 * PI ->
  state_vector_to_bloch (bloch_to_state_vector theta phi) = (theta, phi).
Proof.
  intros [Ht0 Ht1] Hphi. pose proof PI_RGT_0 as Hpi.
  pose proof (bloch_to_state_vector_unit theta phi) as Hu.
  rewrite bloch_to_state_vector_components in Hu. cbn [fst snd] in Hu.
  rewrite bloch_to_state_vector_components.
  etransitivity; [exact (state_vector_to_bloch_unit _ _ Hu) |].
  assert (Hc : 0 <= cos (theta / 2)) by (apply cos_ge_0; lra).
  assert (Hs : 0 < sin (theta / 2)) by (apply sin_gt_0; lra).
  f_equal.
  - rewrite Cabs_real, Rabs_pos_eq by assumption.
    rewrite acos_cos by lra. field.
  - unfold angle; cbn [fst snd].
    rewrite (arctan2_0_nonneg _ Hc).
    now apply azimuth_recovered.
Qed.

Lemma bloch_to_state_vector_period (theta phi : R) :
  bloch_to_state_vector theta (phi - 2 * PI) = bloch_to_state_vector theta phi.
Proof.
  rewrite !bloch_to_state_vector_components.
  now rewrite sin_shift_2PI, cos_shift_2PI.
Qed.

(** X18.  In basis [pp], for [theta] in [[0, pi]] and [phi] in
    [[0, 2 pi)], applying the identity gate to the mixture of
    [(theta, phi)] gives that mixture back: the angles backed out of the
    three real coefficients are the ones that produced them. *)
Theorem apply_identity_to_pp (theta phi : R) (coeffs : OrbitalCoeffs) :
  0 <= theta <= PI -> 0 <= phi < 2 * PI ->
  bloch_to_orbital_coeffs theta phi "pp" = Ok coeffs ->
  apply_gate_to_orbitals coeffs (GateName "I") "pp" = Ok coeffs.
Proof.
  intros [Ht0 Ht1] [Hp0 Hp1] Hf. pose proof PI_RGT_0 as Hpi.
  rewrite bloch_to_orbital_coeffs_pp in Hf. apply Ok_inj in Hf. subst coeffs.
  set (s := sin (theta / 2)). set (c := cos (theta / 2)).
  assert (Hstep :
    apply_gate_to_orbitals
      [ ((2, 1, 1)%Z, RtoC (s * cos phi)); ((2, 1, -1)%Z, RtoC (s * sin phi));
        ((2, 1, 0)%Z, RtoC c) ] (GateName "I") "pp"
    = let '(t, p) :=
        state_vector_to_bloch
          (bloch_to_state_vector (2 * acos c)
                                 (arctan2 (s * sin phi) (s * cos phi))) in
      bloch_to_orbital_coeffs t p "pp").
  { unfold apply_gate_to_orbitals.
    cbn [String.eqb Ascii.eqb Bool.eqb dict_get qn_eqb Z.eqb Pos.eqb andb
         Creal RtoC fst].
    change (apply_gate_to_state ?v (GateName "I")) with (Ok (matvec IDENTITY v)).
    cbn [bind]. rewrite matvec_IDENTITY. reflexivity. }
  rewrite Hstep. clear Hstep.
  assert (Hth : 2 * acos c = theta).
  { unfold c. rewrite acos_cos by lra. field. }
  rewrite Hth.
  destruct Ht0 as [Ht0 | <-].
  - assert (Hs : 0 < s) by (apply sin_gt_0; lra).
    assert (Hv : bloch_to_state_vector
                   theta (arctan2 (s * sin phi) (s * cos phi))
                 = bloch_to_state_vector theta phi).
    { destruct (Rle_dec phi PI) as [Hle | Hgt].
      - now rewrite (arctan2_polar _ Hs phi) by lra.
      - rewrite <- (sin_shift_2PI phi), <- (cos_shift_2PI phi).
        rewrite (arctan2_polar _ Hs (phi - 2 * PI)) by lra.
        apply bloch_to_state_vector_period. }
    rewrite Hv, bloch_round_trip by lra.
    apply bloch_to_orbital_coeffs_pp.
  - rewrite round_trip_north_pole, bloch_to_orbital_coeffs_pp.
    unfold s, c. replace (0 / 2) with 0 by field.
    rewrite sin_0, !Rmult_0_l. reflexivity.
Qed.

(** Witness for X18: the mixture of [|+>] in basis [pp]. *)
Lemma apply_identity_to_pp_witness :
  apply_gate_to_orbitals
    [ ((2, 1, 1)%Z, RtoC (sin (PI / 2 / 2) * cos 0));
      ((2, 1, -1)%Z, RtoC (sin (PI / 2 / 2) * sin 0));
      ((2, 1, 0)%Z, RtoC (cos (PI / 2 / 2))) ] (GateName "I") "pp"
  = Ok [ ((2, 1, 1)%Z, RtoC (sin (PI / 2 / 2) * cos 0));
         ((2, 1, -1)%Z, RtoC (sin (PI / 2 / 2) * sin 0));
         ((2, 1, 0)%Z, RtoC (cos (PI / 2 / 2))) ].
Proof.
  pose proof PI_RGT_0 as Hpi.
  apply (apply_identity_to_pp (PI / 2) 0); [lra | lra |].
  apply bloch_to_orbital_coeffs_pp.
Defined.

(* ------------------------------------------------------------------ *)
(** ** Analysis and named superpositions *)

Lemma isclose_refl_1 : isclose 1 1 = true.
Proof.
  unfold isclose. replace (1 - 1) with 0 by ring. rewrite Rabs_R0, Rabs_R1.
  destruct (Rle_dec 0 (1 / 10 ^ 8 + 1 / 10 ^ 5 * 1)) as [_ | Hn];
    [reflexivity | exfalso; apply Hn; lra].
Qed.

(** X19.  [analyze_superposition] raises exactly on an unsupported basis.
    In the bases [sp] and [sd] it reports the probabilities
    [cos^2(theta/2)] and [sin^2(theta/2)] and the coherence
    [(sin theta cos phi - i sin theta sin phi) / 2]; in basis [pp] it
    reports no coherence; in all three the mixture is flagged
    normalized. *)
Theorem analyze_superposition_report (theta phi : R) (basis : string) :
  (raises (analyze_superposition theta phi basis) <-> ~ supported_basis basis)
  /\ (supported_basis basis ->
      exists a,
        analyze_superposition theta phi basis = Ok a
        /\ an_normalized a = true
        /\ (basis = "pp"%string -> an_coherence a = None)
        /\ (basis <> "pp"%string ->
            map snd (an_probabilities a)
            = [cos (theta / 2) ^ 2; sin (theta / 2) ^ 2]
            /\ an_coherence a
               = Some (sin theta * cos phi / 2, - (sin theta * sin phi) / 2))).
Proof.
  assert (Hcoh : forall k1 k2,
    Some (Cmult (fst (bloch_to_state_vector theta phi))
                (Cconj (snd (bloch_to_state_vector theta phi))))
    = Some (sin theta * cos phi / 2, - (sin theta * sin phi) / 2)
    /\ map snd (map (fun '(nlm, coeff) => (nlm, Cabs coeff ^ 2))
                    [ ((k1 : QuantumNumbers), fst (bloch_to_state_vector theta phi));
                      ((k2 : QuantumNumbers), snd (bloch_to_state_vector theta phi)) ])
       = [cos (theta / 2) ^ 2; sin (theta / 2) ^ 2]).
  { intros k1 k2. rewrite bloch_to_state_vector_components. cbn [fst snd map].
    rewrite !Cabs_sqr. unfold Cmult, Cconj. cbn [fst snd].
    assert (Hsin : sin theta = 2 * sin (theta / 2) * cos (theta / 2)).
    { rewrite <- sin_2a. f_equal. field. }
    pose proof (sin2_cos2_half phi) as Hphi.
    split.
    - rewrite Hsin. do 2 f_equal; field.
    - f_equal; [ring |]. f_equal.
      transitivity ((cos phi * cos phi + sin phi * sin phi)
                    * (sin (theta / 2) * sin (theta / 2))); [ring |].
      rewrite Hphi. ring. }
  split.
  - unfold analyze_superposition. split.
    + intros [e He] Hs.
      destruct (bloch_to_orbital_coeffs_returns theta phi basis Hs) as [c Hc].
      rewrite Hc in He. discriminate.
    + intros Hn. rewrite (bloch_to_orbital_coeffs_other _ _ _ Hn).
      now exists UnknownBasis.
  - intros Hs. unfold analyze_superposition.
    destruct (bloch_to_orbital_coeffs theta phi basis) as [coeffs | e] eqn:Hc.
    2:{ destruct (bloch_to_orbital_coeffs_returns theta phi basis Hs) as [c Hc'].
        congruence. }
    cbn [bind]. eexists. split; [reflexivity |].
    cbn [an_normalized an_coherence an_probabilities].
    split; [rewrite (forward_total_prob _ _ _ _ Hc); apply isclose_refl_1 |].
    destruct Hs as [E | [E | [E | []]]]; subst basis.
    + rewrite bloch_to_orbital_coeffs_sp in Hc. apply Ok_inj in Hc. subst.
      split; [discriminate |]. intros _.
      destruct (Hcoh (1, 0, 0)%Z (2, 0, 0)%Z) as [H1 H2]. now split.
    + rewrite bloch_to_orbital_coeffs_pp in Hc. apply Ok_inj in Hc. subst.
      split; [reflexivity | congruence].
    + rewrite bloch_to_orbital_coeffs_sd in Hc. apply Ok_inj in Hc. subst.
      split; [discriminate |]. intros _.
      destruct (Hcoh (1, 0, 0)%Z (3, 2, 0)%Z) as [H1 H2]. now split.
Qed.

(** Witness for X19: basis [sd] at the north pole. *)
Lemma analyze_superposition_report_witness :
  exists a,
    analyze_superposition 0 0 "sd" = Ok a /\ an_normalized a = true.
Proof.
  destruct (proj2 (analyze_superposition_report 0 0 "sd"))
    as (a & Ha & Hn & _).
  - right. right. left. reflexivity.
  - exists a. now split.
Defined.

(** X20.  The four Bell-like mixtures are the [sp] mixtures of the named
    pure states their comments give: [phi_plus] of [|+>], [phi_minus] of
    [|->], [psi_plus] of [|+i>] and [psi_minus] of [|-i>], at the angles
    of [BLOCH_PURE_STATES]; every other name raises. *)
Theorem create_bell_state_named :
  (forall which state_name,
      In (which, state_name)
         [ ("phi_plus", "|+⟩"); ("phi_minus", "|-⟩");
           ("psi_plus", "|+i⟩"); ("psi_minus", "|-i⟩") ]%string ->
      exists theta phi,
        get_pure_state_bloch state_name = Ok (theta, phi)
        /\ create_bell_state which
           = bloch_to_orbital_coeffs theta phi "sp")
  /\ (forall which,
        ~ In which ["phi_plus"; "phi_minus"; "psi_plus"; "psi_minus"]%string ->
        create_bell_state which = Raise UnknownBellState).
Proof.
  pose proof sqrt2_pos as Hs2.
  split.
  - intros which state_name
      [E | [E | [E | [E | []]]]]; inversion E; subst; clear E;
      eexists; eexists; (split; [reflexivity |]);
      rewrite bloch_to_orbital_coeffs_sp, bloch_to_state_vector_components;
      cbn [fst snd];
      replace (PI / 2 / 2) with (PI / 4) by field;
      rewrite cos_PI4, sin_PI4;
      unfold create_bell_state;
      cbn [String.eqb Ascii.eqb Bool.eqb];
      unfold RtoC, Cscale, Copp, Ci; cbn [fst snd].
    + rewrite cos_0, sin_0.
      first [reflexivity | do 4 f_equal; f_equal; ring].
    + rewrite cos_PI, sin_PI.
      first [reflexivity | do 4 f_equal; f_equal; ring].
    + rewrite cos_PI2, sin_PI2.
      first [reflexivity | do 4 f_equal; f_equal; ring].
    + replace (3 * PI / 2) with (3 * (PI / 2)) by field.
      rewrite cos_3PI2, sin_3PI2.
      first [reflexivity | do 4 f_equal; f_equal; ring].
  - intros which Hn. unfold create_bell_state.
    destruct (String.eqb_spec which "phi_plus") as [-> | _];
      [exfalso; apply Hn; cbn; auto |].
    destruct (String.eqb_spec which "phi_minus") as [-> | _];
      [exfalso; apply Hn; cbn; auto |].
    destruct (String.eqb_spec which "psi_plus") as [-> | _];
      [exfalso; apply Hn; cbn; auto |].
    destruct (String.eqb_spec which "psi_minus") as [-> | _];
      [exfalso; apply Hn; cbn; auto |].
    reflexivity.
Qed.

(** Witness for X20: [phi_plus] and [|+>]. *)
Lemma create_bell_state_named_witness :
  exists theta phi,
    get_pure_state_bloch "|+⟩" = Ok (theta, phi)
    /\ create_bell_state "phi_plus"
       = bloch_to_orbital_coeffs theta phi "sp".
Proof.
  apply (proj1 create_bell_state_named "phi_plus"%string "|+⟩"%string).
  left. reflexivity.
Defined.

(* ------------------------------------------------------------------ *)
(** ** Densities of s mixtures along axes and planes *)

(** A mixture of two s orbitals depends on the point through
    [x^2 + y^2 + z^2] only. *)
Lemma psi_total_s_radial (n1 n2 : Z) (a b : C) (x y z x' y' z' : R) :
  x ^ 2 + y ^ 2 + z ^ 2 = x' ^ 2 + y' ^ 2 + z' ^ 2 ->
  psi_total_value [ ((n1, 0, 0)%Z, a); ((n2, 0, 0)%Z, b) ] x y z
  = psi_total_value [ ((n1, 0, 0)%Z, a); ((n2, 0, 0)%Z, b) ] x' y' z'.
Proof.
  intros Hr. unfold psi_total_value. cbn [fold_left].
  now rewrite (orbital_value_s_radial n1 x y z x' y' z' true Hr),
    (orbital_value_s_radial n2 x y z x' y' z' true Hr).
Qed.

(** X22.  In basis [sp], whose two orbitals are s orbitals, the
    interference pattern is the same along the x, the y and the z
    axis. *)
Theorem interference_pattern_sp_isotropic
  (theta phi extent : R) (resolution : nat) :
  get_interference_pattern theta phi "x" extent resolution "sp"
  = get_interference_pattern theta phi "z" extent resolution "sp"
  /\ get_interference_pattern theta phi "y" extent resolution "sp"
     = get_interference_pattern theta phi "z" extent resolution "sp".
Proof.
  unfold get_interference_pattern.
  rewrite bloch_to_orbital_coeffs_sp.
  cbn [bind String.eqb Ascii.eqb Bool.eqb].
  unfold orbital_coeffs_to_density_1d. rewrite accumulate_nd_sp. cbn [bind].
  rewrite !map_map.
  split; do 2 f_equal; apply map_ext; intros p;
    do 2 f_equal; apply psi_total_s_radial; ring.
Qed.

(** X23.  [get_interference_pattern] looks at the basis first: an
    unsupported basis raises [UnknownBasis] whatever the axis; with a
    supported basis, an axis other than [x], [y], [z] raises
    [UnknownAxis]; with a valid axis, the bases sp and sd return
    positions and densities, [resolution] of each, and the basis pp
    raises numpy's casting error, the complex term of 2pz being added in
    place to the float64 sum of 2px and 2py. *)
Theorem get_interference_pattern_outcome
  (theta phi extent : R) (axis basis : string) (resolution : nat) :
  (~ supported_basis basis ->
   get_interference_pattern theta phi axis extent resolution basis
   = Raise UnknownBasis)
  /\ (supported_basis basis ->
      ~ In axis ["x"; "y"; "z"]%string ->
      get_interference_pattern theta phi axis extent resolution basis
      = Raise UnknownAxis)
  /\ (basis = "sp"%string \/ basis = "sd"%string ->
      In axis ["x"; "y"; "z"]%string ->
      exists positions density,
        get_interference_pattern theta phi axis extent resolution basis
        = Ok (positions, density)
        /\ length positions = resolution
        /\ length density = resolution)
  /\ (basis = "pp"%string ->
      In axis ["x"; "y"; "z"]%string ->
      get_interference_pattern theta phi axis extent resolution basis
      = Raise UFuncTypeError).
Proof.
  unfold get_interference_pattern. split; [| split; [| split]].
  - intros Hn. now rewrite (bloch_to_orbital_coeffs_other _ _ _ Hn).
  - intros Hs Ha.
    destruct (bloch_to_orbital_coeffs_returns theta phi basis Hs) as [c ->].
    cbn [bind].
    destruct (String.eqb_spec axis "x") as [-> | _];
      [exfalso; apply Ha; cbn; auto |].
    destruct (String.eqb_spec axis "y") as [-> | _];
      [exfalso; apply Ha; cbn; auto |].
    destruct (String.eqb_spec axis "z") as [-> | _];
      [exfalso; apply Ha; cbn; auto |].
    reflexivity.
  - intros [-> | ->] Ha.
    + rewrite bloch_to_orbital_coeffs_sp.
      destruct Ha as [<- | [<- | [<- | []]]];
        cbn [bind String.eqb Ascii.eqb Bool.eqb];
        unfold orbital_coeffs_to_density_1d;
        rewrite accumulate_nd_sp; cbn [bind];
        eexists; eexists; (split; [reflexivity |]);
        rewrite !length_map; split; apply linspace_length.
    + rewrite bloch_to_orbital_coeffs_sd.
      destruct Ha as [<- | [<- | [<- | []]]];
        cbn [bind String.eqb Ascii.eqb Bool.eqb];
        unfold orbital_coeffs_to_density_1d;
        rewrite accumulate_nd_sd; cbn [bind];
        eexists; eexists; (split; [reflexivity |]);
        rewrite !length_map; split; apply linspace_length.
  - intros -> Ha.
    rewrite bloch_to_orbital_coeffs_pp.
    destruct Ha as [<- | [<- | [<- | []]]];
      cbn [bind String.eqb Ascii.eqb Bool.eqb];
      unfold orbital_coeffs_to_density_1d;
      rewrite accumulate_nd_pp; reflexivity.
Qed.

(** Witness for X23: basis [pp] along the z axis. *)
Lemma get_interference_pattern_outcome_witness :
  get_interference_pattern (PI / 2) 0 "z" 20 100 "pp" = Raise UFuncTypeError.
Proof.
  apply (proj2 (proj2 (proj2 (get_interference_pattern_outcome
                                (PI / 2) 0 20 "z" "pp" 100)))).
  - reflexivity.
  - right. right. left. reflexivity.
Defined.

Lemma elementwise2_ext {A : Type} (f g : R -> R -> A) (c1 c2 : Array2 R) :
  (forall u v, f u v = g u v) ->
  elementwise2 f c1 c2 = elementwise2 g c1 c2.
Proof.
  intros H. unfold elementwise2.
  apply map_ext. intros [p q]. apply map_ext. intros [u v]. apply H.
Qed.

(** X24.  For an object whose mixture consists of two s orbitals (basis
    [sp]), [calculate_slice] gives the same result in the planes [xy],
    [xz] and [yz], at every position. *)
Theorem calculate_slice_s_isotropic
  (self : BlochOrbitalState) (n1 n2 : Z) (a b : C)
  (position : R) (resolution : option nat) (extent : option R) :
  _orbital_coeffs self = [ ((n1, 0, 0)%Z, a); ((n2, 0, 0)%Z, b) ] ->
  calculate_slice "xy" position resolution extent self
  = calculate_slice "yz" position resolution extent self
  /\ calculate_slice "xz" position resolution extent self
     = calculate_slice "yz" position resolution extent self.
Proof.
  intros Hc. unfold calculate_slice. rewrite Hc.
  destruct (match extent with
            | Some e => Ok e
            | None => max_n <- max_principal _ ;; get_orbital_extent max_n
            end) as [e | err]; [| split; reflexivity].
  unfold meshgrid2_ij. cbn [bind String.eqb Ascii.eqb Bool.eqb].
  destruct (accumulate_nd _ None); [| split; reflexivity].
  cbn [bind].
  split; do 2 f_equal; apply elementwise2_ext; intros u v;
    do 2 f_equal; apply psi_total_s_radial; ring.
Qed.

(** Witness for X24: the slices of [ground_state] through the nucleus. *)
Lemma calculate_slice_s_isotropic_witness :
  calculate_slice "xy" 0 (Some 2%nat) (Some 10) ground_state
  = calculate_slice "yz" 0 (Some 2%nat) (Some 10) ground_state.
Proof.
  apply (proj1 (calculate_slice_s_isotropic
                  ground_state 1 2 _ _ 0 (Some 2%nat) (Some 10) eq_refl)).
Defined.

(** The default extent of a mixture written by [bloch_to_orbital_coeffs]
    is in the table. *)
Lemma derived_extent (theta phi : R) (b : string) (coeffs : OrbitalCoeffs)
  (extent : option R) :
  bloch_to_orbital_coeffs theta phi b = Ok coeffs ->
  exists e,
    match extent with
    | Some e => Ok e
    | None => max_n <- max_principal coeffs ;; get_orbital_extent max_n
    end = Ok e.
Proof.
  intros Hc. destruct extent as [e |]; [now exists e |].
  destruct (supported_basis_dec b) as [Hs | Hn];
    [| rewrite (bloch_to_orbital_coeffs_other _ _ _ Hn) in Hc; discriminate].
  destruct Hs as [E | [E | [E | []]]]; subst b.
  - rewrite bloch_to_orbital_coeffs_sp in Hc. apply Ok_inj in Hc. subst.
    cbn [bind max_principal fold_left].
    exists 20. now apply get_orbital_extent_table.
  - rewrite bloch_to_orbital_coeffs_pp in Hc. apply Ok_inj in Hc. subst.
    cbn [bind max_principal fold_left].
    exists 20. now apply get_orbital_extent_table.
  - rewrite bloch_to_orbital_coeffs_sd in Hc. apply Ok_inj in Hc. subst.
    cbn [bind max_principal fold_left].
    exists 30. now apply get_orbital_extent_table.
Qed.

(** X31.  On an object whose coefficients are those of its angles and
    basis, [calculate_slice] raises [UnknownPlane] for a plane other than
    [xy], [xz], [yz], whatever the basis; for a valid plane it raises
    numpy's casting error in basis pp, and in the bases sp and sd it
    returns two coordinate arrays and a density array of [resolution]
    rows each (64 by default). *)
Theorem calculate_slice_outcome
  (self : BlochOrbitalState) (plane : string) (position : R)
  (resolution : option nat) (extent : option R) :
  coeffs_derived self ->
  (~ In plane ["xy"; "xz"; "yz"]%string ->
   calculate_slice plane position resolution extent self
   = Raise UnknownPlane)
  /\ (In plane ["xy"; "xz"; "yz"]%string ->
      basis self = "pp"%string ->
      calculate_slice plane position resolution extent self
      = Raise UFuncTypeError)
  /\ (In plane ["xy"; "xz"; "yz"]%string ->
      basis self = "sp"%string \/ basis self = "sd"%string ->
      exists c1 c2 density,
        calculate_slice plane position resolution extent self
        = Ok (c1, c2, density)
        /\ length c1 = match resolution with
                       | Some k => k
                       | None => DEFAULT_GRID_RESOLUTION
                       end
        /\ length density = length c1).
Proof.
  intros Hd. unfold coeffs_derived in Hd.
  destruct (derived_extent _ _ _ _ extent Hd) as [e He].
  unfold calculate_slice. rewrite He. cbn [bind]. unfold meshgrid2_ij.
  split; [| split].
  - intros Hp.
    destruct (String.eqb_spec plane "xy") as [-> | _];
      [exfalso; apply Hp; cbn; auto |].
    destruct (String.eqb_spec plane "xz") as [-> | _];
      [exfalso; apply Hp; cbn; auto |].
    destruct (String.eqb_spec plane "yz") as [-> | _];
      [exfalso; apply Hp; cbn; auto |].
    reflexivity.
  - intros Hp Hb. rewrite Hb, bloch_to_orbital_coeffs_pp in Hd.
    apply Ok_inj in Hd. rewrite <- Hd.
    destruct Hp as [<- | [<- | [<- | []]]];
      cbn [bind String.eqb Ascii.eqb Bool.eqb];
      rewrite accumulate_nd_pp; reflexivity.
  - intros Hp Hb.
    assert (Ha : accumulate_nd (_orbital_coeffs self) None
                 = Ok (Some complex128)).
    { destruct Hb as [Hb | Hb]; rewrite Hb in Hd.
      - rewrite bloch_to_orbital_coeffs_sp in Hd. apply Ok_inj in Hd.
        rewrite <- Hd. apply accumulate_nd_sp.
      - rewrite bloch_to_orbital_coeffs_sd in Hd. apply Ok_inj in Hd.
        rewrite <- Hd. apply accumulate_nd_sd. }
    rewrite Ha.
    destruct Hp as [<- | [<- | [<- | []]]];
      cbn [bind String.eqb Ascii.eqb Bool.eqb];
      eexists; eexists; eexists; (split; [reflexivity |]);
      unfold elementwise2;
      rewrite !length_map, ?length_combine, !length_map, linspace_length;
      (split; [reflexivity | lia]).
Qed.

(** Witness for X31: the slice through the nucleus of the object built
    at [(pi / 2, 0)] in basis pp. *)
Lemma calculate_slice_outcome_witness :
  exists s,
    new_BlochOrbitalState (PI / 2) 0 "pp" = Ok s
    /\ calculate_slice "xy" 0 None None s = Raise UFuncTypeError.
Proof.
  eexists. split; [apply new_BlochOrbitalState_pp |].
  apply (proj2 (calculate_slice_outcome
                  (mkState "pp" (PI / 2) 0 (bloch_to_state_vector (PI / 2) 0)
                     [ ((2, 1, 1)%Z, RtoC (sin (PI / 2 / 2) * cos 0));
                       ((2, 1, -1)%Z, RtoC (sin (PI / 2 / 2) * sin 0));
                       ((2, 1, 0)%Z, RtoC (cos (PI / 2 / 2))) ]
                     None)
                  "xy" 0 None None (bloch_to_orbital_coeffs_pp (PI / 2) 0))).
  - left. reflexivity.
  - reflexivity.
Defined.

(* ------------------------------------------------------------------ *)
(** ** The dominant orbital *)

Lemma dominant_step_gt (m : R) (d : option (QuantumNumbers * C))
  (nlm : QuantumNumbers) (coeff : C) :
  m < Cabs coeff ->
  dominant_step (m, d) (nlm, coeff) = (Cabs coeff, Some (nlm, coeff)).
Proof.
  intros H. unfold dominant_step.
  destruct (Rlt_dec m (Cabs coeff)); [reflexivity | contradiction].
Qed.

Lemma dominant_step_le (m : R) (d : option (QuantumNumbers * C))
  (nlm : QuantumNumbers) (coeff : C) :
  ~ m < Cabs coeff ->
  dominant_step (m, d) (nlm, coeff) = (m, d).
Proof.
  intros H. unfold dominant_step.
  destruct (Rlt_dec m (Cabs coeff)); [contradiction | reflexivity].
Qed.

(** Invariant of the loop of [get_dominant_orbital], started from a
    running maximum [m] and a running answer [d]. *)
Lemma dominant_fold (l : OrbitalCoeffs) :
  forall (m : R) (d : option (QuantumNumbers * C)),
    (fold_left dominant_step l (m, d) = (m, d)
     /\ Forall (fun it => Cabs (snd it) <= m) l)
    \/ (exists before item after,
           l = before ++ item :: after
           /\ fold_left dominant_step l (m, d) = (Cabs (snd item), Some item)
           /\ m < Cabs (snd item)
           /\ Forall (fun it => Cabs (snd it) < Cabs (snd item)) before
           /\ Forall (fun it => Cabs (snd it) <= Cabs (snd item)) after).
Proof.
  induction l as [| [nlm coeff] l IH]; intros m d.
  - left. split; [reflexivity | constructor].
  - cbn [fold_left].
    destruct (Rlt_dec m (Cabs coeff)) as [Hlt | Hge].
    + rewrite (dominant_step_gt m d nlm coeff Hlt).
      right.
      destruct (IH (Cabs coeff) (Some (nlm, coeff)))
        as [[Hf Hall] | (before & item & after & -> & Hf & Hm & Hb & Ha)].
      * exists [], (nlm, coeff), l. cbn [app snd].
        split; [reflexivity |]. split; [exact Hf |]. split; [exact Hlt |].
        split; [constructor | exact Hall].
      * exists ((nlm, coeff) :: before), item, after. cbn [app].
        split; [reflexivity |]. split; [exact Hf |]. split; [lra |].
        split; [| exact Ha]. constructor; [cbn [snd]; lra | exact Hb].
    + rewrite (dominant_step_le m d nlm coeff Hge).
      destruct (IH m d)
        as [[Hf Hall] | (before & item & after & -> & Hf & Hm & Hb & Ha)].
      * left. split; [exact Hf |]. constructor; [cbn [snd]; lra | exact Hall].
      * right. exists ((nlm, coeff) :: before), item, after. cbn [app].
        split; [reflexivity |]. split; [exact Hf |]. split; [exact Hm |].
        split; [| exact Ha]. constructor; [cbn [snd]; lra | exact Hb].
Qed.

(** X25.  [get_dominant_orbital] answers [None] exactly when every
    coefficient is zero (an empty mixture included); otherwise it answers
    an item with nonzero coefficient whose modulus is strictly larger
    than that of every item before it and at least that of every item
    after it. *)
Theorem get_dominant_orbital_spec (self : BlochOrbitalState) :
  (get_dominant_orbital self = None
   <-> Forall (fun it => Cabs (snd it) = 0) (_orbital_coeffs self))
  /\ (forall item,
        get_dominant_orbital self = Some item ->
        first_maximal (_orbital_coeffs self) item /\ 0 < Cabs (snd item)).
Proof.
  unfold get_dominant_orbital, first_maximal.
  destruct (dominant_fold (_orbital_coeffs self) 0 None)
    as [[Hf Hall] | (before & item & after & Hl & Hf & Hm & Hb & Ha)];
    rewrite Hf; cbn [snd].
  - split; [| discriminate].
    split; [| reflexivity]. intros _.
    eapply Forall_impl; [| exact Hall]. cbn beta. intros it Hle.
    pose proof (Cabs_nonneg (snd it)). lra.
  - split.
    + split; [discriminate |]. intros Hz. exfalso.
      rewrite Hl in Hz. apply Forall_app in Hz as [_ Hz].
      apply Forall_inv in Hz. lra.
    + intros item' E. injection E as <-.
      split; [| exact Hm]. now exists before, after.
Qed.

(** Witness for X25: [ground_state], whose dominant orbital is 1s. *)
Lemma get_dominant_orbital_spec_witness :
  get_dominant_orbital ground_state = Some ((1, 0, 0)%Z, (1, 0))
  /\ first_maximal (_orbital_coeffs ground_state) ((1, 0, 0)%Z, (1, 0))
  /\ 0 < Cabs (snd ((1, 0, 0)%Z, (1, 0))).
Proof.
  assert (H : get_dominant_orbital ground_state = Some ((1, 0, 0)%Z, (1, 0))).
  { unfold get_dominant_orbital, ground_state. cbn [_orbital_coeffs].
    rewrite bloch_to_state_vector_zero. cbn [fst snd fold_left].
    assert (H1 : Cabs (1, 0) = 1) by (rewrite Cabs_real, Rabs_pos_eq; lra).
    assert (H0 : Cabs (0, 0) = 0) by (rewrite Cabs_real, Rabs_R0; lra).
    rewrite dominant_step_gt by lra.
    rewrite dominant_step_le by lra. reflexivity. }
  split; [exact H |].
  exact (proj2 (get_dominant_orbital_spec ground_state) _ H).
Defined.

Lemma total_prob_zero (l : OrbitalCoeffs) :
  Forall (fun it => Cabs (snd it) = 0) l ->
  forall acc,
    fold_left (fun total '(_, coeff) => total + Cabs coeff ^ 2) l acc = acc.
Proof.
  induction 1 as [| [k c] l Hc _ IH]; intros acc; cbn [fold_left].
  - reflexivity.
  - cbn [snd] in Hc. rewrite IH, Hc. ring.
Qed.

(** X26.  After a successful [set_bloch_state], hence after
    construction and after [set_pure_state], which go through it, the
    object has a dominant orbital: [get_dominant_orbital] does not answer
    [None], so the unpacking in [get_visualization_info] does not fail on
    it. *)
Theorem derived_state_has_dominant
  (theta phi : R) (self s' : BlochOrbitalState) :
  set_bloch_state theta phi self = (Ok tt, s') ->
  exists item,
    get_dominant_orbital s' = Some item
    /\ In item (_orbital_coeffs s').
Proof.
  intros H. apply set_bloch_state_derived in H as (_ & _ & Hd & _).
  unfold coeffs_derived in Hd.
  pose proof (forward_total_prob _ _ _ _ Hd) as Ht.
  unfold get_dominant_orbital.
  destruct (dominant_fold (_orbital_coeffs s') 0 None)
    as [[Hf Hall] | (before & item & after & Hl & Hf & Hm & Hb & Ha)].
  - exfalso.
    assert (Hz : Forall (fun it => Cabs (snd it) = 0) (_orbital_coeffs s')).
    { eapply Forall_impl; [| exact Hall]. cbn beta. intros it Hle.
      pose proof (Cabs_nonneg (snd it)). lra. }
    unfold total_prob in Ht. rewrite (total_prob_zero _ Hz) in Ht. lra.
  - exists item. rewrite Hf. split; [reflexivity |].
    rewrite Hl. apply in_elt.
Qed.

(** Witness for X26: [set_bloch_state(pi / 2, 0)] on [ground_state]. *)
Lemma derived_state_has_dominant_witness :
  exists item,
    get_dominant_orbital
      (snd (set_bloch_state (PI / 2) 0 ground_state)) = Some item
    /\ In item
          (_orbital_coeffs (snd (set_bloch_state (PI / 2) 0 ground_state))).
Proof.
  apply (derived_state_has_dominant (PI / 2) 0 ground_state). reflexivity.
Defined.

(* ------------------------------------------------------------------ *)
(** ** Bloch vector and expectation values *)



(* ------------------------------------------------------------------ *)
(** ** Convenience constructors and state labels *)

(** The constructor on a supported basis, and on any other. *)
Lemma new_BlochOrbitalState_supported (theta phi : R) (b : string) :
  supported_basis b ->
  exists coeffs,
    bloch_to_orbital_coeffs theta phi b = Ok coeffs
    /\ new_BlochOrbitalState theta phi b
       = Ok (mkState b theta phi (bloch_to_state_vector theta phi) coeffs None).
Proof.
  intros Hs.
  destruct (bloch_to_orbital_coeffs_returns theta phi b Hs) as [coeffs Hc].
  exists coeffs. split; [exact Hc |].
  unfold new_BlochOrbitalState, set_bloch_state. cbn [basis].
  rewrite Hc. reflexivity.
Qed.

Lemma new_BlochOrbitalState_unsupported (theta phi : R) (b : string) :
  ~ supported_basis b ->
  new_BlochOrbitalState theta phi b = Raise UnknownBasis.
Proof.
  intros Hn. unfold new_BlochOrbitalState, set_bloch_state. cbn [basis].
  rewrite (bloch_to_orbital_coeffs_other theta phi b Hn). reflexivity.
Qed.

(** [create_state] on a supported basis: the default object built first
    leaves no trace. *)
Lemma create_state_supported (name b : string) :
  supported_basis b ->
  create_state name b
  = match BLOCH_PURE_STATES name with
    | None => Raise UnknownState
    | Some (theta, phi) => new_BlochOrbitalState theta phi b
    end.
Proof.
  intros Hs. unfold create_state.
  destruct (new_BlochOrbitalState_supported 0 0 b Hs) as (c0 & _ & ->).
  cbn [bind]. unfold set_pure_state.
  destruct (BLOCH_PURE_STATES name) as [[theta phi] |]; [| reflexivity].
  destruct (new_BlochOrbitalState_supported theta phi b Hs) as (c & Hc & ->).
  unfold set_bloch_state. cbn [basis]. rewrite Hc. reflexivity.
Qed.

(** X28.  [create_state(state_name, basis)] raises the unknown-basis
    error for a basis other than sp, pp and sd (whatever the state name
    is), raises the unknown-state error for a supported basis and a name
    that is not in [BLOCH_PURE_STATES], and otherwise returns the object
    that [create_bloch_state] builds at the angles of the table: the
    default object constructed first leaves no trace. *)
Theorem create_state_cases (name b : string) :
  create_state name b
  = if supported_basis_dec b then
      match BLOCH_PURE_STATES name with
      | None => Raise UnknownState
      | Some (theta, phi) => create_bloch_state theta phi b
      end
    else Raise UnknownBasis.
Proof.
  destruct (supported_basis_dec b) as [Hs | Hn].
  - apply create_state_supported, Hs.
  - unfold create_state.
    rewrite (new_BlochOrbitalState_unsupported 0 0 b Hn). reflexivity.
Qed.

Lemma Cabs_imag (y : R) : Cabs (0, y) = Rabs y.
Proof.
  unfold Cabs; cbn [fst snd].
  replace (0 * 0 + y * y) with (Rsqr y) by (unfold Rsqr; ring).
  apply sqrt_Rsqr_abs.
Qed.

Lemma inv_sqrt2_lt : / sqrt 2 < 0.99.
Proof.
  pose proof inv_sqrt2_sqr. pose proof inv_sqrt2_pos. nra.
Qed.

(** Case analysis on the threshold tests of [_get_state_label]. *)
Ltac split_tests :=
  repeat match goal with
         | |- context [Rlt_dec ?a ?b] => destruct (Rlt_dec a b)
         end.

Ltac absurd_test :=
  exfalso; unfold Rabs in *;
  repeat match goal with
         | H : context [Rcase_abs ?x] |- _ => destruct (Rcase_abs x)
         end; lra.

(** Label of a balanced vector whose first component is real and
    positive, by the argument of the second. *)
Lemma label_balanced (self : BlochOrbitalState) (b : C) (t : R) (l : string) :
  _state_vector self = ((/ sqrt 2, 0), b) ->
  Cabs b = / sqrt 2 ->
  angle b = t ->
  (t = 0 /\ l = "|+⟩"%string) \/ (t = PI /\ l = "|-⟩"%string)
  \/ (t = PI / 2 /\ l = "|+i⟩"%string)
  \/ (t = - (PI / 2) /\ l = "|-i⟩"%string) ->
  _get_state_label self = l.
Proof.
  intros Hv Hb Ha Hl. unfold _get_state_label. rewrite Hv.
  pose proof inv_sqrt2_lt as Hlt. pose proof inv_sqrt2_pos as Hpos.
  pose proof PI2_1 as Hpi.
  rewrite Cabs_real, Rabs_pos_eq, Hb by lra.
  replace (/ sqrt 2 - / sqrt 2) with 0 by ring. rewrite Rabs_R0.
  assert (Ha0 : angle (/ sqrt 2, 0) = 0).
  { unfold angle; cbn [fst snd]. apply arctan2_0_nonneg. lra. }
  rewrite Ha0, Ha.
  destruct Hl as [[-> ->] | [[-> ->] | [[-> ->] | [-> ->]]]];
    split_tests; first [reflexivity | absurd_test].
Qed.

(** Labels of the two poles. *)
Lemma label_zero (self : BlochOrbitalState) :
  _state_vector self = bloch_to_state_vector 0 0 ->
  _get_state_label self = "|0⟩"%string.
Proof.
  intros Hv. unfold _get_state_label.
  rewrite Hv, bloch_to_state_vector_zero.
  rewrite Cabs_real, Rabs_pos_eq by lra.
  destruct (Rlt_dec 0.99 1); [reflexivity | lra].
Qed.

Lemma label_one (self : BlochOrbitalState) :
  _state_vector self = bloch_to_state_vector PI 0 ->
  _get_state_label self = "|1⟩"%string.
Proof.
  intros Hv. unfold _get_state_label.
  rewrite Hv, bloch_to_state_vector_components.
  rewrite cos_PI2, sin_PI2, cos_0, sin_0, Rmult_1_l, Rmult_0_l.
  rewrite !Cabs_real, Rabs_R0, Rabs_pos_eq by lra.
  destruct (Rlt_dec 0.99 0); [lra |].
  destruct (Rlt_dec 0.99 1); [reflexivity | lra].
Qed.

(** State vectors on the equator. *)
Lemma equator_vector (phi : R) :
  bloch_to_state_vector (PI / 2) phi
  = ((/ sqrt 2, 0), (cos phi * / sqrt 2, sin phi * / sqrt 2)).
Proof.
  rewrite bloch_to_state_vector_components.
  replace (PI / 2 / 2) with (PI / 4) by field.
  rewrite cos_PI4, sin_PI4. unfold Rdiv. now rewrite Rmult_1_l.
Qed.

Lemma arctan2_neg_axis (x : R) : x < 0 -> arctan2 0 x = PI.
Proof.
  intros Hx. unfold arctan2.
  destruct (Rlt_dec 0 x); [lra |].
  destruct (Rlt_dec x 0); [| lra].
  destruct (Rle_dec 0 0); [| lra].
  unfold Rdiv. rewrite Rmult_0_l, atan_0. ring.
Qed.

Lemma arctan2_pos_imag (y : R) : 0 < y -> arctan2 y 0 = PI / 2.
Proof.
  intros Hy. unfold arctan2.
  destruct (Rlt_dec 0 0); [lra |].
  destruct (Rlt_dec 0 y); [reflexivity | lra].
Qed.

Lemma arctan2_neg_imag (y : R) : y < 0 -> arctan2 y 0 = - (PI / 2).
Proof.
  intros Hy. unfold arctan2.
  destruct (Rlt_dec 0 0); [lra |].
  destruct (Rlt_dec 0 y); [lra |].
  destruct (Rlt_dec y 0); [reflexivity | lra].
Qed.

Lemma BLOCH_PURE_STATES_cases (name : string) (theta phi : R) :
  BLOCH_PURE_STATES name = Some (theta, phi) ->
  (name = "|0⟩" /\ theta = 0 /\ phi = 0)%string
  \/ (name = "|1⟩" /\ theta = PI /\ phi = 0)%string
  \/ (name = "|+⟩" /\ theta = PI / 2 /\ phi = 0)%string
  \/ (name = "|-⟩" /\ theta = PI / 2 /\ phi = PI)%string
  \/ (name = "|+i⟩" /\ theta = PI / 2 /\ phi = PI / 2)%string
  \/ (name = "|-i⟩" /\ theta = PI / 2 /\ phi = 3 * PI / 2)%string.
Proof.
  unfold BLOCH_PURE_STATES.
  repeat match goal with
         | |- context [String.eqb name ?s] =>
             destruct (String.eqb_spec name s) as [-> | ?]
         end; intros E; inversion E; subst; tauto.
Qed.

(** X29.  Whenever [create_state(state_name, basis)] returns, the label
    [_get_state_label] of the object it returns is [state_name] again:
    the six names of [BLOCH_PURE_STATES] are recognised from the state
    vector, and none falls to the generic label. *)
Theorem create_state_label (name b : string) (s : BlochOrbitalState) :
  create_state name b = Ok s ->
  _get_state_label s = name.
Proof.
  intros H.
  destruct (supported_basis_dec b) as [Hs | Hn].
  2:{ unfold create_state in H.
      rewrite (new_BlochOrbitalState_unsupported 0 0 b Hn) in H.
      discriminate. }
  rewrite (create_state_supported name b Hs) in H.
  destruct (BLOCH_PURE_STATES name) as [[theta phi] |] eqn:E; [| discriminate].
  destruct (new_BlochOrbitalState_supported theta phi b Hs) as (c & _ & Hnew).
  rewrite Hnew in H. apply Ok_inj in H. subst s.
  pose proof inv_sqrt2_pos as Hpos.
  apply BLOCH_PURE_STATES_cases in E
    as [(-> & -> & ->) | [(-> & -> & ->) | [(-> & -> & ->)
       | [(-> & -> & ->) | [(-> & -> & ->) | (-> & -> & ->)]]]]].
  - apply label_zero. reflexivity.
  - apply label_one. reflexivity.
  - eapply label_balanced with (t := 0).
    + cbn [_state_vector]. rewrite equator_vector, cos_0, sin_0.
      rewrite Rmult_1_l, Rmult_0_l. reflexivity.
    + rewrite Cabs_real, Rabs_pos_eq; lra.
    + unfold angle; cbn [fst snd]. apply arctan2_0_nonneg. lra.
    + tauto.
  - eapply label_balanced with (t := PI).
    + cbn [_state_vector]. rewrite equator_vector, cos_PI, sin_PI.
      rewrite Rmult_0_l. reflexivity.
    + rewrite Cabs_real, Rabs_left; lra.
    + unfold angle; cbn [fst snd]. apply arctan2_neg_axis. lra.
    + tauto.
  - eapply label_balanced with (t := PI / 2).
    + cbn [_state_vector]. rewrite equator_vector, cos_PI2, sin_PI2.
      rewrite Rmult_1_l, Rmult_0_l. reflexivity.
    + rewrite Cabs_imag, Rabs_pos_eq; lra.
    + unfold angle; cbn [fst snd]. apply arctan2_pos_imag. lra.
    + tauto.
  - eapply label_balanced with (t := - (PI / 2)).
    + cbn [_state_vector]. rewrite equator_vector.
      replace (3 * PI / 2) with (3 * (PI / 2)) by field.
      rewrite cos_3PI2, sin_3PI2. rewrite Rmult_0_l. reflexivity.
    + rewrite Cabs_imag, Rabs_left; lra.
    + unfold angle; cbn [fst snd]. apply arctan2_neg_imag. lra.
    + tauto.
Qed.

(** Witness for X29: the state |-i> in the sp basis. *)
Lemma create_state_label_witness :
  exists s, create_state "|-i⟩" "sp" = Ok s
            /\ _get_state_label s = "|-i⟩"%string.
Proof.
  eexists. split; [reflexivity |].
  apply (create_state_label "|-i⟩" "sp"). reflexivity.
Defined.
